(** * shabanipy analysis scripts: a shallow embedding and its properties

    The development follows the four source files of the repository:

    - [shabanipy/constants.py]                       (module [constants]),
    - [scripts/squid/plot_squid_current.py]          (module [plot_squid_current]),
    - [scripts/jj/fraunhofer/inplane.py]             (module [inplane]),
    - [scripts/squid/fit_squid_oscillations.py]      (module [fit_squid_oscillations]).

    Conventions of the embedding.

    - Python [str] values are [string]s; [str.upper] and [str.endswith] act
      on ASCII letters, which is all the keys and channel suffixes of the
      scripts contain.
    - A configuration section is a finite map from option names to their
      string values ([gmap string string]); the typed accessors of the
      section proxy ([get], [__getitem__], [getfloat]) are written out with
      their fallback behaviour.
    - numpy [float64] scalars are real numbers and 1-D arrays are lists of
      real numbers.  Where a statement is about exact values the same code
      is also instantiated at IEEE binary64 ([PrimFloat]).
    - Uncaught Python exceptions are the [Raise] results of an error monad;
      what a script prints, plots and writes is collected in a trace of
      events.
    - Library entry points whose code is not part of the repository sources
      (measurement-file reader, extractor, estimators, fit engine, numpy
      array operations) are [Variable]s of the section that embeds the
      script calling them. *)

From Stdlib Require Import String Ascii List ZArith Reals Lra Lia Bool.
From Stdlib Require Import QArith Qreals Uint63 Floats.PrimFloat.
From stdpp Require Import gmap strings pretty.

Set Warnings "-inexact-float".
Open Scope string_scope.

(** ** Python exceptions and results *)

Inductive exn : Type :=
| KeyError (key : string)
| AttributeError (name : string)
| NameError (name : string)
| TypeError (msg : string)
| ValueError (msg : string)
| IndexError (msg : string).

Inductive result (A : Type) : Type :=
| Ok (a : A)
| Raise (e : exn).
Arguments Ok {A} a.
Arguments Raise {A} e.

Definition rbind {A B} (r : result A) (k : A → result B) : result B :=
  match r with
  | Ok a => k a
  | Raise e => Raise e
  end.

#[global] Instance result_ret : MRet result := fun A a => Ok a.
#[global] Instance result_bind : MBind result := fun A B k r => rbind r k.

Definition raises {A} (r : result A) : Prop := ∃ e, r = Raise e.

(** ** Strings *)

(** [str.upper] on ASCII: [a]..[z] go to [A]..[Z], every other character is
    kept. *)
Definition upper_ascii (c : ascii) : ascii :=
  let n := nat_of_ascii c in
  if (97 <=? n)%nat && (n <=? 122)%nat then ascii_of_nat (n - 32) else c.

Fixpoint upper (s : string) : string :=
  match s with
  | EmptyString => EmptyString
  | String c s' => String (upper_ascii c) (upper s')
  end.

(** [strip_prefix p s] is [Some r] when [s = p ++ r]. *)
Fixpoint strip_prefix (p s : string) : option string :=
  match p, s with
  | EmptyString, _ => Some s
  | String a p', String b s' => if Ascii.eqb a b then strip_prefix p' s' else None
  | String _ _, EmptyString => None
  end.

(** All the ways of cutting [t] in two. *)
Fixpoint splits (t : string) : list (string * string) :=
  (EmptyString, t) ::
  match t with
  | EmptyString => []
  | String c t' => map (fun '(p, r) => (String c p, r)) (splits t')
  end.

(** The pairs [(u, v)] with [t = u ++ infix ++ v]. *)
Definition around (infix t : string) : list (string * string) :=
  omap (fun '(u, r) => match strip_prefix infix r with
                       | Some v => Some (u, v)
                       | None => None
                       end) (splits t).

(** [p in s] for strings. *)
Fixpoint occurs (p s : string) : bool :=
  match strip_prefix p s with
  | Some _ => true
  | None =>
      match s with
      | EmptyString => false
      | String _ s' => occurs p s'
      end
  end.

(** [s.split(sep)[0]] for a non-empty separator: the text before the first
    occurrence of [sep], the whole string when there is none. *)
Fixpoint split_first (sep s : string) : string :=
  match strip_prefix sep s with
  | Some _ => EmptyString
  | None =>
      match s with
      | EmptyString => EmptyString
      | String c s' => String c (split_first sep s')
      end
  end.

(** [s.replace(a, b)] for single characters. *)
Fixpoint replace_char (a b : ascii) (s : string) : string :=
  match s with
  | EmptyString => EmptyString
  | String c s' => String (if Ascii.eqb c a then b else c) (replace_char a b s')
  end.

(** [str.endswith(suffix)]. *)
Definition endswith (s suffix : string) : bool :=
  let n := String.length s in
  let k := String.length suffix in
  (k <=? n)%nat && String.eqb (substring (n - k) k s) suffix.

(** [s.split(sep)[-1]] for a non-empty separator: the text after the last
    of the occurrences of [sep] met from the left, the whole string when
    there is none.  [skip] counts the characters of a separator still to be
    passed over. *)
Fixpoint split_last_from (sep s : string) (skip : nat) (cur : string) : string :=
  match s with
  | EmptyString => cur
  | String _ s' =>
      match skip with
      | S k => split_last_from sep s' k cur
      | O =>
          match strip_prefix sep s with
          | Some r => split_last_from sep s' (String.length sep - 1) r
          | None => split_last_from sep s' 0 cur
          end
      end
  end.

Definition split_last (sep s : string) : string := split_last_from sep s 0 s.

(** ** Configuration sections

    A section of the .ini file, as [configparser] hands it to the scripts:
    option names mapped to their (interpolated) string values. *)

Abbreviation config_section := (gmap string string).

(** Truth value of the result of [config.get(key)]: [None] and the empty
    string are false. *)
Definition truthy (v : option string) : bool :=
  match v with
  | Some (String _ _) => true
  | _ => false
  end.

(** [config.get(key, fallback)]. *)
Definition config_get (config : config_section) (key fallback : string) : string :=
  default fallback (config !! key).

(** [config[key]]. *)
Definition config_getitem (config : config_section) (key : string) : result string :=
  match config !! key with
  | Some v => Ok v
  | None => Raise (KeyError key)
  end.

(** [config.getfloat(key, fallback)]: the fallback when the option is
    absent, the value converted by [float] otherwise.  [config.getfloat(key)]
    has the fallback [None]. *)
Definition config_getfloat (float : string → result R)
    (config : config_section) (key : string) (fallback : option R) : result (option R) :=
  match config !! key with
  | Some v => x ← float v; Ok (Some x)
  | None => Ok fallback
  end.

(** [config.getboolean(key)]: [None] when the option is absent. *)
Definition config_getboolean (boolean : string → result bool)
    (config : config_section) (key : string) : result (option bool) :=
  match config !! key with
  | Some v => b ← boolean v; Ok (Some b)
  | None => Ok None
  end.

(** A number where Python got [None] is a [TypeError] as soon as it is
    used in arithmetic. *)
Definition number (v : option R) : result R :=
  match v with
  | Some x => Ok x
  | None => Raise (TypeError "unsupported operand type(s): NoneType")
  end.

(** ** Scripts

    A script runs in a state-and-error monad: the state is the trace of the
    events it has caused so far, and an exception stops it with the trace
    reached. *)

Definition script (E A : Type) : Type := list E → list E * result A.

#[global] Instance script_ret {E} : MRet (script E) := fun A a tr => (tr, Ok a).
#[global] Instance script_bind {E} : MBind (script E) := fun A B k m tr =>
  match m tr with
  | (tr', Ok a) => k a tr'
  | (tr', Raise e) => (tr', Raise e)
  end.

Definition emit {E} (e : E) : script E () := fun tr => (app tr [e], Ok ()).
Definition lift {E A} (r : result A) : script E A := fun tr => (tr, r).

(** [if not ok: warnings.warn(text)]. *)
Definition warn_unless {E} (warning : string → E) (ok : bool) (text : string) : script E () :=
  if ok then mret () else emit (warning text).

(** Every event a script causes satisfies [P], however the script ends. *)
Definition emits {E A} (P : E → Prop) (m : script E A) : Prop :=
  ∀ tr tr' r, m tr = (tr', r) → ∃ evs, tr' = app tr evs ∧ Forall P evs.

(** Unfolding one step of a script. *)
Lemma bind_lift {E A B} (r : result A) (k : A → script E B) (tr : list E) :
  (lift r ≫= k) tr = match r with Ok a => k a tr | Raise e => (tr, Raise e) end.
Proof. by destruct r. Qed.

Lemma bind_emit {E B} (e : E) (k : () → script E B) (tr : list E) :
  (emit e ≫= k) tr = k () (app tr [e]).
Proof. reflexivity. Qed.

Lemma bind_mret {E A B} (a : A) (k : A → script E B) (tr : list E) :
  (mret a ≫= k) tr = k a tr.
Proof. reflexivity. Qed.

Lemma warn_unless_run {E} (warning : string → E) (ok : bool) (text : string) (tr : list E) :
  warn_unless warning ok text tr = (app tr (if ok then [] else [warning text]), Ok ()).
Proof. destruct ok; [|done]. unfold warn_unless. by rewrite (right_id_L [] app). Qed.

Lemma emits_mret {E A} (P : E → Prop) (a : A) : emits P (mret a : script E A).
Proof.
  intros tr tr' r [= <- <-]. exists []. by rewrite (right_id_L [] app).
Qed.

Lemma emits_lift {E A} (P : E → Prop) (r : result A) : emits P (lift r : script E A).
Proof.
  intros tr tr' r' [= <- <-]. exists []. by rewrite (right_id_L [] app).
Qed.

Lemma emits_emit {E} (P : E → Prop) (e : E) : P e → emits P (emit e).
Proof. intros He tr tr' r [= <- <-]. exists [e]. split; [done|]. by constructor. Qed.

Lemma emits_bind {E A B} (P : E → Prop) (m : script E A) (k : A → script E B) :
  emits P m → (∀ a, emits P (k a)) → emits P (m ≫= k).
Proof.
  intros Hm Hk tr tr' r Hrun. unfold mbind, script_bind in Hrun.
  destruct (m tr) as [tr1 [a|e]] eqn:Hmrun.
  - apply Hm in Hmrun as (evs1 & -> & H1). apply Hk in Hrun as (evs2 & -> & H2).
    exists (app evs1 evs2). split; [by rewrite (assoc_L app)|]. by apply Forall_app.
  - injection Hrun as <- <-. by apply Hm in Hmrun.
Qed.

Lemma emits_bind_mret {E A B} (P : E → Prop) (a : A) (k : A → script E B) :
  emits P (k a) → emits P (mret a ≫= k).
Proof. intros Hk tr tr' r Hrun. by apply (Hk tr tr' r). Qed.

(** [round(x)] and [round(x, ndigits)]: to the nearest, ties to even. *)
Definition rint (x : R) : Z :=
  let f := Int_part x in
  let d := (x - IZR f)%R in
  if Rlt_dec d (1 / 2) then f
  else if Rlt_dec (1 / 2) d then (f + 1)%Z
  else if Z.even f then f else (f + 1)%Z.

Definition round_ndigits (x : R) (ndigits : nat) : R :=
  (IZR (rint (x * IZR (10 ^ Z.of_nat ndigits))) / IZR (10 ^ Z.of_nat ndigits))%R.

(** ** shabanipy/constants.py *)

Module constants.

Open Scope R_scope.

(* magnet coil current per unit field *)
Definition FOURTEEN_TESLA_AMPS_PER_TESLA : R := 8.341.
Definition VECTOR9_AMPS_PER_TESLA_X : R := 35.705.
Definition VECTOR9_AMPS_PER_TESLA_Y : R := 72.575.
Definition VECTOR9_AMPS_PER_TESLA_Z : R := 18.203.
Definition VECTOR10_AMPS_PER_TESLA_X : R := 35.927.
Definition VECTOR10_AMPS_PER_TESLA_Y : R := 74.548.
Definition VECTOR10_AMPS_PER_TESLA_Z : R := 18.0110.

(** The names the module binds, in the order of the source. *)
Definition bindings : list (string * R) :=
  [ ("FOURTEEN_TESLA_AMPS_PER_TESLA", FOURTEEN_TESLA_AMPS_PER_TESLA);
    ("VECTOR9_AMPS_PER_TESLA_X", VECTOR9_AMPS_PER_TESLA_X);
    ("VECTOR9_AMPS_PER_TESLA_Y", VECTOR9_AMPS_PER_TESLA_Y);
    ("VECTOR9_AMPS_PER_TESLA_Z", VECTOR9_AMPS_PER_TESLA_Z);
    ("VECTOR10_AMPS_PER_TESLA_X", VECTOR10_AMPS_PER_TESLA_X);
    ("VECTOR10_AMPS_PER_TESLA_Y", VECTOR10_AMPS_PER_TESLA_Y);
    ("VECTOR10_AMPS_PER_TESLA_Z", VECTOR10_AMPS_PER_TESLA_Z) ].

(** The module namespace.  (The interpreter's own attributes, [__name__],
    [__doc__] and the like, are left out: no key the scripts build can
    name them.) *)
Definition namespace : gmap string R := list_to_map bindings.

(** [getattr(import_module("shabanipy.constants"), name)]. *)
Definition getattr (name : string) : result R :=
  match namespace !! name with
  | Some v => Ok v
  | None => Raise (AttributeError name)
  end.

(** The composite key of fit_squid_oscillations.py, lines 97-100:
    [f"{config['FRIDGE'].upper()}_AMPS_PER_TESLA_{config['PERP_AXIS'].upper()}"]. *)
Definition composite_key (fridge axis : string) : string :=
  upper fridge ++ "_AMPS_PER_TESLA_" ++ upper axis.

Definition lookup (fridge axis : string) : result R :=
  getattr (composite_key fridge axis).

(** The six entries a composite key can name, by upper-cased fridge and
    axis. *)
Definition vector_entries : list (string * string * R) :=
  [ ("VECTOR9", "X", 35.705); ("VECTOR9", "Y", 72.575); ("VECTOR9", "Z", 18.203);
    ("VECTOR10", "X", 35.927); ("VECTOR10", "Y", 74.548); ("VECTOR10", "Z", 18.0110) ].

(** *** Properties of the string helpers *)

Lemma splits_app (u r : string) : (u, r) ∈ splits (u ++ r).
Proof.
  induction u as [|c u IH]; simpl.
  - destruct r; left.
  - right. apply (list_elem_of_fmap_2 (fun '(p, r) => (String c p, r)) _ (u, r)), IH.
Qed.

Lemma strip_prefix_app (p v : string) : strip_prefix p (p ++ v) = Some v.
Proof.
  induction p as [|c p IH]; simpl; [done|].
  by rewrite Ascii.eqb_refl.
Qed.

Lemma around_complete (infix u v : string) : (u, v) ∈ around infix (u ++ infix ++ v).
Proof.
  unfold around. apply list_elem_of_omap. exists (u, infix ++ v). split.
  - apply splits_app.
  - simpl. by rewrite strip_prefix_app.
Qed.

(** *** Properties of the constants table *)

Lemma namespace_bound (name : string) (v : R) :
  namespace !! name = Some v → (name, v) ∈ bindings.
Proof. apply elem_of_list_to_map_2. Qed.

(** An attribute that a key [U_AMPS_PER_TESLA_A] names is one of the six
    vector-magnet entries. *)
Lemma composite_bound (U A : string) (v : R) :
  namespace !! (U ++ "_AMPS_PER_TESLA_" ++ A) = Some v →
  (U, A, v) ∈ vector_entries.
Proof.
  intros Hv. apply namespace_bound in Hv.
  pose proof (around_complete "_AMPS_PER_TESLA_" U A) as Hcut.
  unfold bindings in Hv.
  repeat (apply elem_of_cons in Hv as [Hv|Hv];
          [ injection Hv as Hk ->; rewrite Hk in Hcut; vm_compute in Hcut;
            repeat (apply elem_of_cons in Hcut as [Hcut|Hcut];
                    [injection Hcut as -> ->|]);
            try (by apply elem_of_nil in Hcut)
          | ]).
  all: try (by apply elem_of_nil in Hv).
  all: unfold vector_entries; set_solver.
Qed.

(** C1 (as the code has it).  The constants module binds seven names.  A
    composite key [{FRIDGE}_AMPS_PER_TESLA_{AXIS}] reaches exactly the six
    vector-magnet entries (VECTOR9 and VECTOR10, axes X, Y, Z), whatever the
    letter case of the configured fridge and axis, and returns the literal
    of the source; every other (fridge, axis) pair raises [AttributeError].
    The single-axis constant is bound under its own name
    [FOURTEEN_TESLA_AMPS_PER_TESLA], with the value 8.341, and no composite
    key names it. *)
Theorem lookup_by_composite_key :
  (∀ F A v fridge axis,
      (F, A, v) ∈ vector_entries → upper fridge = F → upper axis = A →
      lookup fridge axis = Ok v) ∧
  (∀ fridge axis,
      (∀ v, (upper fridge, upper axis, v) ∉ vector_entries) →
      lookup fridge axis = Raise (AttributeError (composite_key fridge axis))) ∧
  getattr "FOURTEEN_TESLA_AMPS_PER_TESLA" = Ok 8.341 ∧
  (∀ fridge axis, composite_key fridge axis ≠ "FOURTEEN_TESLA_AMPS_PER_TESLA") ∧
  length bindings = 7%nat.
Proof.
  split; [|split; [|split; [|split]]].
  - intros F A v fridge axis Hin HF HA.
    unfold lookup, composite_key. rewrite HF, HA.
    unfold vector_entries in Hin.
    repeat (apply elem_of_cons in Hin as [Hin|Hin];
            [by injection Hin as -> -> ->|]).
    by apply elem_of_nil in Hin.
  - intros fridge axis Hnone. unfold lookup, getattr, composite_key.
    destruct (namespace !! _) as [v|] eqn:Hv; [|done].
    apply composite_bound in Hv. by apply Hnone in Hv.
  - reflexivity.
  - intros fridge axis Heq. unfold composite_key in Heq.
    pose proof (around_complete "_AMPS_PER_TESLA_" (upper fridge) (upper axis)) as Hcut.
    rewrite Heq in Hcut. vm_compute in Hcut. by apply elem_of_nil in Hcut.
  - reflexivity.
Qed.

(** The theorem at the configuration [FRIDGE = vector10], [PERP_AXIS = x]
    and at the undefined pair (vector9, w). *)
Lemma lookup_by_composite_key_witness :
  lookup "vector10" "x" = Ok 35.927 ∧
  lookup "vector9" "w" = Raise (AttributeError "VECTOR9_AMPS_PER_TESLA_W").
Proof.
  destruct lookup_by_composite_key as (Hdef & Hundef & _).
  split.
  - apply (Hdef "VECTOR10" "X" 35.927 "vector10" "x"); [|reflexivity|reflexivity].
    unfold vector_entries. do 3 right. left.
  - apply (Hundef "vector9" "w"). intros v Hin.
    change (upper "vector9") with "VECTOR9" in Hin.
    change (upper "w") with "W" in Hin.
    unfold vector_entries in Hin.
    repeat (apply elem_of_cons in Hin as [Hin|Hin]; [discriminate Hin|]).
    by apply elem_of_nil in Hin.
Defined.

(** The single-axis magnet cannot be looked up by a composite key: with an
    empty axis the key ends in an underscore that the bound name does not
    have.  (And the table has seven entries.) *)
Lemma fourteen_tesla_composite_key_not_found :
  lookup "FOURTEEN_TESLA" "" = Raise (AttributeError "FOURTEEN_TESLA_AMPS_PER_TESLA_") ∧
  length bindings ≠ 9%nat.
Proof. split; [reflexivity | discriminate]. Qed.

(** *** Further properties of the lookup *)

(** The other letter case of a character: [a]..[z] and [A]..[Z] are
    exchanged, every other character is kept. *)
Definition swap_case_ascii (c : ascii) : ascii :=
  let n := nat_of_ascii c in
  if (97 <=? n)%nat && (n <=? 122)%nat then ascii_of_nat (n - 32)
  else if (65 <=? n)%nat && (n <=? 90)%nat then ascii_of_nat (n + 32)
  else c.

(** Two spellings that differ at most in the letter case of their
    characters. *)
Inductive same_up_to_case : string → string → Prop :=
| same_up_to_case_empty : same_up_to_case "" ""
| same_up_to_case_char (c : ascii) (s t : string) :
    same_up_to_case s t → same_up_to_case (String c s) (String c t)
| same_up_to_case_swap (c : ascii) (s t : string) :
    same_up_to_case s t → same_up_to_case (String c s) (String (swap_case_ascii c) t).

Lemma upper_ascii_swap_case (c : ascii) :
  upper_ascii (swap_case_ascii c) = upper_ascii c.
Proof. destruct c as [[] [] [] [] [] [] [] []]; reflexivity. Qed.

Lemma upper_same_up_to_case (s t : string) : same_up_to_case s t → upper s = upper t.
Proof.
  induction 1 as [|c s t _ IH|c s t _ IH]; simpl; [done|by rewrite IH|].
  by rewrite upper_ascii_swap_case, IH.
Qed.

(** X1.  The lookup does not depend on letter case: two spellings of the
    fridge that differ only in the case of their letters, with two such
    spellings of the axis, find the same constant or miss alike. *)
Theorem lookup_case_insensitive (fridge fridge' axis axis' : string) :
  same_up_to_case fridge fridge' → same_up_to_case axis axis' →
  lookup fridge axis = lookup fridge' axis'.
Proof.
  intros Hfridge Haxis. unfold lookup, composite_key.
  by rewrite (upper_same_up_to_case _ _ Hfridge), (upper_same_up_to_case _ _ Haxis).
Qed.

Lemma lookup_case_insensitive_witness :
  lookup "vector9" "y" = lookup "VeCtor9" "Y" ∧ lookup "VeCtor9" "Y" = Ok 72.575.
Proof.
  split; [|reflexivity].
  apply (lookup_case_insensitive "vector9" "VeCtor9" "y" "Y").
  - apply (same_up_to_case_swap "v"), (same_up_to_case_char "e"),
      (same_up_to_case_swap "c"), (same_up_to_case_char "t"),
      (same_up_to_case_char "o"), (same_up_to_case_char "r"),
      (same_up_to_case_char "9"), same_up_to_case_empty.
  - apply (same_up_to_case_swap "y"), same_up_to_case_empty.
Defined.

(** X2.  Every conversion factor a lookup returns is positive, so the
    division of the coil current by it is defined and keeps sign and
    order. *)
Theorem lookup_positive (fridge axis : string) (v : R) :
  lookup fridge axis = Ok v → 0 < v.
Proof.
  unfold lookup, getattr, composite_key.
  destruct (namespace !! _) as [w|] eqn:Hw; [|done].
  intros [= <-]. apply composite_bound in Hw. unfold vector_entries in Hw.
  repeat (apply elem_of_cons in Hw as [Hw|Hw]; [injection Hw as _ _ ->; lra|]).
  by apply elem_of_nil in Hw.
Qed.

Lemma lookup_positive_witness : 0 < 72.575.
Proof. apply (lookup_positive "Vector9" "y" 72.575). reflexivity. Defined.

End constants.


(** ** scripts/squid/plot_squid_current.py *)

Module plot_squid_current.

(** The scalar operations the script uses on float64 values.  [lit] reads a
    decimal literal of the source. *)
Class Scalar (A : Type) := {
  lit : Q → A;
  add : A → A → A;
  sub : A → A → A;
  div : A → A → A;
  maximum : A → A → A;
  minimum : A → A → A
}.

(** [np.amax] and [np.min] of a 1-D array; both raise [ValueError] on an
    empty one. *)
Definition amax `{Scalar A} (a : list A) : result A :=
  match a with
  | [] => Raise (ValueError "zero-size array to reduction operation maximum which has no identity")
  | x :: l => Ok (fold_left maximum l x)
  end.

Definition amin `{Scalar A} (a : list A) : result A :=
  match a with
  | [] => Raise (ValueError "zero-size array to reduction operation minimum which has no identity")
  | x :: l => Ok (fold_left minimum l x)
  end.

(** Exact arithmetic. *)
#[export] Instance real_scalar : Scalar R := {
  lit := Q2R;
  add := Rplus;
  sub := Rminus;
  div := Rdiv;
  maximum := Rmax;
  minimum := Rmin
}.

(** IEEE binary64, as numpy computes.  [np.amax] and [np.min] propagate
    NaN. *)
Definition fmaximum (x y : float) : float :=
  if PrimFloat.is_nan x then x
  else if PrimFloat.is_nan y then y
  else if PrimFloat.ltb x y then y else x.

Definition fminimum (x y : float) : float :=
  if PrimFloat.is_nan x then x
  else if PrimFloat.is_nan y then y
  else if PrimFloat.ltb y x then y else x.

Definition float_of_Z (z : Z) : float :=
  match z with
  | Z0 => 0%float
  | Zpos p => PrimFloat.of_uint63 (Uint63.of_Z (Zpos p))
  | Zneg p => PrimFloat.opp (PrimFloat.of_uint63 (Uint63.of_Z (Zpos p)))
  end.

(** A decimal literal with few digits is the correctly rounded quotient of
    its numerator and denominator. *)
Definition float_of_Q (q : Q) : float :=
  PrimFloat.div (float_of_Z (Qnum q)) (float_of_Z (Zpos (Qden q))).

Definition binary64_scalar : Scalar float := {|
  lit := float_of_Q;
  add := PrimFloat.add;
  sub := PrimFloat.sub;
  div := PrimFloat.div;
  maximum := fmaximum;
  minimum := fminimum
|}.

Section script.

Context {A : Type} `{Scalar A}.

(** [phase_diff = np.linspace(-2*np.pi, 2*np.pi, 1001)]: the script hands
    it to the library and to [plt.plot]; [linspace] below gives it over
    the reals. *)
Variable phase_diff : list A.

(** [shabanipy.squid.cpr.finite_transparency_jj_current] and
    [shabanipy.squid.squid_model.compute_squid_current]: library code that
    is not among the sources. *)
Variable cpr : A → A → A → A → A.
Variable compute_squid_current :
  list A → (A → A → A → A → A) → A * A * A → (A → A → A → A → A) → A * A * A → list A.

(** Parameters of the first junction: amplitude, transparency *)
Definition FIRST_JUNCTION : A * A := (lit 1, lit 0.0).

(** Transparencies of the second junction *)
Definition SECOND_JUNCTION_TRANSPARENCIES : list A := [lit 0.0; lit 0.6; lit 0.9].

(** Amplitudes of the second junction *)
Definition SECOND_JUNCTION_AMPLITUDES : list A := [lit 0.1; lit 0.25; lit 0.5; lit 1].

(** Lines 35-37: the curve of one (transparency, amplitude) pair. *)
Definition squid_curve (t a : A) : list A :=
  compute_squid_current phase_diff
    cpr (lit 0, FIRST_JUNCTION.1, FIRST_JUNCTION.2)
    cpr (lit 0, a, t).

(** Lines 38-41: the normalization. *)
Definition normalize (squid : list A) : result (list A) :=
  hi ← amax squid;
  lo ← amin squid;
  let amplitude := sub hi lo in
  hi' ← amax squid;
  lo' ← amin squid;
  let baseline := div (add hi' lo') (lit 2) in
  Ok (map (fun s => div (sub s baseline) amplitude) squid).

(** [plt.plot(x, y)]: matplotlib refuses two arrays of different lengths. *)
Definition plot (x y : list A) : result () :=
  if decide (length x = length y) then Ok ()
  else Raise (ValueError "x and y must have same first dimension").

(** Lines 35-42, one plotted line: its label values and the normalized
    curve, drawn over [phase_diff]. *)
Definition plotted_line (t a : A) : result (A * A * list A) :=
  curve ← normalize (squid_curve t a);
  plot phase_diff curve;;
  Ok (t, a, curve).

(** The loops of lines 32-43: one figure per transparency, one line per
    amplitude. *)
Definition main : result (list (list (A * A * list A))) :=
  mapM (fun t => mapM (fun a => plotted_line t a) SECOND_JUNCTION_AMPLITUDES)
       SECOND_JUNCTION_TRANSPARENCIES.

End script.

(** *** The normalization in exact arithmetic *)

Open Scope R_scope.

Lemma Rmax_monotone (f : R → R) (x y : R) :
  (∀ u v, u <= v → f u <= f v) → Rmax (f x) (f y) = f (Rmax x y).
Proof.
  intros Hf. unfold Rmax.
  destruct (Rle_dec x y) as [Hxy|Hxy], (Rle_dec (f x) (f y)) as [Hf'|Hf']; try done.
  - apply Hf in Hxy. by destruct Hf'.
  - assert (y <= x) as Hyx by lra. apply Hf in Hyx. lra.
Qed.

Lemma Rmin_monotone (f : R → R) (x y : R) :
  (∀ u v, u <= v → f u <= f v) → Rmin (f x) (f y) = f (Rmin x y).
Proof.
  intros Hf. unfold Rmin.
  destruct (Rle_dec x y) as [Hxy|Hxy], (Rle_dec (f x) (f y)) as [Hf'|Hf']; try done.
  - apply Hf in Hxy. by destruct Hf'.
  - assert (y <= x) as Hyx by lra. apply Hf in Hyx. lra.
Qed.

Lemma fold_Rmax_map (f : R → R) (l : list R) (x : R) :
  (∀ u v, u <= v → f u <= f v) →
  fold_left Rmax (map f l) (f x) = f (fold_left Rmax l x).
Proof.
  intros Hf. revert x. induction l as [|y l IH]; intros x; simpl; [done|].
  by rewrite Rmax_monotone, IH.
Qed.

Lemma fold_Rmin_map (f : R → R) (l : list R) (x : R) :
  (∀ u v, u <= v → f u <= f v) →
  fold_left Rmin (map f l) (f x) = f (fold_left Rmin l x).
Proof.
  intros Hf. revert x. induction l as [|y l IH]; intros x; simpl; [done|].
  by rewrite Rmin_monotone, IH.
Qed.

Lemma amax_map (f : R → R) (a : list R) (hi : R) :
  (∀ u v, u <= v → f u <= f v) → amax a = Ok hi → amax (map f a) = Ok (f hi).
Proof.
  intros Hf. destruct a as [|x l]; simpl; [done|].
  intros [= <-]. by rewrite fold_Rmax_map.
Qed.

Lemma amin_map (f : R → R) (a : list R) (lo : R) :
  (∀ u v, u <= v → f u <= f v) → amin a = Ok lo → amin (map f a) = Ok (f lo).
Proof.
  intros Hf. destruct a as [|x l]; simpl; [done|].
  intros [= <-]. by rewrite fold_Rmin_map.
Qed.

Lemma normalize_extrema (squid : list R) (hi lo : R) :
  amax squid = Ok hi → amin squid = Ok lo → lo < hi →
  ∃ curve, normalize squid = Ok curve ∧
           amin curve = Ok (-0.5) ∧ amax curve = Ok 0.5.
Proof.
  intros Hhi Hlo Hlt. unfold normalize. rewrite Hhi, Hlo. simpl.
  eexists. split; [reflexivity|].
  assert (∀ u v, u <= v →
            (u - (hi + lo) / Q2R 2) / (hi - lo) <= (v - (hi + lo) / Q2R 2) / (hi - lo))
    as Hmono.
  { intros u v Huv. apply Rmult_le_compat_r; [|lra].
    apply Rlt_le, Rinv_0_lt_compat. lra. }
  split.
  - rewrite (amin_map _ _ lo Hmono Hlo). f_equal.
    replace (Q2R 2) with 2 by lra. replace (Q2R (-0.5)) with (-(1/2)) by lra.
    field. lra.
  - rewrite (amax_map _ _ hi Hmono Hhi). f_equal.
    replace (Q2R 2) with 2 by lra. replace (Q2R 0.5) with (1/2) by lra.
    field. lra.
Qed.

(** [np.linspace(start, stop, num)] over the reals. *)
Definition linspace (start stop : R) (num : nat) : list R :=
  map (fun k => start + (stop - start) * INR k / INR (num - 1)) (seq 0 num).

Lemma linspace_length (start stop : R) (num : nat) :
  length (linspace start stop num) = num.
Proof. unfold linspace. by rewrite length_map, length_seq. Qed.

Lemma normalize_length `{Scalar A} (squid curve : list A) :
  normalize squid = Ok curve → length curve = length squid.
Proof.
  destruct squid as [|x l]; [done|]. unfold normalize. simpl.
  intros [= <-]. simpl. by rewrite length_map.
Qed.

Lemma plot_same_length `{Scalar A} (x y : list A) :
  length x = length y → plot x y = Ok ().
Proof. intros Hlen. unfold plot. by rewrite decide_True. Qed.


(** A curve of [n + 1] points that starts at 0 and stays at 1. *)
Definition step_curve (n : nat) : list R := 0 :: repeat 1 n.

Lemma fold_left_Rmax_ones (n : nat) : fold_left Rmax (repeat 1 n) 1 = 1.
Proof.
  induction n as [|n IH]; simpl; [done|]. by rewrite Rmax_left by lra.
Qed.

Lemma fold_left_Rmin_ones (n : nat) : fold_left Rmin (repeat 1 n) 0 = 0.
Proof.
  induction n as [|n IH]; simpl; [done|]. by rewrite Rmin_left by lra.
Qed.

Lemma step_curve_amax (n : nat) : amax (step_curve (S n)) = Ok 1.
Proof.
  unfold step_curve, amax. f_equal. cbn [repeat fold_left maximum real_scalar].
  rewrite Rmax_right by lra. apply fold_left_Rmax_ones.
Qed.

Lemma step_curve_amin (n : nat) : amin (step_curve n) = Ok 0.
Proof. unfold step_curve, amin. f_equal. apply fold_left_Rmin_ones. Qed.

Lemma step_curve_length (n : nat) (start stop : R) :
  length (step_curve n) = length (linspace start stop (S n)).
Proof. rewrite linspace_length. unfold step_curve. simpl. by rewrite repeat_length. Qed.


Close Scope R_scope.

(** *** The normalization in binary64 *)

(** Rounding.  The same normalization computed in binary64 on a two-point
    array with the values 0.9 and 1.1 gives 0.5000000000000002 and
    -0.4999999999999997: in float64 the extremes are -1/2 and +1/2 up to
    rounding.  The array stands in for a curve; the curves of the script
    come from a library that is not among the sources. *)
Lemma binary64_normalized_extrema_inexact :
  let _ : Scalar float := binary64_scalar in
  let squid := squid_curve [] (fun _ _ _ _ => 0%float)
                 (fun _ _ _ _ _ => [0.9; 1.1]%float) (lit 0.0) (lit 0.1) in
  ∃ hi lo curve,
    amax squid = Ok hi ∧ amin squid = Ok lo ∧ PrimFloat.ltb lo hi = true ∧
    normalize squid = Ok curve ∧
    amin curve ≠ Ok (-0.5)%float ∧ amax curve ≠ Ok 0.5%float.
Proof.
  exists 1.1%float, 0.9%float, [(-0.49999999999999972)%float; 0.50000000000000022%float].
  repeat split; try (vm_compute; reflexivity); vm_compute; intros [= Hx]; discriminate Hx.
Qed.

(** *** Further properties of the script *)

Open Scope R_scope.

(** X3.  In exact arithmetic the plotted curve does not depend on the scale
    or the offset of the computed current: a curve multiplied by a positive
    factor and shifted normalizes to the same values. *)
Theorem normalize_scale_shift_invariant (squid : list R) (hi lo c d : R) :
  amax squid = Ok hi → amin squid = Ok lo → lo < hi → 0 < c →
  normalize (map (fun s => c * s + d) squid) = normalize squid.
Proof.
  intros Hhi Hlo Hlt Hc.
  assert (∀ u v, u <= v → c * u + d <= c * v + d) as Hmono by (intros; nra).
  unfold normalize.
  rewrite (amax_map _ _ hi Hmono Hhi), (amin_map _ _ lo Hmono Hlo), Hhi, Hlo.
  simpl. f_equal. rewrite map_map. apply map_ext. intros s.
  assert (Q2R 2 = 2) as -> by (unfold Q2R; simpl; lra).
  assert (0 < c * (hi - lo)) by (apply Rmult_lt_0_compat; lra).
  field. split; lra.
Qed.

Lemma normalize_scale_shift_invariant_witness :
  normalize (map (fun s => 3 * s + 7) [0; 1]) = normalize [0; 1].
Proof.
  apply (normalize_scale_shift_invariant [0; 1] (Rmax 0 1) (Rmin 0 1) 3 7).
  - reflexivity.
  - reflexivity.
  - unfold Rmin, Rmax. destruct (Rle_dec 0 1); lra.
  - lra.
Defined.

Close Scope R_scope.

Lemma normalize_nonempty `{Scalar A} (squid : list A) :
  squid ≠ [] →
  ∃ curve, normalize squid = Ok curve ∧ length curve = length squid.
Proof.
  destruct squid as [|x l]; [done|]. intros _. unfold normalize. simpl.
  eexists. split; [reflexivity|]. simpl. by rewrite length_map.
Qed.

Lemma mapM_result_Ok {X Y : Type} (P : X → Y → Prop) (f : X → result Y) (l : list X) :
  (∀ x, x ∈ l → ∃ y, f x = Ok y ∧ P x y) →
  ∃ k, mapM f l = Ok k ∧ Forall2 P l k.
Proof.
  induction l as [|x l IH]; intros Hf; simpl.
  - exists []. by split.
  - destruct (Hf x) as (y & Hy & HP); [left|].
    destruct IH as (k & Hk & HF); [intros z Hz; apply Hf; by right|].
    exists (y :: k). cbv [mbind result_bind rbind mret result_ret] in *.
    rewrite Hy, Hk. split; [done|]. by constructor.
Qed.

(** X4.  When every computed curve has at least one point and as many
    points as [phase_diff], so that it can be normalized and plotted over
    it, the script draws one figure per transparency with one line per
    amplitude, in the order of the two lists; each line is the
    normalization of the curve of its pair and has the length of
    [phase_diff]. *)
Theorem main_figures `{Scalar A} (phase_diff : list A) (cpr : A → A → A → A → A)
    (compute_squid_current :
       list A → (A → A → A → A → A) → A * A * A → (A → A → A → A → A) → A * A * A → list A) :
  (∀ t a, t ∈ SECOND_JUNCTION_TRANSPARENCIES → a ∈ SECOND_JUNCTION_AMPLITUDES →
          squid_curve phase_diff cpr compute_squid_current t a ≠ [] ∧
          length (squid_curve phase_diff cpr compute_squid_current t a)
            = length phase_diff) →
  ∃ figures,
    main phase_diff cpr compute_squid_current = Ok figures ∧
    Forall2 (fun t figure =>
      Forall2 (fun a line =>
        ∃ curve, line = (t, a, curve) ∧
          normalize (squid_curve phase_diff cpr compute_squid_current t a) = Ok curve ∧
          length curve = length phase_diff)
        SECOND_JUNCTION_AMPLITUDES figure)
      SECOND_JUNCTION_TRANSPARENCIES figures.
Proof.
  intros Hcurves. unfold main. apply mapM_result_Ok. intros t Ht.
  apply mapM_result_Ok. intros a Ha.
  destruct (Hcurves t a Ht Ha) as [Hne Hlen].
  destruct (normalize_nonempty _ Hne) as (curve & Hc & Hlen').
  exists (t, a, curve). unfold plotted_line.
  cbv [mbind result_bind rbind]. rewrite Hc.
  rewrite plot_same_length by congruence.
  split; [done|]. exists curve. split; [done|]. split; [done|]. congruence.
Qed.

Lemma main_figures_witness :
  ∃ figures,
    main (linspace (-2 * PI) (2 * PI) 1001) (fun _ _ _ _ => 0%R)
      (fun _ _ _ _ _ => step_curve 1000) = Ok figures ∧
    length figures = 3%nat.
Proof.
  destruct (main_figures (linspace (-2 * PI) (2 * PI) 1001) (fun _ _ _ _ => 0%R)
              (fun _ _ _ _ _ => step_curve 1000))
    as (figures & Hm & Hf).
  - intros t a _ _. split; [discriminate|].
    exact (step_curve_length 1000 (-2 * PI) (2 * PI)).
  - exists figures. split; [exact Hm|].
    apply Forall2_length in Hf. symmetry. exact Hf.
Defined.

End plot_squid_current.

(** ** scripts/jj/fraunhofer/inplane.py *)

Module inplane.

Open Scope R_scope.

(** [np.degrees]. *)
Definition degrees (x : R) : R := x * 180 / PI.

(** Sums over the points of a line fit. *)
Definition rsum (l : list R) : R := fold_right Rplus 0 l.

Definition products (x y : list R) : list R := zip_with Rmult x y.

(** The determinant of the normal equations of a degree-1 fit: it vanishes
    exactly when all abscissas coincide. *)
Definition normal_det (x : list R) : R :=
  INR (length x) * rsum (products x x) - rsum x * rsum x.

(** *** Least-squares line through exactly linear data *)

Lemma rsum_products_affine (m b : R) (x : list R) :
  rsum (products x (map (fun u => m * u + b) x)) = m * rsum (products x x) + b * rsum x.
Proof.
  unfold products. induction x as [|a x IH]; simpl; [lra|].
  fold (rsum (zip_with Rmult x (map (fun u => m * u + b) x))).
  fold (rsum (zip_with Rmult x x)). fold (rsum x). rewrite IH. lra.
Qed.

Lemma rsum_affine (m b : R) (x : list R) :
  rsum (map (fun u => m * u + b) x) = m * rsum x + b * INR (length x).
Proof.
  induction x as [|a x IH]; [simpl; lra|].
  cbn [map length rsum fold_right]. fold (rsum (map (fun u => m * u + b) x)).
  fold (rsum x). rewrite IH, S_INR. lra.
Qed.

Lemma rsum_squares_nonneg (a : R) (x : list R) :
  0 <= rsum (map (fun u => (a - u) * (a - u)) x).
Proof.
  induction x as [|c x IH]; simpl; [lra|].
  fold (rsum (map (fun u => (a - u) * (a - u)) x)).
  pose proof (Rle_0_sqr (a - c)) as Hsq. unfold Rsqr in Hsq. lra.
Qed.

Lemma rsum_squares_pos (a c : R) (x : list R) :
  c ∈ x → a ≠ c → 0 < rsum (map (fun u => (a - u) * (a - u)) x).
Proof.
  intros Hc Hne. induction x as [|d x IH]; [by apply elem_of_nil in Hc|].
  simpl. fold (rsum (map (fun u => (a - u) * (a - u)) x)).
  pose proof (rsum_squares_nonneg a x) as Hnn.
  pose proof (Rle_0_sqr (a - d)) as Hsq. unfold Rsqr in Hsq.
  apply elem_of_cons in Hc as [<-|Hc].
  - assert (a - c ≠ 0) as Hac by lra.
    apply Rsqr_pos_lt in Hac. unfold Rsqr in Hac. lra.
  - specialize (IH Hc). lra.
Qed.

Lemma normal_det_cons (a : R) (x : list R) :
  normal_det (a :: x) = normal_det x + rsum (map (fun u => (a - u) * (a - u)) x).
Proof.
  unfold normal_det, products. cbn [length zip_with rsum fold_right].
  fold (rsum (zip_with Rmult x x)). fold (rsum x). rewrite S_INR.
  assert (rsum (map (fun u => (a - u) * (a - u)) x)
          = INR (length x) * (a * a) - 2 * a * rsum x + rsum (zip_with Rmult x x)) as ->.
  { induction x as [|c x IH]; [simpl; lra|].
    cbn [length map zip_with rsum fold_right].
    fold (rsum (map (fun u => (a - u) * (a - u)) x)).
    fold (rsum (zip_with Rmult x x)). fold (rsum x). rewrite IH, S_INR. lra. }
  lra.
Qed.

Lemma normal_det_nonneg (x : list R) : 0 <= normal_det x.
Proof.
  induction x as [|a x IH].
  - unfold normal_det. simpl. lra.
  - rewrite normal_det_cons. pose proof (rsum_squares_nonneg a x). lra.
Qed.

(** The normal equations are regular as soon as two abscissas differ. *)
Lemma normal_det_pos (x : list R) (x1 x2 : R) :
  x1 ∈ x → x2 ∈ x → x1 ≠ x2 → 0 < normal_det x.
Proof.
  induction x as [|a x IH]; intros H1 H2 Hne; [by apply elem_of_nil in H1|].
  rewrite normal_det_cons.
  pose proof (normal_det_nonneg x) as Hdet.
  pose proof (rsum_squares_nonneg a x) as Hsq.
  apply elem_of_cons in H1 as [->|H1], H2 as [->|H2].
  - done.
  - pose proof (rsum_squares_pos a x2 x H2 Hne). lra.
  - pose proof (rsum_squares_pos a x1 x H1 (not_eq_sym Hne)). lra.
  - specialize (IH H1 H2 Hne). lra.
Qed.

(** *** Rounding *)

Lemma rint_close (x : R) : - (1 / 2) <= IZR (rint x) - x <= 1 / 2.
Proof.
  unfold rint. destruct (base_Int_part x) as [Hlo Hhi].
  destruct (Rlt_dec _ _) as [Hd|Hd]; [|destruct (Rlt_dec _ _) as [Hd'|Hd']].
  - lra.
  - rewrite plus_IZR. lra.
  - destruct (Z.even _); [|rewrite plus_IZR]; lra.
Qed.

Lemma rint_IZR (z : Z) : rint (IZR z) = z.
Proof.
  unfold rint.
  assert (Int_part (IZR z) = z) as ->.
  { symmetry. apply Int_part_spec. lra. }
  destruct (Rlt_dec _ _) as [Hd|Hd]; [done|]. exfalso. lra.
Qed.

Lemma round_ndigits_close (x : R) : Rabs (round_ndigits x 2 - x) <= 1 / 200.
Proof.
  unfold round_ndigits. change (IZR (10 ^ Z.of_nat 2)) with 100.
  pose proof (rint_close (x * 100)) as Hclose.
  apply Rabs_le. lra.
Qed.

(** Command-line arguments. *)
Record arguments := { align : bool; debug : bool }.

Section script.

(** Builtins and standard library. *)
Variable float : string → result R.          (* float(str) *)
Variable repr_float : R → string.            (* the text of a float in an f-string *)
Variable path_stem : string → string.        (* Path(p).stem *)

(** numpy arrays of the measurement files and the operations on them. *)
Variable ndarray : Type.
Variable gradient : ndarray → ndarray.                   (* np.gradient(a, axis=-1) *)
Variable np_abs : ndarray → ndarray.
Variable np_unique : ndarray → ndarray.
Variable arr_div : ndarray → ndarray → ndarray.
Variable arr_div_scalar : ndarray → R → ndarray.

(** shabanipy.labber.ShaBlabberFile. *)
Variable labber_file : Type.
Variable ShaBlabberFile : string → result labber_file.
Variable get_data : labber_file → string → string → string → result (ndarray * ndarray * ndarray).
(** [f.get_channel(channel).instrument.config[key]]. *)
Variable instrument_config : labber_file → string → string → result R.

(** shabanipy.dvdi.extract_switching_current (side and threshold given) and
    shabanipy.jj.find_fraunhofer_center. *)
Variable extract_switching_current : ndarray → ndarray → string → option R → ndarray.
Variable find_fraunhofer_center : ndarray → ndarray → bool → R.

(** [np.polyfit(x, y, 1)] on a rank-deficient system (all abscissas equal):
    numpy warns and returns a minimum-norm solution, left unspecified. *)
Variable polyfit_rank_deficient : list R → list R → R * R.

Variable args : arguments.
Variable config : config_section.

(** What the script does to the outside: the library calls that read and
    analyse a dataset, and what it draws and writes. *)
Inductive event : Type :=
| GetData (datapath ch_field_perp ch_bias ch_meas : string)
| ExtractSwitchingCurrent (side : string) (threshold : option R)
| Mkdir (path : string)
| Plot2d (x y z : ndarray) (zlabel title stamp : string) (vmin vmax : option R)
| AxPlot (x y : ndarray)
| Axvline (x : R)
| Savefig (path : string)
| Plot (x y : list R)
| AxPlotLabelled (x y : list R) (label : string)
| Legend
| Show.

(** Lines 61-76: dV/dI, the bias array and the colour-bar label, by the
    name of the measurement channel. *)
Definition compute_dvdi (f : labber_file) (ch_meas : string) (ibias meas : ndarray)
    : result (ndarray * ndarray * string) :=
  if endswith ch_meas "VI curve" || endswith ch_meas "SingleValue" then
    (* DC volts from DMM *)
    gain ← config_getfloat float config "DC_AMP_GAIN" None ≫= number;
    Ok (arr_div_scalar (arr_div (gradient meas) (gradient ibias)) gain,
        ibias, "ΔV/ΔΙ (Ω)")
  else
    (* differential Ω from lock-in *)
    let dvdi := np_abs meas in
    let dvdi_label := "|dV/dI| (Ω)" in
    if endswith ch_meas "Value" then
      (* lock-in directly (not VICurveTracer) *)
      amplitude ← instrument_config f ch_meas "Output amplitude";
      r_ac_out ← config_getfloat float config "R_AC_OUT" None ≫= number;
      let ibias_ac := amplitude / r_ac_out in
      r_dc_out ← config_getfloat float config "R_DC_OUT" None ≫= number;
      Ok (arr_div_scalar dvdi ibias_ac, arr_div_scalar ibias r_dc_out, dvdi_label)
    else
      Ok (dvdi, ibias, dvdi_label).

(** Line 96. *)
Definition dataset_threshold (i : nat) : result (option R) :=
  fallback ← config_getfloat float config "THRESHOLD" None;
  config_getfloat float config ("THRESHOLD" ++ pretty i) fallback.

(** Lines 42 and 43. *)
Definition dataset_channel (base : string) (i : nat) : result string :=
  fallback ← config_getitem config base;
  Ok (config_get config (base ++ pretty i) fallback).

(** The variables the loop of lines 41-105 updates.  [outpath] is not bound
    before the first pass. *)
Record loop_state := {
  i : nat;
  b_inplane : list R;
  fraun_center : list R;
  outpath : option string
}.

(** Lines 42-105: one pass of the loop. *)
Definition body (st : loop_state) : script event loop_state :=
  let i := st.(i) in
  ch_bias ← lift (dataset_channel "CH_BIAS" i);
  ch_meas ← lift (dataset_channel "CH_MEAS" i);
  datapath ← lift (config_getitem config ("DATAPATH" ++ pretty i));
  f ← lift (ShaBlabberFile datapath);
  ch_field_perp ← lift (config_getitem config "CH_FIELD_PERP");
  emit (GetData datapath ch_field_perp ch_bias ch_meas);;
  '(b_perp, ibias, meas) ← lift (get_data f ch_field_perp ch_bias ch_meas);
  ch_field_inplane ← lift (config_getitem config "CH_FIELD_INPLANE");
  inplane ← lift (instrument_config f ch_field_inplane (split_last " - " ch_field_inplane));
  let b_inplane := (st.(b_inplane) ++ [inplane])%list in
  '(dvdi, ibias, dvdi_label) ← lift (compute_dvdi f ch_meas ibias meas);
  emit (Mkdir "output");;
  let outpath := "output/" ++ path_stem datapath ++ "_inplane=" ++ repr_float inplane in
  fridge ← lift (config_getitem config "FRIDGE");
  vmin ← lift (config_getfloat float config "VMIN" None);
  vmax ← lift (config_getfloat float config "VMAX" None);
  emit (Plot2d (arr_div_scalar b_perp 1e-3) (arr_div_scalar ibias 1e-6) dvdi
          dvdi_label
          ("in-plane field = " ++ pretty (rint (inplane / 1e-3)) ++ " mT")
          (fridge ++ "/" ++ datapath)
          vmin vmax);;
  let b_perp := np_unique b_perp in
  threshold ← lift (dataset_threshold i);
  emit (ExtractSwitchingCurrent "positive" threshold);;
  let ic_p := extract_switching_current ibias dvdi "positive" threshold in
  emit (AxPlot (arr_div_scalar b_perp 1e-3) (arr_div_scalar ic_p 1e-6));;
  let center := find_fraunhofer_center b_perp ic_p args.(debug) in
  let fraun_center := (st.(fraun_center) ++ [center])%list in
  emit (Axvline (center / 1e-3));;
  emit (Savefig (outpath ++ "_fraun-center.png"));;
  mret {| i := S i; b_inplane := b_inplane; fraun_center := fraun_center;
          outpath := Some outpath |}.

(** Lines 41-105: [while config.get(f"DATAPATH{i}"): ...].  The fuel bounds
    the number of passes; [None] is the answer of a loop that used it up. *)
Fixpoint loop (fuel : nat) (st : loop_state) : script event (option loop_state) :=
  match fuel with
  | O => mret None
  | S fuel' =>
      if truthy (config !! ("DATAPATH" ++ pretty st.(i))) then
        st' ← body st; loop fuel' st'
      else mret (Some st)
  end.

(** [np.polyfit(x, y, 1)]: slope and intercept of the least-squares line,
    by the normal equations. *)
Definition polyfit (x y : list R) : result (R * R) :=
  if decide (length x = 0)%nat then
    Raise (TypeError "expected non-empty vector for x")
  else if decide (length x = length y) then
    if Req_dec_T (normal_det x) 0 then Ok (polyfit_rank_deficient x y)
    else
      let n := INR (length x) in
      let m := (n * rsum (products x y) - rsum x * rsum y) / normal_det x in
      let b := (rsum y - m * rsum x) / n in
      Ok (m, b)
  else Raise (TypeError "expected x and y to have same length").

(** [np.arcsin] on a float: nan outside [-1, 1]; [None] stands for nan. *)
Definition arcsin (m : R) : option R :=
  if Rle_dec (Rabs m) 1 then Some (asin m) else None.

(** The number in the legend of the alignment plot, line 122; nan stays
    nan through [np.degrees], the division and [round]. *)
Definition misalignment_label_value (m : R) : option R :=
  (fun angle => round_ndigits (degrees angle / 1e-3) 2) <$> arcsin m.

(** Its text in the f-string. *)
Definition misalignment_label_text (m : R) : string :=
  match misalignment_label_value m with
  | Some v => repr_float v
  | None => "nan"
  end.

(** Lines 110-125. *)
Definition field_alignment (st : loop_state) : script event () :=
  '(m, b) ← lift (polyfit st.(b_inplane) st.(fraun_center));
  emit (Plot (map (fun x => x / 1e-3) st.(b_inplane))
             (map (fun c => c / 1e-6) st.(fraun_center)));;
  emit (AxPlotLabelled
          (map (fun x => x / 1e-3) st.(b_inplane))
          (map (fun x => (m * x + b) / 1e-6) st.(b_inplane))
          ("arcsin$(B_\perp/B_\parallel)$ = " ++ misalignment_label_text m
             ++ " mdeg"));;
  emit Legend;;
  outpath ← lift (match st.(outpath) with
                  | Some p => Ok p
                  | None => Raise (NameError "outpath")
                  end);
  emit (Savefig (outpath ++ "_field-alignment.png")).

(** The calls of the trace that read a dataset, and the thresholds handed
    to the extractor. *)
Definition get_data_calls (tr : list event) : list (string * string * string * string) :=
  omap (fun e => match e with
                 | GetData p f b m => Some (p, f, b, m)
                 | _ => None
                 end) tr.

Definition thresholds (tr : list event) : list (option R) :=
  omap (fun e => match e with
                 | ExtractSwitchingCurrent _ t => Some t
                 | _ => None
                 end) tr.

Definition initial : loop_state :=
  {| i := 1; b_inplane := []; fraun_center := []; outpath := None |}.

(** The script from line 38 on.  A section has finitely many options, so
    one pass more than it has options is fuel enough. *)
Definition main : script event () :=
  final ← loop (S (size config)) initial;
  match final with
  | None => mret ()
  | Some st =>
      (if args.(align) then field_alignment st else mret ());;
      emit Show
  end.

(** *** One pass of the loop *)

Definition datapath_key (j : nat) : string := "DATAPATH" ++ pretty j.

(** Dataset [j] is read with channel [ch] for the role [base]: the base
    option is defined, and [ch] is the value of the suffixed option when
    that is defined and of the base option otherwise. *)
Definition uses_channel (base : string) (j : nat) (ch : string) : Prop :=
  ∃ fallback, config !! base = Some fallback ∧
    ch = match config !! (base ++ pretty j) with
         | Some v => v
         | None => fallback
         end.

(** Dataset [j] is extracted with threshold [t]: the base option, when
    defined, is a number, and [t] is the number of the suffixed option when
    that is defined and of the base option (or [None]) otherwise. *)
Definition uses_threshold (j : nat) (t : option R) : Prop :=
  ∃ fallback, config_getfloat float config "THRESHOLD" None = Ok fallback ∧
    match config !! ("THRESHOLD" ++ pretty j) with
    | Some v => ∃ x, float v = Ok x ∧ t = Some x
    | None => t = fallback
    end.

(** What holds of the loop variables between passes. *)
Definition between_passes (st : loop_state) : Prop :=
  (1 ≤ st.(i))%nat ∧
  length st.(b_inplane) = pred st.(i) ∧
  length st.(fraun_center) = pred st.(i) ∧
  (1 < st.(i) →
   ∃ datapath inplane,
     config !! datapath_key (pred st.(i)) = Some datapath ∧
     last st.(b_inplane) = Some inplane ∧
     st.(outpath) = Some ("output/" ++ path_stem datapath ++ "_inplane="
                            ++ repr_float inplane))%nat.

Lemma body_pass (st st' : loop_state) (tr tr' : list event) :
  body st tr = (tr', Ok st') →
  ∃ datapath ch_field_perp ch_bias ch_meas threshold inplane center evs,
    config !! datapath_key st.(i) = Some datapath ∧
    dataset_channel "CH_BIAS" st.(i) = Ok ch_bias ∧
    dataset_channel "CH_MEAS" st.(i) = Ok ch_meas ∧
    config !! "CH_FIELD_PERP" = Some ch_field_perp ∧
    dataset_threshold st.(i) = Ok threshold ∧
    st' = {| i := S st.(i);
             b_inplane := st.(b_inplane) ++ [inplane];
             fraun_center := st.(fraun_center) ++ [center];
             outpath := Some ("output/" ++ path_stem datapath ++ "_inplane="
                                ++ repr_float inplane) |} ∧
    tr' = (tr ++ evs)%list ∧
    get_data_calls evs = [(datapath, ch_field_perp, ch_bias, ch_meas)] ∧
    thresholds evs = [threshold].
Proof.
  unfold body. intros Hbody.
  rewrite bind_lift in Hbody.
  destruct (dataset_channel "CH_BIAS" _) as [ch_bias|] eqn:Hbias; [|done].
  rewrite bind_lift in Hbody.
  destruct (dataset_channel "CH_MEAS" _) as [ch_meas|] eqn:Hmeas; [|done].
  rewrite bind_lift in Hbody. unfold config_getitem at 1 in Hbody.
  fold (datapath_key st.(i)) in Hbody.
  destruct (config !! datapath_key _) as [datapath|] eqn:Hpath; [|done].
  rewrite bind_lift in Hbody.
  destruct (ShaBlabberFile datapath) as [f|]; [|done].
  rewrite bind_lift in Hbody. unfold config_getitem at 1 in Hbody.
  destruct (config !! "CH_FIELD_PERP") as [ch_field_perp|] eqn:Hperp; [|done].
  rewrite bind_emit, bind_lift in Hbody.
  destruct (get_data f _ _ _) as [[[b_perp ibias] meas]|]; [|done].
  rewrite bind_lift in Hbody.
  destruct (config_getitem config "CH_FIELD_INPLANE") as [ch_inplane|]; [|done].
  rewrite bind_lift in Hbody.
  destruct (instrument_config f _ _) as [inplane|]; [|done].
  rewrite bind_lift in Hbody.
  destruct (compute_dvdi f _ _ _) as [[[dvdi ibias'] dvdi_label]|]; [|done].
  rewrite bind_emit, bind_lift in Hbody.
  destruct (config_getitem config "FRIDGE") as [fridge|]; [|done].
  rewrite bind_lift in Hbody.
  destruct (config_getfloat float config "VMIN" None) as [vmin|]; [|done].
  rewrite bind_lift in Hbody.
  destruct (config_getfloat float config "VMAX" None) as [vmax|]; [|done].
  rewrite bind_emit, bind_lift in Hbody.
  destruct (dataset_threshold _) as [threshold|] eqn:Hthr; [|done].
  rewrite !bind_emit in Hbody.
  injection Hbody as <- <-.
  eexists datapath, ch_field_perp, ch_bias, ch_meas, threshold, inplane, _, _.
  repeat split; try done.
  - rewrite <- !(assoc_L app). reflexivity.
  - reflexivity.
  - reflexivity.
Qed.

Lemma dataset_channel_uses (base : string) (j : nat) (ch : string) :
  dataset_channel base j = Ok ch → uses_channel base j ch.
Proof.
  unfold dataset_channel, config_getitem, config_get, uses_channel.
  destruct (config !! base) as [fallback|]; [|done].
  intros [= <-]. exists fallback. split; [done|].
  by destruct (config !! (base ++ pretty j)).
Qed.

Lemma dataset_threshold_uses (j : nat) (t : option R) :
  dataset_threshold j = Ok t → uses_threshold j t.
Proof.
  unfold dataset_threshold, uses_threshold.
  destruct (config_getfloat float config "THRESHOLD" None) as [fallback|]; [|done].
  simpl. intros Ht. exists fallback. split; [done|].
  unfold config_getfloat in Ht.
  destruct (config !! ("THRESHOLD" ++ pretty j)) as [v|].
  - destruct (float v) as [x|]; [|done]. injection Ht as <-. by exists x.
  - by injection Ht as <-.
Qed.

(** *** The loop *)

Lemma datapath_key_inj : Inj (=) (=) datapath_key.
Proof.
  intros j k Hjk. unfold datapath_key in Hjk.
  by apply String.app_inj, pretty_nat_inj in Hjk.
Qed.

(** A section cannot define [DATAPATH{j}] for more indices than it has
    options. *)
Lemma datapath_absent_within :
  ∃ j, (1 ≤ j ≤ S (size config))%nat ∧ config !! datapath_key j = None.
Proof.
  destruct (Forall_Exists_dec (fun j => is_Some (config !! datapath_key j))
              (fun j => config !! datapath_key j = None)
              (fun j => match config !! datapath_key j as o
                              return {is_Some o} + {o = None} with
                        | Some v => left (ex_intro _ v eq_refl)
                        | None => right eq_refl
                        end)
              (seq 1 (S (size config)))) as [Hall|Hex].
  - exfalso.
    assert (list_to_set (datapath_key <$> seq 1 (S (size config))) ⊆ dom config) as Hsub.
    { intros k Hk. apply elem_of_list_to_set, list_elem_of_fmap in Hk as (j & -> & Hj).
      apply elem_of_dom. by apply (proj1 (Forall_forall _ _) Hall). }
    apply subseteq_size in Hsub.
    rewrite size_list_to_set, length_fmap, length_seq, size_dom in Hsub.
    + lia.
    + apply NoDup_fmap_2; [apply datapath_key_inj | apply NoDup_seq].
  - apply Exists_exists in Hex as (j & Hj & Hnone).
    apply elem_of_seq in Hj. exists j. split; [lia|done].
Qed.

Lemma loop_step (fuel : nat) (st : loop_state) (tr tr' : list event) (r : option loop_state) :
  loop (S fuel) st tr = (tr', Ok r) →
  (truthy (config !! datapath_key st.(i)) = false ∧ tr' = tr ∧ r = Some st) ∨
  (truthy (config !! datapath_key st.(i)) = true ∧
   ∃ tr1 st1, body st tr = (tr1, Ok st1) ∧ loop fuel st1 tr1 = (tr', Ok r)).
Proof.
  simpl. fold (datapath_key st.(i)).
  destruct (truthy _).
  - intros Hloop. right. split; [done|].
    unfold mbind, script_bind in Hloop.
    destruct (body st tr) as [tr1 [st1|e]]; [|done]. by exists tr1, st1.
  - intros [= <- <-]. by left.
Qed.

(** A loop that uses up its fuel has found every index it tried defined. *)
Lemma loop_out_of_fuel (fuel : nat) (st : loop_state) (tr tr' : list event) :
  loop fuel st tr = (tr', Ok None) →
  ∀ j, (st.(i) ≤ j < st.(i) + fuel)%nat → truthy (config !! datapath_key j) = true.
Proof.
  revert st tr. induction fuel as [|fuel IH]; intros st tr Hloop j Hj; [lia|].
  apply loop_step in Hloop as [(_ & _ & ?)|(Htrue & tr1 & st1 & Hbody & Hrest)]; [done|].
  apply body_pass in Hbody as (? & ? & ? & ? & ? & ? & ? & ? & _ & _ & _ & _ & _ & -> & _).
  destruct (decide (j = st.(i))) as [->|Hne]; [done|].
  apply (IH _ _ Hrest). simpl. lia.
Qed.

Lemma loop_enough_fuel (tr tr' : list event) :
  loop (S (size config)) initial tr ≠ (tr', Ok None).
Proof.
  intros Hloop.
  destruct datapath_absent_within as (j & Hj & Hnone).
  pose proof (loop_out_of_fuel _ _ _ _ Hloop j) as Htrue. simpl in Htrue.
  rewrite Hnone in Htrue. by specialize (Htrue ltac:(lia)).
Qed.

(** The passes of a loop that ends: one for each index from the first to
    the one before the index it stops at, in order. *)
Lemma loop_passes (fuel : nat) (st st' : loop_state) (tr tr' : list event) :
  loop fuel st tr = (tr', Ok (Some st')) →
  (st.(i) ≤ st'.(i))%nat ∧
  (∀ j, (st.(i) ≤ j < st'.(i))%nat → truthy (config !! datapath_key j) = true) ∧
  truthy (config !! datapath_key st'.(i)) = false ∧
  ∃ evs, tr' = (tr ++ evs)%list ∧
    Forall2 (fun j '(datapath, perp, ch_bias, ch_meas) =>
               config !! datapath_key j = Some datapath ∧
               config !! "CH_FIELD_PERP" = Some perp ∧
               uses_channel "CH_BIAS" j ch_bias ∧
               uses_channel "CH_MEAS" j ch_meas)
            (seq st.(i) (st'.(i) - st.(i))) (get_data_calls evs) ∧
    Forall2 uses_threshold (seq st.(i) (st'.(i) - st.(i))) (thresholds evs).
Proof.
  revert st tr. induction fuel as [|fuel IH]; intros st tr Hloop; [done|].
  apply loop_step in Hloop as [(Hfalse & -> & [= ->])|(Htrue & tr1 & st1 & Hbody & Hrest)].
  - split; [done|]. split; [intros; lia|]. split; [done|].
    exists []. rewrite (right_id_L [] app), Nat.sub_diag. by repeat split; constructor.
  - apply body_pass in Hbody
      as (datapath & perp & ch_bias & ch_meas & thr & inplane & center & evs1
          & Hpath & Hbias & Hmeas & Hperp & Hthr & -> & -> & Hcalls & Hthrs).
    apply IH in Hrest as (Hle & Hall & Hstop & evs & -> & Hc & Ht). simpl in *.
    split; [lia|]. split; [|split; [done|]].
    { intros j Hj. destruct (decide (j = st.(i))) as [->|Hne]; [done|]. apply Hall. lia. }
    exists (evs1 ++ evs)%list. split; [by rewrite (assoc_L app)|].
    replace (st'.(i) - st.(i))%nat with (S (st'.(i) - S st.(i))) by lia.
    unfold get_data_calls, thresholds in *. rewrite !omap_app, Hcalls, Hthrs. simpl.
    split; constructor; try done.
    + repeat split; try done; by apply dataset_channel_uses.
    + by apply dataset_threshold_uses.
Qed.

Lemma body_between_passes (st st' : loop_state) (tr tr' : list event) :
  between_passes st → body st tr = (tr', Ok st') → between_passes st'.
Proof.
  intros (Hi & Hb & Hc & _) Hbody.
  apply body_pass in Hbody
    as (datapath & _ & _ & _ & _ & inplane & center & _ & Hpath & _ & _ & _ & _ & -> & _).
  unfold between_passes. simpl. rewrite !length_app, Hb, Hc. simpl.
  split; [|split; [|split]]; try lia.
  intros _. exists datapath, inplane. by rewrite last_snoc.
Qed.

Lemma loop_between_passes (fuel : nat) (st st' : loop_state) (tr tr' : list event) :
  between_passes st → loop fuel st tr = (tr', Ok (Some st')) → between_passes st'.
Proof.
  revert st tr. induction fuel as [|fuel IH]; intros st tr Hst Hloop; [done|].
  apply loop_step in Hloop as [(_ & _ & [= ->])|(_ & tr1 & st1 & Hbody & Hrest)]; [done|].
  eapply IH; [|done]. by eapply body_between_passes.
Qed.

Lemma initial_between_passes : between_passes initial.
Proof. repeat split; simpl; lia. Qed.

(** *** The fit of the alignment branch *)

Lemma polyfit_defined (x y : list R) :
  length x = length y → x ≠ [] → ∃ m b, polyfit x y = Ok (m, b).
Proof.
  intros Hlen Hx. unfold polyfit.
  destruct (decide (length x = 0%nat)) as [H0|_].
  { by destruct x. }
  destruct (decide (length x = length y)) as [_|]; [|done].
  destruct (Req_dec_T (normal_det x) 0).
  - destruct (polyfit_rank_deficient x y) as [m b]. by exists m, b.
  - by eexists _, _.
Qed.

Lemma polyfit_exact_line (x : list R) (m b : R) :
  (∃ x1 x2, x1 ∈ x ∧ x2 ∈ x ∧ x1 ≠ x2) →
  polyfit x (map (fun u => m * u + b) x) = Ok (m, b).
Proof.
  intros (x1 & x2 & H1 & H2 & Hne).
  pose proof (normal_det_pos x x1 x2 H1 H2 Hne) as Hdet.
  unfold polyfit.
  destruct (decide (length x = 0%nat)) as [H0|Hn0].
  { destruct x; [by apply elem_of_nil in H1|done]. }
  destruct (decide (length x = length _)) as [_|Hlen]; [|by rewrite length_map in Hlen].
  destruct (Req_dec_T (normal_det x) 0) as [Hz|_]; [lra|].
  assert (0 < INR (length x)) as Hn by (apply lt_0_INR; lia).
  rewrite rsum_products_affine, rsum_affine.
  assert ((INR (length x) * (m * rsum (products x x) + b * rsum x)
           - rsum x * (m * rsum x + b * INR (length x))) / normal_det x = m) as ->.
  { unfold normal_det in *. field. lra. }
  f_equal. f_equal. field. lra.
Qed.

Lemma polyfit_empty (y : list R) :
  polyfit [] y = Raise (TypeError "expected non-empty vector for x").
Proof. reflexivity. Qed.

Lemma field_alignment_run (st : loop_state) (m b : R) (prefix : string) (tr : list event) :
  polyfit st.(b_inplane) st.(fraun_center) = Ok (m, b) →
  st.(outpath) = Some prefix →
  field_alignment st tr =
    ((tr ++
      [Plot (map (fun x => x / 1e-3) st.(b_inplane))
            (map (fun c => c / 1e-6) st.(fraun_center));
       AxPlotLabelled
         (map (fun x => x / 1e-3) st.(b_inplane))
         (map (fun x => (m * x + b) / 1e-6) st.(b_inplane))
         ("arcsin$(B_\perp/B_\parallel)$ = "
            ++ misalignment_label_text m ++ " mdeg");
       Legend;
       Savefig (prefix ++ "_field-alignment.png")])%list, Ok ()).
Proof.
  intros Hfit Hout. unfold field_alignment. rewrite Hfit, Hout.
  cbv [mbind script_bind lift emit]. by rewrite <- !(assoc_L app).
Qed.

Lemma loop_stop (fuel : nat) (st : loop_state) (tr : list event) :
  truthy (config !! datapath_key st.(i)) = false →
  loop (S fuel) st tr = (tr, Ok (Some st)).
Proof. intros Hstop. simpl. fold (datapath_key st.(i)). by rewrite Hstop. Qed.

(** *** The claims about the script *)

(** C4.  The dV/dI computation branches on the name of the measurement
    channel.  A name ending in "VI curve" or "SingleValue" gives
    gradient(meas) / gradient(ibias) / DC_AMP_GAIN.  Any other name gives
    |meas|; if it ends in "Value", that is divided by the lock-in's
    "Output amplitude" over R_AC_OUT, and the bias array by R_DC_OUT. *)
Theorem dvdi_by_channel_name
    (f : labber_file) (ch_meas : string) (ibias meas : ndarray) :
  (endswith ch_meas "VI curve" = true ∨ endswith ch_meas "SingleValue" = true →
   ∀ gain,
     config_getfloat float config "DC_AMP_GAIN" None = Ok (Some gain) →
     compute_dvdi f ch_meas ibias meas =
       Ok (arr_div_scalar (arr_div (gradient meas) (gradient ibias)) gain,
           ibias, "ΔV/ΔΙ (Ω)")) ∧
  (endswith ch_meas "VI curve" = false → endswith ch_meas "SingleValue" = false →
   (endswith ch_meas "Value" = false →
    compute_dvdi f ch_meas ibias meas = Ok (np_abs meas, ibias, "|dV/dI| (Ω)")) ∧
   (endswith ch_meas "Value" = true →
    ∀ amplitude r_ac_out r_dc_out,
      instrument_config f ch_meas "Output amplitude" = Ok amplitude →
      config_getfloat float config "R_AC_OUT" None = Ok (Some r_ac_out) →
      config_getfloat float config "R_DC_OUT" None = Ok (Some r_dc_out) →
      compute_dvdi f ch_meas ibias meas =
        Ok (arr_div_scalar (np_abs meas) (amplitude / r_ac_out),
            arr_div_scalar ibias r_dc_out, "|dV/dI| (Ω)"))).
Proof.
  unfold compute_dvdi. split.
  - intros Hdc gain Hgain.
    assert (endswith ch_meas "VI curve" || endswith ch_meas "SingleValue" = true) as ->.
    { apply orb_true_iff. destruct Hdc; [by left | by right]. }
    by rewrite Hgain.
  - intros -> ->. simpl. split.
    + by intros ->.
    + intros -> amplitude r_ac_out r_dc_out -> Hac Hdc. by rewrite Hac, Hdc.
Qed.

(** C3 (as the code has it).  The loop ends within the fuel given.  When it
    ends without an exception it has stopped at the first index whose
    DATAPATH option is absent or empty, whatever later options the section
    holds, and has read the datasets 1, 2, ... before that index, in order.
    Dataset [j] is read with the channels of CH_BIAS{j} and CH_MEAS{j} when
    these are defined and of CH_BIAS and CH_MEAS otherwise (the base
    options being defined in both cases), and extracted with the threshold
    of THRESHOLD{j} when defined and of THRESHOLD otherwise. *)
Theorem dataset_enumeration :
  (∀ tr tr', loop (S (size config)) initial tr ≠ (tr', Ok None)) ∧
  (∀ tr st,
     loop (S (size config)) initial [] = (tr, Ok (Some st)) →
     (∀ j, (1 ≤ j < st.(i))%nat → truthy (config !! datapath_key j) = true) ∧
     truthy (config !! datapath_key st.(i)) = false ∧
     Forall2 (fun j '(datapath, perp, ch_bias, ch_meas) =>
                config !! datapath_key j = Some datapath ∧
                config !! "CH_FIELD_PERP" = Some perp ∧
                uses_channel "CH_BIAS" j ch_bias ∧
                uses_channel "CH_MEAS" j ch_meas)
             (seq 1 (st.(i) - 1)) (get_data_calls tr) ∧
     Forall2 uses_threshold (seq 1 (st.(i) - 1)) (thresholds tr)).
Proof.
  split; [apply loop_enough_fuel|].
  intros tr st Hloop.
  apply loop_passes in Hloop as (_ & Hall & Hstop & evs & -> & Hcalls & Hthrs).
  by simpl in *.
Qed.

(** C10.  With --align and a loop that ended without an exception after at
    least one pass, the script saves the alignment figure under the output
    prefix of the last dataset read (built from the stem of its DATAPATH
    and its in-plane field) followed by "_field-alignment.png", and ends
    normally.  With --align and no DATAPATH1, it stops with an exception
    and has written nothing. *)
Theorem field_alignment_artifact :
  args.(align) = true →
  (∀ tr st,
     loop (S (size config)) initial [] = (tr, Ok (Some st)) → (1 < st.(i))%nat →
     ∃ datapath inplane evs,
       config !! datapath_key (pred st.(i)) = Some datapath ∧
       last st.(b_inplane) = Some inplane ∧
       (∀ p, Savefig p ∉ evs) ∧
       main [] =
         ((tr ++ evs ++
           [Savefig (("output/" ++ path_stem datapath ++ "_inplane=" ++ repr_float inplane)
                       ++ "_field-alignment.png");
            Show])%list, Ok ())) ∧
  (config !! "DATAPATH1" = None → ∃ e, main [] = ([], Raise e)).
Proof.
  intros Halign. split.
  - intros tr st Hloop Hi.
    pose proof (loop_between_passes _ _ _ _ _ initial_between_passes Hloop)
      as (_ & Hb & Hc & Hout).
    destruct (Hout Hi) as (datapath & inplane & Hpath & Hlast & Houtpath).
    destruct (polyfit_defined st.(b_inplane) st.(fraun_center)) as (m & b & Hfit).
    { congruence. }
    { intros Hnil. by rewrite Hnil in Hlast. }
    exists datapath, inplane.
    exists [Plot (map (fun x => x / 1e-3) st.(b_inplane))
                 (map (fun c => c / 1e-6) st.(fraun_center));
            AxPlotLabelled
              (map (fun x => x / 1e-3) st.(b_inplane))
              (map (fun x => (m * x + b) / 1e-6) st.(b_inplane))
              ("arcsin$(B_\perp/B_\parallel)$ = "
                 ++ misalignment_label_text m ++ " mdeg");
            Legend].
    split; [done|]. split; [done|]. split.
    + intros p Hp. repeat (apply elem_of_cons in Hp as [Hp|Hp]; [discriminate Hp|]).
      by apply elem_of_nil in Hp.
    + unfold main. unfold mbind at 1, script_bind at 1. rewrite Hloop, Halign.
      unfold mbind at 1, script_bind at 1.
      rewrite (field_alignment_run _ _ _ _ _ Hfit Houtpath).
      cbv [emit]. by rewrite <- !(assoc_L app).
  - intros Hnone. unfold main. unfold mbind at 1, script_bind at 1.
    rewrite loop_stop;
      [|change (datapath_key initial.(i)) with "DATAPATH1"; by rewrite Hnone].
    rewrite Halign. unfold field_alignment. simpl b_inplane. rewrite polyfit_empty.
    by eexists.
Qed.

Lemma arcsin_defined (m : R) : -1 <= m <= 1 → arcsin m = Some (asin m).
Proof.
  intros Hm. unfold arcsin. destruct (Rle_dec (Rabs m) 1) as [_|Hgt]; [done|].
  destruct Hgt. apply Rabs_le. lra.
Qed.

Lemma arcsin_nan (m : R) : 1 < Rabs m → arcsin m = None.
Proof.
  intros Hm. unfold arcsin. destruct (Rle_dec (Rabs m) 1) as [Hle|_]; [lra|done].
Qed.


(** *** Further properties of the script *)

Lemma string_length_app (p s : string) :
  String.length (p ++ s) = (String.length p + String.length s)%nat.
Proof. induction p as [|c p IH]; simpl; [done|]. by rewrite IH. Qed.

Lemma string_app_assoc (p q s : string) : (p ++ q) ++ s = p ++ q ++ s.
Proof.
  induction p as [|c p IH]; [done|].
  change (String c ((p ++ q) ++ s) = String c (p ++ q ++ s)). by rewrite IH.
Qed.

Lemma substring_skip (p s : string) (k : nat) :
  substring (String.length p) k (p ++ s) = substring 0 k s.
Proof. induction p as [|c p IH]; simpl; [done|]. exact IH. Qed.

Lemma substring_whole (s : string) : substring 0 (String.length s) s = s.
Proof. induction s as [|c s IH]; simpl; [done|]. by rewrite IH. Qed.

Lemma endswith_app (p suffix : string) : endswith (p ++ suffix) suffix = true.
Proof.
  unfold endswith. rewrite string_length_app.
  replace (String.length p + String.length suffix - String.length suffix)%nat
    with (String.length p) by lia.
  rewrite substring_skip, substring_whole, String.eqb_refl, andb_true_r.
  apply Nat.leb_le. lia.
Qed.

(** X6.  The order of the tests on the channel name matters: a name ending
    in "SingleValue" also ends in "Value", and it is treated as a DC
    voltage (gradient over gradient over DC_AMP_GAIN, bias array
    unchanged), not as a lock-in reading. *)
Theorem single_value_channel_is_dc
    (f : labber_file) (name : string) (ibias meas : ndarray) (gain : R) :
  config_getfloat float config "DC_AMP_GAIN" None = Ok (Some gain) →
  endswith (name ++ "SingleValue") "Value" = true ∧
  compute_dvdi f (name ++ "SingleValue") ibias meas =
    Ok (arr_div_scalar (arr_div (gradient meas) (gradient ibias)) gain,
        ibias, "ΔV/ΔΙ (Ω)").
Proof.
  intros Hgain. split.
  - change "SingleValue" with ("Single" ++ "Value").
    rewrite <- string_app_assoc. apply endswith_app.
  - unfold compute_dvdi. by rewrite endswith_app, orb_true_r, Hgain.
Qed.

(** X7.  A gain that the branch taken divides by and that the section does
    not define stops the computation with a [TypeError] (the division by
    [None]), not with a [KeyError]: DC_AMP_GAIN for a DC channel, R_AC_OUT
    and then R_DC_OUT for a lock-in "Value" channel. *)
Theorem dvdi_undefined_gain_is_type_error
    (f : labber_file) (ch_meas : string) (ibias meas : ndarray) :
  (endswith ch_meas "VI curve" || endswith ch_meas "SingleValue" = true →
   config !! "DC_AMP_GAIN" = None →
   ∃ msg, compute_dvdi f ch_meas ibias meas = Raise (TypeError msg)) ∧
  (endswith ch_meas "VI curve" || endswith ch_meas "SingleValue" = false →
   endswith ch_meas "Value" = true →
   ∀ amplitude,
     instrument_config f ch_meas "Output amplitude" = Ok amplitude →
     (config !! "R_AC_OUT" = None ∨
      (∃ r_ac_out, config_getfloat float config "R_AC_OUT" None = Ok (Some r_ac_out)) ∧
      config !! "R_DC_OUT" = None) →
     ∃ msg, compute_dvdi f ch_meas ibias meas = Raise (TypeError msg)).
Proof.
  unfold compute_dvdi. split.
  - intros -> Hnone. unfold config_getfloat. rewrite Hnone. by eexists.
  - intros -> -> amplitude -> [Hnone|[[r_ac_out Hac] Hnone]].
    + unfold config_getfloat. rewrite Hnone. by eexists.
    + rewrite Hac. unfold config_getfloat. rewrite Hnone. by eexists.
Qed.

(** X8.  The base THRESHOLD option is converted before the option of the
    dataset is looked at: a THRESHOLD that is not a number stops every
    pass with the exception of the conversion, also for a dataset that has
    a valid THRESHOLD{i} of its own. *)
Theorem threshold_fallback_converted_first (v : string) (e : exn) (j : nat) :
  config !! "THRESHOLD" = Some v → float v = Raise e →
  dataset_threshold j = Raise e.
Proof.
  intros Hv He. unfold dataset_threshold, config_getfloat. by rewrite Hv, He.
Qed.

(** X9.  Without --align the script fits nothing: after a loop that ended
    normally it only shows the figures and ends normally, also when no
    dataset was read; an exception of the loop ends the script with the
    trace reached, without showing anything. *)
Theorem main_without_align (tr : list event) (r : result (option loop_state)) :
  args.(align) = false →
  loop (S (size config)) initial [] = (tr, r) →
  main [] = match r with
            | Ok _ => ((tr ++ [Show])%list, Ok ())
            | Raise e => (tr, Raise e)
            end.
Proof.
  intros Halign Hloop. unfold main. unfold mbind at 1, script_bind at 1.
  rewrite Hloop. destruct r as [[st|]|e]; [|by apply loop_enough_fuel in Hloop|done].
  by rewrite Halign.
Qed.

(** The figures saved. *)
Definition saved_figures (tr : list event) : list string :=
  omap (fun e => match e with
                 | Savefig p => Some p
                 | _ => None
                 end) tr.

Lemma body_saves (st st' : loop_state) (tr tr' : list event) :
  body st tr = (tr', Ok st') →
  ∃ datapath inplane center evs,
    config !! datapath_key st.(i) = Some datapath ∧
    st' = {| i := S st.(i);
             b_inplane := st.(b_inplane) ++ [inplane];
             fraun_center := st.(fraun_center) ++ [center];
             outpath := Some ("output/" ++ path_stem datapath ++ "_inplane="
                                ++ repr_float inplane) |} ∧
    tr' = (tr ++ evs)%list ∧
    saved_figures evs =
      [("output/" ++ path_stem datapath ++ "_inplane=" ++ repr_float inplane)
         ++ "_fraun-center.png"].
Proof.
  unfold body. intros Hbody.
  rewrite bind_lift in Hbody.
  destruct (dataset_channel "CH_BIAS" _) as [ch_bias|]; [|done].
  rewrite bind_lift in Hbody.
  destruct (dataset_channel "CH_MEAS" _) as [ch_meas|]; [|done].
  rewrite bind_lift in Hbody. unfold config_getitem at 1 in Hbody.
  fold (datapath_key st.(i)) in Hbody.
  destruct (config !! datapath_key _) as [datapath|] eqn:Hpath; [|done].
  rewrite bind_lift in Hbody.
  destruct (ShaBlabberFile datapath) as [f|]; [|done].
  rewrite bind_lift in Hbody.
  destruct (config_getitem config "CH_FIELD_PERP") as [ch_field_perp|]; [|done].
  rewrite bind_emit, bind_lift in Hbody.
  destruct (get_data f _ _ _) as [[[b_perp ibias] meas]|]; [|done].
  rewrite bind_lift in Hbody.
  destruct (config_getitem config "CH_FIELD_INPLANE") as [ch_inplane|]; [|done].
  rewrite bind_lift in Hbody.
  destruct (instrument_config f _ _) as [inplane|]; [|done].
  rewrite bind_lift in Hbody.
  destruct (compute_dvdi f _ _ _) as [[[dvdi ibias'] dvdi_label]|]; [|done].
  rewrite bind_emit, bind_lift in Hbody.
  destruct (config_getitem config "FRIDGE") as [fridge|]; [|done].
  rewrite bind_lift in Hbody.
  destruct (config_getfloat float config "VMIN" None) as [vmin|]; [|done].
  rewrite bind_lift in Hbody.
  destruct (config_getfloat float config "VMAX" None) as [vmax|]; [|done].
  rewrite bind_emit, bind_lift in Hbody.
  destruct (dataset_threshold _) as [threshold|]; [|done].
  rewrite !bind_emit in Hbody.
  injection Hbody as <- <-.
  eexists datapath, inplane, _, _.
  repeat split; try done.
  - rewrite <- !(assoc_L app). reflexivity.
  - reflexivity.
Qed.

Lemma loop_saves (fuel : nat) (st st' : loop_state) (tr tr' : list event) :
  between_passes st →
  loop fuel st tr = (tr', Ok (Some st')) →
  st.(b_inplane) `prefix_of` st'.(b_inplane) ∧
  ∃ evs, tr' = (tr ++ evs)%list ∧
    Forall2 (fun j p =>
               ∃ datapath inplane,
                 config !! datapath_key j = Some datapath ∧
                 st'.(b_inplane) !! pred j = Some inplane ∧
                 p = ("output/" ++ path_stem datapath ++ "_inplane="
                        ++ repr_float inplane) ++ "_fraun-center.png")
            (seq st.(i) (st'.(i) - st.(i))) (saved_figures evs).
Proof.
  revert st tr. induction fuel as [|fuel IH]; intros st tr Hst Hloop; [done|].
  apply loop_step in Hloop as [(_ & -> & [= ->])|(_ & tr1 & st1 & Hbody & Hrest)].
  - split; [done|]. exists []. rewrite (right_id_L [] app), Nat.sub_diag.
    split; [done|]. constructor.
  - pose proof (body_between_passes _ _ _ _ Hst Hbody) as Hst1.
    pose proof (loop_passes _ _ _ _ _ Hrest) as (Hle & _).
    apply body_saves in Hbody
      as (datapath & inplane & center & evs1 & Hpath & -> & -> & Hsaved).
    destruct (IH _ _ Hst1 Hrest) as (Hpre & evs & -> & Hfigs). simpl in *.
    split; [by eapply prefix_app_l|].
    exists (evs1 ++ evs)%list. split; [by rewrite (assoc_L app)|].
    replace (st'.(i) - st.(i))%nat with (S (st'.(i) - S st.(i))) by lia.
    unfold saved_figures in *. rewrite omap_app, Hsaved. simpl.
    constructor; [|done].
    exists datapath, inplane. split; [done|]. split; [|done].
    destruct Hst as (_ & Hlen & _).
    eapply prefix_lookup_Some; [|exact Hpre].
    by apply list_lookup_middle.
Qed.

(** X10.  A loop that ended normally has saved exactly one figure per
    dataset read, in order, named by the stem of the dataset's DATAPATH and
    its in-plane field followed by "_fraun-center.png"; and the two arrays
    handed to the alignment fit hold one entry per dataset. *)
Theorem one_figure_per_dataset (tr : list event) (st : loop_state) :
  loop (S (size config)) initial [] = (tr, Ok (Some st)) →
  length st.(b_inplane) = (st.(i) - 1)%nat ∧
  length st.(fraun_center) = (st.(i) - 1)%nat ∧
  Forall2 (fun j p =>
             ∃ datapath inplane,
               config !! datapath_key j = Some datapath ∧
               st.(b_inplane) !! pred j = Some inplane ∧
               p = ("output/" ++ path_stem datapath ++ "_inplane="
                      ++ repr_float inplane) ++ "_fraun-center.png")
          (seq 1 (st.(i) - 1)) (saved_figures tr).
Proof.
  intros Hloop.
  pose proof (loop_between_passes _ _ _ _ _ initial_between_passes Hloop)
    as (_ & Hb & Hc & _).
  destruct (loop_saves _ _ _ _ _ initial_between_passes Hloop)
    as (_ & evs & -> & Hfigs).
  split; [lia|]. split; [lia|]. exact Hfigs.
Qed.

End script.

Arguments GetData {ndarray}.
Arguments ExtractSwitchingCurrent {ndarray}.
Arguments Mkdir {ndarray}.
Arguments Plot2d {ndarray}.
Arguments AxPlot {ndarray}.
Arguments Axvline {ndarray}.
Arguments Savefig {ndarray}.
Arguments Plot {ndarray}.
Arguments AxPlotLabelled {ndarray}.
Arguments Legend {ndarray}.
Arguments Show {ndarray}.
Arguments get_data_calls {ndarray}.
Arguments thresholds {ndarray}.
Arguments saved_figures {ndarray}.

(** *** Runs on a stand-in library

    Every array is [()], a measurement file is its path, every number read
    from a file or parsed from the configuration is 1. *)

Definition stub_loop (args : arguments) (config : config_section) :=
  loop (fun _ => Ok 1) (fun _ => "1.0") (fun p => p) ()
    (fun a => a) (fun a => a) (fun a => a) (fun a _ => a) (fun a _ => a)
    string Ok (fun _ _ _ _ => Ok ((), (), ())) (fun _ _ _ => Ok 1)
    (fun _ _ _ _ => ()) (fun _ _ _ => 1) args config.

Definition stub_main (args : arguments) (config : config_section) :=
  main (fun _ => Ok 1) (fun _ => "1.0") (fun p => p) ()
    (fun a => a) (fun a => a) (fun a => a) (fun a _ => a) (fun a _ => a)
    string Ok (fun _ _ _ _ => Ok ((), (), ())) (fun _ _ _ => Ok 1)
    (fun _ _ _ _ => ()) (fun _ _ _ => 1) (fun _ _ => (0, 0)) args config.

Definition stub_compute_dvdi (config : config_section) (ch_meas : string) :=
  compute_dvdi (fun _ => Ok 1) ()
    (fun a => a) (fun a => a) (fun a _ => a) (fun a _ => a)
    string (fun _ _ _ => Ok 1) config "a.hdf5" ch_meas () ().

(** Two datasets, numbered 1 and 3. *)
Definition gapped_config : config_section :=
  list_to_map
    [ ("DATAPATH1", "a.hdf5"); ("DATAPATH3", "c.hdf5");
      ("CH_BIAS", "Source - Current"); ("CH_MEAS", "Lockin - Value");
      ("CH_MEAS1", "DMM - SingleValue");
      ("CH_FIELD_PERP", "Magnet - Field Z"); ("CH_FIELD_INPLANE", "Magnet - Field X");
      ("FRIDGE", "vector9"); ("DC_AMP_GAIN", "100");
      ("R_AC_OUT", "1e6"); ("R_DC_OUT", "1e6"); ("THRESHOLD", "5") ].

(** The same with an empty DATAPATH2. *)
Definition blank_config : config_section := <["DATAPATH2" := ""]> gapped_config.

(** The channel of dataset 1 given, the base option missing. *)
Definition suffixed_only_config : config_section :=
  list_to_map [ ("DATAPATH1", "a.hdf5"); ("CH_BIAS1", "Source - Current") ].

(** The state after the one pass over [gapped_config]. *)
Definition after_one_pass : loop_state :=
  {| i := 2; b_inplane := [1]; fraun_center := [1];
     outpath := Some "output/a.hdf5_inplane=1.0" |}.

Definition stub_args : arguments := {| align := true; debug := false |}.

(** The enumeration theorem on [gapped_config]: one pass, for dataset 1,
    with the channel of CH_MEAS1 and the base options otherwise; DATAPATH3
    is never reached. *)
Lemma dataset_enumeration_witness :
  ∃ tr,
    stub_loop stub_args gapped_config (S (size gapped_config)) initial []
      = (tr, Ok (Some after_one_pass)) ∧
    truthy (gapped_config !! datapath_key 2) = false ∧
    gapped_config !! datapath_key 3 = Some "c.hdf5" ∧
    get_data_calls tr
      = [("a.hdf5", "Magnet - Field Z", "Source - Current", "DMM - SingleValue")] ∧
    Forall2 (uses_threshold (fun _ => Ok 1) gapped_config) (seq 1 1) (thresholds tr).
Proof.
  eassert (stub_loop stub_args gapped_config (S (size gapped_config)) initial []
           = (_, Ok (Some after_one_pass))) as Hloop.
  { vm_compute. reflexivity. }
  eexists. split; [exact Hloop|].
  destruct (dataset_enumeration (fun _ => Ok 1) (fun _ => "1.0") (fun p => p) ()
              (fun a => a) (fun a => a) (fun a => a) (fun a _ => a) (fun a _ => a)
              string Ok (fun _ _ _ _ => Ok ((), (), ())) (fun _ _ _ => Ok 1)
              (fun _ _ _ _ => ()) (fun _ _ _ => 1) stub_args gapped_config)
    as [_ Hpasses].
  destruct (Hpasses _ _ Hloop) as (_ & Hstop & _ & Hthr).
  split; [exact Hstop|]. split; [reflexivity|]. split; [reflexivity|]. exact Hthr.
Defined.

(** An empty DATAPATH2 ends the enumeration although the option is defined
    (the first absent one is DATAPATH4); and a section that gives CH_BIAS1
    but not CH_BIAS does not get to use CH_BIAS1. *)
Lemma empty_datapath_stops_enumeration :
  (∃ tr st,
     stub_loop stub_args blank_config (S (size blank_config)) initial []
       = (tr, Ok (Some st)) ∧
     st.(i) = 2%nat ∧
     blank_config !! datapath_key 2 = Some "" ∧
     blank_config !! datapath_key 3 = Some "c.hdf5" ∧
     blank_config !! datapath_key 4 = None) ∧
  suffixed_only_config !! "CH_BIAS1" = Some "Source - Current" ∧
  dataset_channel suffixed_only_config "CH_BIAS" 1 = Raise (KeyError "CH_BIAS").
Proof.
  split; [|split; reflexivity].
  eexists _, _. split; [vm_compute; reflexivity|]. repeat split.
Qed.

(** The branches of the dV/dI computation on three channel names. *)
Lemma dvdi_by_channel_name_witness :
  stub_compute_dvdi gapped_config "DMM - SingleValue" = Ok ((), (), "ΔV/ΔΙ (Ω)") ∧
  stub_compute_dvdi gapped_config "VITracer - dR/dI" = Ok ((), (), "|dV/dI| (Ω)") ∧
  stub_compute_dvdi gapped_config "Lockin - Value" = Ok ((), (), "|dV/dI| (Ω)").
Proof.
  split; [|split].
  - destruct (dvdi_by_channel_name (fun _ => Ok 1) () (fun a => a) (fun a => a)
                (fun a _ => a) (fun a _ => a) string (fun _ _ _ => Ok 1) gapped_config
                "a.hdf5" "DMM - SingleValue" () ()) as [Hdc _].
    apply (Hdc (or_intror eq_refl) 1). reflexivity.
  - destruct (dvdi_by_channel_name (fun _ => Ok 1) () (fun a => a) (fun a => a)
                (fun a _ => a) (fun a _ => a) string (fun _ _ _ => Ok 1) gapped_config
                "a.hdf5" "VITracer - dR/dI" () ()) as [_ Hac].
    destruct (Hac eq_refl eq_refl) as [Hplain _]. apply Hplain. reflexivity.
  - destruct (dvdi_by_channel_name (fun _ => Ok 1) () (fun a => a) (fun a => a)
                (fun a _ => a) (fun a _ => a) string (fun _ _ _ => Ok 1) gapped_config
                "a.hdf5" "Lockin - Value" () ()) as [_ Hac].
    destruct (Hac eq_refl eq_refl) as [_ Hdirect].
    apply (Hdirect eq_refl 1 1 1); reflexivity.
Defined.

(** The alignment artifact of the run on [gapped_config], and the run on an
    empty section. *)
Lemma field_alignment_artifact_witness :
  (∃ tr evs,
     (∀ p, Savefig p ∉ evs) ∧
     stub_main stub_args gapped_config [] =
       ((tr ++ evs ++
         [Savefig ("output/a.hdf5_inplane=1.0" ++ "_field-alignment.png"); Show])%list,
        Ok ())) ∧
  (∃ e, stub_main stub_args ∅ [] = ([], Raise e)).
Proof.
  eassert (stub_loop stub_args gapped_config (S (size gapped_config)) initial []
           = (_, Ok (Some after_one_pass))) as Hloop.
  { vm_compute. reflexivity. }
  split.
  - destruct (field_alignment_artifact (fun _ => Ok 1) (fun _ => "1.0") (fun p => p) ()
                (fun a => a) (fun a => a) (fun a => a) (fun a _ => a) (fun a _ => a)
                string Ok (fun _ _ _ _ => Ok ((), (), ())) (fun _ _ _ => Ok 1)
                (fun _ _ _ _ => ()) (fun _ _ _ => 1) (fun _ _ => (0, 0))
                stub_args gapped_config eq_refl)
      as [Hsaved _].
    destruct (Hsaved _ _ Hloop ltac:(simpl; lia))
      as (datapath & inplane & evs & Hpath & Hlast & Hevs & Hmain).
    injection Hpath as <-. injection Hlast as <-.
    eexists _, evs. split; [exact Hevs | exact Hmain].
  - by apply (field_alignment_artifact (fun _ => Ok 1) (fun _ => "1.0") (fun p => p) ()
                (fun a => a) (fun a => a) (fun a => a) (fun a _ => a) (fun a _ => a)
                string Ok (fun _ _ _ _ => Ok ((), (), ())) (fun _ _ _ => Ok 1)
                (fun _ _ _ _ => ()) (fun _ _ _ => 1) (fun _ _ => (0, 0)) stub_args ∅ eq_refl).
Defined.


(** *** The further properties on the stand-in library *)

Lemma single_value_channel_is_dc_witness :
  endswith ("DMM - " ++ "SingleValue") "Value" = true ∧
  stub_compute_dvdi gapped_config ("DMM - " ++ "SingleValue") = Ok ((), (), "ΔV/ΔΙ (Ω)").
Proof.
  apply (single_value_channel_is_dc (fun _ => Ok 1) () (fun a => a) (fun a => a)
           (fun a _ => a) (fun a _ => a) string (fun _ _ _ => Ok 1) gapped_config
           "a.hdf5" "DMM - " () () 1).
  vm_compute. reflexivity.
Defined.

Lemma dvdi_undefined_gain_is_type_error_witness :
  ∃ msg, stub_compute_dvdi suffixed_only_config "DMM - VI curve" = Raise (TypeError msg).
Proof.
  destruct (dvdi_undefined_gain_is_type_error (fun _ => Ok 1) () (fun a => a) (fun a => a)
              (fun a _ => a) (fun a _ => a) string (fun _ _ _ => Ok 1) suffixed_only_config
              "a.hdf5" "DMM - VI curve" () ()) as [Hdc _].
  apply Hdc; vm_compute; reflexivity.
Defined.

(** A section whose THRESHOLD is the word "auto" and whose THRESHOLD1 is a
    number. *)
Definition word_threshold_config : config_section :=
  list_to_map [ ("THRESHOLD", "auto"); ("THRESHOLD1", "5") ].

Definition digits_only (v : string) : result R :=
  if String.eqb v "5" then Ok 5 else Raise (ValueError "could not convert string to float").

Lemma threshold_fallback_converted_first_witness :
  word_threshold_config !! "THRESHOLD1" = Some "5" ∧
  dataset_threshold digits_only word_threshold_config 1
    = Raise (ValueError "could not convert string to float").
Proof.
  split; [reflexivity|].
  apply (threshold_fallback_converted_first digits_only word_threshold_config "auto").
  - vm_compute. reflexivity.
  - reflexivity.
Defined.

Definition plain_args : arguments := {| align := false; debug := false |}.

Lemma main_without_align_witness :
  ∃ tr, stub_main plain_args gapped_config [] = ((tr ++ [Show])%list, Ok ()).
Proof.
  eassert (stub_loop plain_args gapped_config (S (size gapped_config)) initial []
           = (_, Ok (Some after_one_pass))) as Hloop.
  { vm_compute. reflexivity. }
  eexists.
  exact (main_without_align (fun _ => Ok 1) (fun _ => "1.0") (fun p => p) ()
           (fun a => a) (fun a => a) (fun a => a) (fun a _ => a) (fun a _ => a)
           string Ok (fun _ _ _ _ => Ok ((), (), ())) (fun _ _ _ => Ok 1)
           (fun _ _ _ _ => ()) (fun _ _ _ => 1) (fun _ _ => (0, 0))
           plain_args gapped_config _ _ eq_refl Hloop).
Defined.

Lemma one_figure_per_dataset_witness :
  ∃ tr,
    stub_loop plain_args gapped_config (S (size gapped_config)) initial []
      = (tr, Ok (Some after_one_pass)) ∧
    length (saved_figures tr) = 1%nat.
Proof.
  eassert (stub_loop plain_args gapped_config (S (size gapped_config)) initial []
           = (_, Ok (Some after_one_pass))) as Hloop.
  { vm_compute. reflexivity. }
  eexists. split; [exact Hloop|].
  destruct (one_figure_per_dataset (fun _ => Ok 1) (fun _ => "1.0") (fun p => p) ()
              (fun a => a) (fun a => a) (fun a => a) (fun a _ => a) (fun a _ => a)
              string Ok (fun _ _ _ _ => Ok ((), (), ())) (fun _ _ _ => Ok 1)
              (fun _ _ _ _ => ()) (fun _ _ _ => 1) plain_args gapped_config _ _ Hloop)
    as (_ & _ & Hfigs).
  apply Forall2_length in Hfigs. symmetry. exact Hfigs.
Defined.

End inplane.

(** ** scripts/squid/fit_squid_oscillations.py *)

Module fit_squid_oscillations.

Import plot_squid_current.
Open Scope R_scope.

(** [scipy.constants.eV]. *)
Definition eV : R := 1.602176634e-19.

(** [np.mean] of a 1-D array. *)
Definition mean (a : list R) : R := fold_right Rplus 0 a / INR (length a).

(** [a[idx]] for an array of indices. *)
Definition take_indices (a : list R) (idx : list nat) : result (list R) :=
  mapM (fun k => match a !! k with
                 | Some x => Ok x
                 | None => Raise (IndexError "index out of bounds")
                 end) idx.

(** [seq[0]] and [seq[-1]]. *)
Definition first_item {A} (l : list A) : result A :=
  match head l with
  | Some x => Ok x
  | None => Raise (IndexError "index out of range")
  end.

Definition last_item {A} (l : list A) : result A :=
  match last l with
  | Some x => Ok x
  | None => Raise (IndexError "index out of range")
  end.

(** *** lmfit parameters *)

(** A fit parameter: value (unset after [make_params]), whether it varies,
    bounds ([None] for none), constraint expression. *)
Record parameter := {
  value : option R;
  vary : bool;
  pmin : option R;
  pmax : option R;
  expr : option string
}.

Abbreviation parameters := (gmap string parameter).

Definition unset : parameter :=
  {| value := None; vary := true; pmin := None; pmax := None; expr := None |}.

(** Modelled from the spec: the parameters of [squid_model_func], a module
    next to the script that is not among the sources; section 4.8 names
    them.  [model.make_params()] makes one unset parameter for each. *)
Definition make_params : parameters :=
  list_to_map
    ((fun name => (name, unset)) <$>
     [ "transparency1"; "transparency2"; "switching_current1"; "switching_current2";
       "anom_phase1"; "anom_phase2"; "bfield_offset"; "radians_per_tesla";
       "temperature"; "gap"; "inductance" ]).

(** [params[name].set(...)]: the keywords given are overwritten. *)
Definition param_set (name : string) (f : parameter → parameter) (params : parameters)
    : result parameters :=
  match params !! name with
  | Some p => Ok (<[name := f p]> params)
  | None => Raise (KeyError name)
  end.

Definition with_value (v : R) (p : parameter) : parameter :=
  {| value := Some v; vary := p.(vary); pmin := p.(pmin); pmax := p.(pmax); expr := p.(expr) |}.

Definition with_value_max (v hi : R) (p : parameter) : parameter :=
  {| value := Some v; vary := p.(vary); pmin := p.(pmin); pmax := Some hi; expr := p.(expr) |}.

Definition with_value_fixed (v : R) (p : parameter) : parameter :=
  {| value := Some v; vary := false; pmin := p.(pmin); pmax := p.(pmax); expr := p.(expr) |}.

(** [set(expr=...)]: a parameter with a constraint expression is not
    varied. *)
Definition with_expr (e : string) (p : parameter) : parameter :=
  {| value := p.(value); vary := false; pmin := p.(pmin); pmax := p.(pmax); expr := Some e |}.

(** [popt[name]] used as a number. *)
Definition param_value (params : parameters) (name : string) : result R :=
  match params !! name with
  | Some p => number p.(value)
  | None => Raise (KeyError name)
  end.

(** The values a bounded parameter may take: lmfit keeps a value between
    [min] and [max], ends included. *)
Definition within_bounds (p : parameter) (v : R) : Prop :=
  match p.(pmin) with Some lo => lo <= v | None => True end ∧
  match p.(pmax) with Some hi => v <= hi | None => True end.

(** Modelled from the spec: [finite_transparency_jj_current] of
    shabanipy.squid.cpr, which is not among the sources; section 4.7 gives
    [I = amplitude * sin(phase - anomalous_phase)
         / sqrt(1 - transparency * sin((phase - anomalous_phase) / 2)^2)]. *)
Definition cpr_radicand (phase anomalous_phase transparency : R) : R :=
  1 - transparency * (sin ((phase - anomalous_phase) / 2)) ^ 2.

Definition finite_transparency_jj_current
    (phase anomalous_phase amplitude transparency : R) : R :=
  amplitude * sin (phase - anomalous_phase)
  / R_sqrt.sqrt (cpr_radicand phase anomalous_phase transparency).

(** Command-line arguments. *)
Record arguments := {
  both_branches : bool;
  dry_run : bool;
  plot_guess : bool;
  conf_interval : option (list Z);
  emcee : bool;
  verbose : bool
}.

Section script.

(** Builtins and standard library. *)
Variable float : string → result R.            (* float(str) *)
Variable boolean : string → result bool.       (* configparser's boolean values *)
Variable script_file : string.                 (* __file__ *)
Variable path_join : string → string → string. (* str(Path(a) / b) *)

(** 2-D numpy arrays (bias, lock-in signal, dV/dI) and operations on them. *)
Variable ndarray : Type.
Variable np_abs : ndarray → ndarray.
Variable np_diff : ndarray → ndarray.                    (* np.diff(a, axis=-1) *)
Variable np_mean : ndarray → R.
Variable np_allclose : ndarray → R → bool.
Variable arr_div_scalar : ndarray → R → ndarray.

(** shabanipy.labber. *)
Variable get_data_dir : string.
Variable labber : Type.
Variable LabberData : string → result labber.
Variable get_data : labber → string → result (list R).
Variable get_data_x : labber → string → result (ndarray * ndarray).   (* get_x=True *)
(** Whether [f.warn_not_constant(channel)] warns. *)
Variable not_constant : labber → string → bool.

(** shabanipy.dvdi.extract_switching_current with side="both", interp=True:
    the negative and the positive branch. *)
Variable extract_switching_current : ndarray → ndarray → option R → list R * list R.

(** shabanipy.squid. *)
Variable estimate_boffset : list R → list R → option (list R) → R * list (list nat).
Variable estimate_frequency : list R → list R → R * (list R * list R).

(** [round(1 / cyc_per_T / 1e-6)] in the annotation of the frequency plot,
    line 207: an exception for an estimate of zero or nan. *)
Variable round_period : R → result Z.

(** lmfit: the result of a fit, [Model.fit] (by method) and [Model.eval]
    for the model built with the given [both_branches]. *)
Variable model_result : Type.
Variable result_params : model_result → parameters.
Variable best_fit : model_result → list R.
Variable model_fit :
  bool → string → list R → R → list R → parameters → result model_result.
Variable model_eval : bool → list R → parameters → list R.
Variable fit_report : model_result → string.
Variable ci_report : model_result → string.
Variable to_dataframe : parameters → string.

Variable args : arguments.
Variable config : config_section.

(** What the script prints, draws, computes with the fit engine and
    writes.  Calls that only decorate an axes (titles, limits, text) are
    left out; plots carry the arrays drawn. *)
Inductive event : Type :=
| Print (text : string)
| Warn (text : string)
| Mkdir (path : string)
| Plot2d (x : list R) (y z : ndarray) (title : string)
| Plot (x y : list R) (label : string)
| Axvline (x : R)
| Savefig (path : string)
| EstimateBoffset (bfield ic_p : list R) (ic_n : option (list R))
| EstimateFrequency (bfield ic_p : list R)
| ModelFit (method : string) (data : list R) (weights : R) (bfield : list R)
| ModelEval (bfield : list R)
| ConfInterval (sigmas : option (list Z))
| WriteText (path : string) (text : string)
| SaveModelresult (path : string)
| EmceeReport
| ToCsv (path : string) (columns : list (string * list R))
| Show.

(** Lines 153-162: the sign convention of the fridge. *)
Definition fridge_convention (fridge : string) (bfield ic_p ic_n : list R)
    : script event (list R * list R * list R) :=
  (* in vector10, positive Bx points into the daughterboard *)
  if String.eqb fridge "vector10" then
    mret (map (fun x => x * -1) (rev bfield), rev ic_p, rev ic_n)
  (* in vector9, positive Bx points out of the daughterboard *)
  else if String.eqb fridge "vector9" then
    mret (bfield, ic_p, ic_n)
  else
    emit (Warn ("I don't recognize fridge `" ++ fridge ++ "`"));;
    mret (bfield, ic_p, ic_n).

(** Lines 168-189 but for the two estimates: the parameters that do not
    depend on the estimators. *)
Definition configure_transparencies (params : parameters) : result parameters :=
  params ← param_set "transparency1" (with_value_max 0.5 1) params;
  params ← param_set "transparency2" (with_value_max 0.5 1) params;
  equal ← config_getboolean boolean config "EQUAL_TRANSPARENCIES";
  if default false equal then param_set "transparency2" (with_expr "transparency1") params
  else Ok params.

(** Lines 165-189. *)
Definition initial_guess (bfield ic_p ic_n : list R) (temp_meas : list R)
    : script event (parameters * R * list (list nat) * R * list R * list R) :=
  params ← lift (configure_transparencies make_params);
  hi ← lift (amax ic_p);
  lo ← lift (amin ic_p);
  params ← lift (param_set "switching_current1" (with_value ((hi - lo) / 2)) params);
  params ← lift (param_set "switching_current2" (with_value (mean ic_p)) params);
  let ic_n_opt := if args.(both_branches) then Some ic_n else None in
  emit (EstimateBoffset bfield ic_p ic_n_opt);;
  let '(boffset, peak_idxs) := estimate_boffset bfield ic_p ic_n_opt in
  params ← lift (param_set "bfield_offset" (with_value boffset) params);
  emit (EstimateFrequency bfield ic_p);;
  let '(cyc_per_T, (freqs, abs_fft)) := estimate_frequency bfield ic_p in
  params ← lift (param_set "radians_per_tesla" (with_value (2 * PI * cyc_per_T)) params);
  params ← lift (param_set "anom_phase1" (with_value_fixed 0) params);
  params ← lift (param_set "anom_phase2" (with_value_fixed 0) params);
  params ← lift (param_set "temperature"
                   (with_value_fixed (round_ndigits (mean temp_meas) 3)) params);
  params ← lift (param_set "gap" (with_value_fixed (200e-6 * eV)) params);
  params ← lift (param_set "inductance" (with_value 1e-9) params);
  mret (params, boffset, peak_idxs, cyc_per_T, freqs, abs_fft).

(** Lines 214-222: the negative branch of the offset plot. *)
Definition offset_plot_negative (bfield ic_n : list R) (boffset : R)
    (peak_idxs : list (list nat)) : script event () :=
  emit (Plot (map (fun x => x / 1e-3) bfield) (map (fun x => x / 1e-6) ic_n) "");;
  peaks ← lift (last_item peak_idxs);
  x ← lift (take_indices bfield peaks);
  y ← lift (take_indices ic_n peaks);
  emit (Plot (map (fun x => x / 1e-3) x) (map (fun x => x / 1e-6) y) "");;
  emit (Axvline (boffset / 1e-3)).

(** Lines 226-238: the positive branch of the offset plot. *)
Definition offset_plot_positive (bfield ic_p : list R) (boffset : R)
    (peak_idxs : list (list nat)) : script event () :=
  emit (Plot (map (fun x => x / 1e-3) bfield) (map (fun x => x / 1e-6) ic_p) "");;
  emit (Axvline (boffset / 1e-3));;
  peaks ← lift (first_item peak_idxs);
  x ← lift (take_indices bfield peaks);
  y ← lift (take_indices ic_p peaks);
  emit (Plot (map (fun x => x / 1e-3) x) (map (fun x => x / 1e-6) y) "").

(** What the analysis before the fit hands on. *)
Record analysis := {
  outpath : string;
  stamp : string;
  bfield : list R;
  ic_p : list R;
  ic_n : list R;
  params : parameters;
  uncertainty : R
}.

(** Lines 86-256: configuration, data, extraction, estimates and their
    plots. *)
Definition preliminary : script event analysis :=
  emit (Print "Using config file");;
  (* get the path to the datafile *)
  datapath ← lift (config_getitem config "DATAPATH");
  let INPATH := path_join (config_get config "LABBERDATA_DIR" get_data_dir) datapath in
  (* magnet coil current-per-field conversion factor *)
  fridge ← lift (config_getitem config "FRIDGE");
  perp_axis ← lift (config_getitem config "PERP_AXIS");
  AMPS_PER_T ← lift (constants.lookup fridge perp_axis);
  warn_unless Warn (occurs fridge INPATH)
    ("I can't double check that " ++ datapath ++ " is from " ++ fridge);;
  (* set up output directory and filename prefix *)
  wafer ← lift (config_getitem config "WAFER");
  piece ← lift (config_getitem config "PIECE");
  layout ← lift (config_getitem config "LAYOUT");
  device ← lift (config_getitem config "DEVICE");
  let OUTDIR := replace_char "_" "-" (split_first ".py" script_file) ++ "-results/"
                ++ wafer ++ "-" ++ piece ++ "_" ++ layout ++ "/" ++ device in
  emit (Print ("All output will be saved to `" ++ OUTDIR ++ "`"));;
  emit (Mkdir OUTDIR);;
  cooldown ← lift (config_getitem config "COOLDOWN");
  scan ← lift (config_getitem config "SCAN");
  let OUTPATH := path_join OUTDIR (cooldown ++ "-" ++ scan) in
  (* load the data *)
  f ← lift (LabberData INPATH);
  ch_field_perp ← lift (config_getitem config "CH_FIELD_PERP");
  raw_field ← lift (get_data f ch_field_perp);
  let bfield := map (fun x => x / AMPS_PER_T) raw_field in
  ch_lockin ← lift (config_getitem config "CH_LOCKIN");
  '(ibias, lockin) ← lift (get_data_x f ch_lockin);
  let dvdi := np_abs lockin in
  ch_temp_meas ← lift (config_getitem config "CH_TEMP_MEAS");
  temp_meas ← lift (get_data f ch_temp_meas);
  ch_temp_meas' ← lift (config_getitem config "CH_TEMP_MEAS");
  warn_unless Warn (negb (not_constant f ch_temp_meas')) (ch_temp_meas' ++ " is not constant");;
  (* plot the raw data *)
  let stamp := cooldown ++ "_" ++ scan in
  emit (Plot2d (map (fun x => x / 1e-3) bfield) (arr_div_scalar ibias 1e-6) dvdi "raw data");;
  emit (Savefig (OUTPATH ++ "_raw-data.png"));;
  (* extract the switching currents *)
  threshold ← lift (config_getfloat float config "RESISTANCE_THRESHOLD" None);
  let '(ic_n, ic_p) := extract_switching_current ibias dvdi threshold in
  emit (Plot (map (fun x => x / 1e-3) bfield) (map (fun x => x / 1e-6) ic_p) "");;
  emit (Plot (map (fun x => x / 1e-3) bfield) (map (fun x => x / 1e-6) ic_n) "");;
  emit (Savefig (OUTPATH ++ "_ic-extraction.png"));;
  fridge' ← lift (config_getitem config "FRIDGE");
  '(bfield, ic_p, ic_n) ← fridge_convention fridge' bfield ic_p ic_n;
  '(params, boffset, peak_idxs, cyc_per_T, freqs, abs_fft)
     ← initial_guess bfield ic_p ic_n temp_meas;
  (* plot the radians_per_tesla estimate *)
  emit (Plot (map (fun x => x / 1e3) freqs) abs_fft "");;
  _ ← lift (amax (tail abs_fft));  (* ignore dc component *)
  emit (Axvline (cyc_per_T / 1e3));;
  _ ← lift (round_period cyc_per_T);
  emit (Savefig (OUTPATH ++ "_fft.png"));;
  (* plot the bfield_offset estimate *)
  (if args.(both_branches)
   then offset_plot_negative bfield ic_n boffset peak_idxs
   else mret ());;
  offset_plot_positive bfield ic_p boffset peak_idxs;;
  emit (Savefig (OUTPATH ++ "_bfield-offset.png"));;
  (* scale the residuals to get a somewhat meaningful χ2 value *)
  let ibias_step := np_diff ibias in
  let uncertainty := np_mean ibias_step in
  warn_unless Warn (np_allclose ibias_step uncertainty)
    "Bias current has variable step sizes; the magnitude of the χ2 statistic may not be meaningful.";;
  mret {| outpath := OUTPATH; stamp := stamp; bfield := bfield; ic_p := ic_p;
          ic_n := ic_n; params := params; uncertainty := uncertainty |}.

(** The data handed to the fit, lines 262 and 289. *)
Definition fit_data (a : analysis) : list R :=
  if args.(both_branches) then (a.(ic_p) ++ a.(ic_n))%list else a.(ic_p).

(** Lines 286-322. *)
Definition run_emcee (a : analysis) (result : model_result) : script event () :=
  emit (Print "Calculating posteriors with emcee...");;
  emit (ModelFit "emcee" (fit_data a) (1 / a.(uncertainty)) a.(bfield));;
  mcmc_result ← lift (model_fit args.(both_branches) "emcee" (fit_data a)
                        (1 / a.(uncertainty)) a.(bfield) (result_params result));
  emit (Print "...done.");;
  emit (SaveModelresult (a.(outpath) ++ "_mcmc-result.json"));;
  emit EmceeReport;;
  emit (Savefig (a.(outpath) ++ "_emcee-acceptance-fraction.png"));;
  emit (Savefig (a.(outpath) ++ "_emcee-corner.png")).

(** Lines 260-322: the body of [if not args.dry_run]. *)
Definition run_fit (a : analysis) : script event model_result :=
  emit (Print "Optimizing fit...");;
  emit (ModelFit "leastsq" (fit_data a) (1 / a.(uncertainty)) a.(bfield));;
  result ← lift (model_fit args.(both_branches) "leastsq" (fit_data a)
                   (1 / a.(uncertainty)) a.(bfield) a.(params));
  emit (Print "...done.");;
  emit (Print (fit_report result));;
  emit (WriteText (a.(outpath) ++ "_fit-report.txt") (fit_report result));;
  emit (WriteText (a.(outpath) ++ "_fit-params.txt") (to_dataframe (result_params result)));;
  (match args.(conf_interval) with
   | Some sigmas =>
       emit (Print "Calculating confidence intervals (this takes a while)...");;
       emit (ConfInterval (match sigmas with [] => None | _ => Some sigmas end));;
       emit (Print "...done.");;
       emit (Print (ci_report result))
   | None => mret ()
   end);;
  emit (SaveModelresult (a.(outpath) ++ "_model-result.json"));;
  (if args.(emcee) then run_emcee a result else mret ());;
  mret result.

(** [np.split(a, 2)]: two halves, an error when the length is odd. *)
Definition split_halves (a : list R) : result (list R * list R) :=
  if Nat.even (length a) then
    Ok (take (length a / 2) a, drop (length a / 2) a)
  else Raise (ValueError "array split does not result in an equal division").

(** Lines 325-379: the overlay of fit and guess on the data, and the table
    of curves.  [fit] is the result of the fit, [None] in a dry run. *)
Definition overlay (a : analysis) (fit : option model_result) : script event () :=
  let popt := match fit with
              | Some result => result_params result
              | None => a.(params)
              end in
  offset ← lift (param_value popt "bfield_offset");
  rate ← lift (param_value popt "radians_per_tesla");
  let phase := map (fun b => (b - offset) * rate) a.(bfield) in
  let turns := map (fun p => p / (2 * PI)) phase in
  '(best_p, best_n, init_p, init_n) ←
    (if args.(both_branches) then
       emit (Plot turns (map (fun x => x / 1e-6) a.(ic_n)) "data");;
       '(best_p, best_n) ←
         match fit with
         | Some result =>
             '(best_p, best_n) ← lift (split_halves (best_fit result));
             emit (Plot turns (map (fun x => x / 1e-6) best_n) "fit");;
             mret (Some best_p, Some best_n)
         | None => mret (None, None)
         end;
       emit (ModelEval a.(bfield));;
       '(init_p, init_n) ← lift (split_halves (model_eval true a.(bfield) a.(params)));
       (if args.(plot_guess)
        then emit (Plot turns (map (fun x => x / 1e-6) init_n) "guess")
        else mret ());;
       mret (best_p, best_n, init_p, Some init_n)
     else
       emit (ModelEval a.(bfield));;
       mret (best_fit <$> fit, None, model_eval false a.(bfield) a.(params), None));
  emit (Plot turns (map (fun x => x / 1e-6) a.(ic_p)) "data");;
  match fit with
  | Some _ =>
      best_p' ← lift (match best_p with
                      | Some c => Ok c
                      | None => Raise (NameError "best_p")
                      end);
      emit (Plot turns (map (fun x => x / 1e-6) best_p') "fit")
  | None => mret ()
  end;;
  (if args.(plot_guess)
   then emit (Plot turns (map (fun x => x / 1e-6) init_p) "guess")
   else mret ());;
  emit (Savefig (a.(outpath) ++ "_fit.png"));;
  match fit with
  | Some _ =>
      best_p' ← lift (match best_p with
                      | Some c => Ok c
                      | None => Raise (NameError "best_p")
                      end);
      emit (ToCsv (a.(outpath) ++ "_fit.csv")
              ([("bfield", a.(bfield)); ("phase", phase); ("ic_p", a.(ic_p));
                ("fit_p", best_p'); ("init_p", init_p)] ++
               match best_n, init_n with
               | Some fit_n, Some init_n =>
                   [("ic_n", a.(ic_n)); ("fit_n", fit_n); ("init_n", init_n)]
               | _, _ => []
               end))
  | None => mret ()
  end.

(** The script from line 86 on. *)
Definition main : script event () :=
  a ← preliminary;
  fit ← (if args.(dry_run) then mret None
         else result ← run_fit a; mret (Some result));
  overlay a fit;;
  emit Show.

(** *** Steps of the script *)

Definition is_warning (e : event) : Prop :=
  match e with Warn _ => True | _ => False end.

Lemma bind_run {A B} (m : script event A) (k : A → script event B)
    (tr tr' : list event) (b : B) :
  (m ≫= k) tr = (tr', Ok b) → ∃ tr1 a, m tr = (tr1, Ok a) ∧ k a tr1 = (tr', Ok b).
Proof.
  unfold mbind, script_bind. destruct (m tr) as [tr1 [a|e]]; [|done].
  intros Hk. by exists tr1, a.
Qed.

(** The arrays the sign convention hands on, and the warning it gives. *)
Definition oriented (fridge : string) (a : list R) : list R :=
  if String.eqb fridge "vector10" then rev a else a.

Definition oriented_field (fridge : string) (bfield : list R) : list R :=
  if String.eqb fridge "vector10" then rev (map Ropp bfield) else bfield.

Definition convention_warning (fridge : string) : list event :=
  if String.eqb fridge "vector10" then []
  else if String.eqb fridge "vector9" then []
  else [Warn ("I don't recognize fridge `" ++ fridge ++ "`")].

Lemma flip_negate (a : list R) : map (fun x => x * -1) (rev a) = rev (map Ropp a).
Proof.
  rewrite map_rev. apply (f_equal (@rev R)), map_ext. intros x. lra.
Qed.

Lemma fridge_convention_run (fridge : string) (bfield ic_p ic_n : list R) (tr : list event) :
  fridge_convention fridge bfield ic_p ic_n tr =
    ((tr ++ convention_warning fridge)%list,
     Ok (oriented_field fridge bfield, oriented fridge ic_p, oriented fridge ic_n)).
Proof.
  unfold fridge_convention, convention_warning, oriented_field, oriented.
  destruct (String.eqb fridge "vector10").
  - by rewrite (right_id_L [] app), <- flip_negate.
  - destruct (String.eqb fridge "vector9"); [by rewrite (right_id_L [] app)|done].
Qed.

(** Setting a parameter leaves the others as they are. *)
Lemma param_set_other (name k : string) (f : parameter → parameter)
    (ps ps' : parameters) :
  param_set name f ps = Ok ps' → name ≠ k → ps' !! k = ps !! k.
Proof.
  unfold param_set. destruct (ps !! name); [|done].
  intros [= <-] Hne. by rewrite lookup_insert_ne.
Qed.

Lemma param_set_same (name : string) (f : parameter → parameter) (ps ps' : parameters) :
  param_set name f ps = Ok ps' → ∃ p, ps !! name = Some p ∧ ps' !! name = Some (f p).
Proof.
  unfold param_set. destruct (ps !! name) as [p|]; [|done].
  intros [= <-]. exists p. by rewrite lookup_insert_eq.
Qed.

(** The transparencies after lines 169-172: value 0.5, no lower bound,
    upper bound 1. *)
Lemma configure_transparencies_bounds (ps : parameters) :
  configure_transparencies make_params = Ok ps →
  ∃ p1 p2,
    ps !! "transparency1" = Some p1 ∧ ps !! "transparency2" = Some p2 ∧
    p1.(value) = Some 0.5 ∧ p1.(pmin) = None ∧ p1.(pmax) = Some 1 ∧
    p2.(value) = Some 0.5 ∧ p2.(pmin) = None ∧ p2.(pmax) = Some 1.
Proof.
  unfold configure_transparencies.
  destruct (param_set "transparency1" _ make_params) as [ps1|] eqn:H1; [|done].
  simpl. destruct (param_set "transparency2" _ ps1) as [ps2|] eqn:H2; [|done].
  simpl. destruct (config_getboolean _ _ _) as [equal|]; [|done]. simpl.
  pose proof (param_set_same _ _ _ _ H1) as (q1 & Hq1 & Hq1').
  pose proof (param_set_same _ _ _ _ H2) as (q2 & Hq2 & Hq2').
  rewrite (param_set_other _ "transparency2" _ _ _ H1) in Hq2 by done.
  apply (inj Some) in Hq1. apply (inj Some) in Hq2. subst q1 q2.
  assert (ps2 !! "transparency1" = Some (with_value_max 0.5 1 unset)) as Hq1''.
  { by rewrite (param_set_other _ "transparency1" _ _ _ H2). }
  destruct (default false equal).
  - intros H3. pose proof (param_set_same _ _ _ _ H3) as (q3 & Hq3 & Hq3').
    rewrite Hq2' in Hq3. apply (inj Some) in Hq3. subst q3.
    rewrite <- (param_set_other _ "transparency1" _ _ _ H3) in Hq1'' by done.
    by eexists _, _.
  - intros [= <-]. by eexists _, _.
Qed.

Lemma initial_guess_run (B p n T : list R) (tr tr' : list event)
    (ps : parameters) (boffset cyc_per_T : R) (peak_idxs : list (list nat))
    (freqs abs_fft : list R) :
  initial_guess B p n T tr = (tr', Ok (ps, boffset, peak_idxs, cyc_per_T, freqs, abs_fft)) →
  let ic_n_opt := if args.(both_branches) then Some n else None in
  tr' = (tr ++ [EstimateBoffset B p ic_n_opt; EstimateFrequency B p])%list ∧
  estimate_boffset B p ic_n_opt = (boffset, peak_idxs) ∧
  estimate_frequency B p = (cyc_per_T, (freqs, abs_fft)) ∧
  (∃ p1 p2,
     ps !! "transparency1" = Some p1 ∧ ps !! "transparency2" = Some p2 ∧
     p1.(value) = Some 0.5 ∧ p1.(pmin) = None ∧ p1.(pmax) = Some 1 ∧
     p2.(value) = Some 0.5 ∧ p2.(pmin) = None ∧ p2.(pmax) = Some 1) ∧
  param_value ps "bfield_offset" = Ok boffset ∧
  param_value ps "radians_per_tesla" = Ok (2 * PI * cyc_per_T).
Proof.
  unfold initial_guess. intros Hrun.
  rewrite bind_lift in Hrun.
  destruct (configure_transparencies make_params) as [ps0|] eqn:Htrans; [|done].
  rewrite bind_lift in Hrun. destruct (amax p) as [hi|]; [|done].
  rewrite bind_lift in Hrun. destruct (amin p) as [lo|]; [|done].
  rewrite bind_lift in Hrun.
  destruct (param_set "switching_current1" _ ps0) as [ps1|] eqn:H1; [|done].
  rewrite bind_lift in Hrun.
  destruct (param_set "switching_current2" _ ps1) as [ps2|] eqn:H2; [|done].
  rewrite bind_emit in Hrun.
  destruct (estimate_boffset B p _) as [boffset' peak_idxs'] eqn:Hoff.
  rewrite bind_lift in Hrun.
  destruct (param_set "bfield_offset" _ ps2) as [ps3|] eqn:H3; [|done].
  rewrite bind_emit in Hrun.
  destruct (estimate_frequency B p) as [cyc' [freqs' abs_fft']] eqn:Hfreq.
  rewrite bind_lift in Hrun.
  destruct (param_set "radians_per_tesla" _ ps3) as [ps4|] eqn:H4; [|done].
  rewrite bind_lift in Hrun.
  destruct (param_set "anom_phase1" _ ps4) as [ps5|] eqn:H5; [|done].
  rewrite bind_lift in Hrun.
  destruct (param_set "anom_phase2" _ ps5) as [ps6|] eqn:H6; [|done].
  rewrite bind_lift in Hrun.
  destruct (param_set "temperature" _ ps6) as [ps7|] eqn:H7; [|done].
  rewrite bind_lift in Hrun.
  destruct (param_set "gap" _ ps7) as [ps8|] eqn:H8; [|done].
  rewrite bind_lift in Hrun.
  destruct (param_set "inductance" _ ps8) as [ps9|] eqn:H9; [|done].
  injection Hrun as <- <- <- <- <- <- <-.
  split; [by rewrite <- (assoc_L app)|]. split; [done|]. split; [done|].
  split; [|split].
  - apply configure_transparencies_bounds in Htrans
      as (p1 & p2 & Hp1 & Hp2 & Hfacts).
    exists p1, p2.
    rewrite (param_set_other _ "transparency1" _ _ _ H9),
      (param_set_other _ "transparency1" _ _ _ H8),
      (param_set_other _ "transparency1" _ _ _ H7),
      (param_set_other _ "transparency1" _ _ _ H6),
      (param_set_other _ "transparency1" _ _ _ H5),
      (param_set_other _ "transparency1" _ _ _ H4),
      (param_set_other _ "transparency1" _ _ _ H3),
      (param_set_other _ "transparency1" _ _ _ H2),
      (param_set_other _ "transparency1" _ _ _ H1) by done.
    rewrite (param_set_other _ "transparency2" _ _ _ H9),
      (param_set_other _ "transparency2" _ _ _ H8),
      (param_set_other _ "transparency2" _ _ _ H7),
      (param_set_other _ "transparency2" _ _ _ H6),
      (param_set_other _ "transparency2" _ _ _ H5),
      (param_set_other _ "transparency2" _ _ _ H4),
      (param_set_other _ "transparency2" _ _ _ H3),
      (param_set_other _ "transparency2" _ _ _ H2),
      (param_set_other _ "transparency2" _ _ _ H1) by done.
    done.
  - unfold param_value.
    rewrite (param_set_other _ "bfield_offset" _ _ _ H9),
      (param_set_other _ "bfield_offset" _ _ _ H8),
      (param_set_other _ "bfield_offset" _ _ _ H7),
      (param_set_other _ "bfield_offset" _ _ _ H6),
      (param_set_other _ "bfield_offset" _ _ _ H5),
      (param_set_other _ "bfield_offset" _ _ _ H4) by done.
    apply param_set_same in H3 as (q & _ & ->). done.
  - unfold param_value.
    rewrite (param_set_other _ "radians_per_tesla" _ _ _ H9),
      (param_set_other _ "radians_per_tesla" _ _ _ H8),
      (param_set_other _ "radians_per_tesla" _ _ _ H7),
      (param_set_other _ "radians_per_tesla" _ _ _ H6),
      (param_set_other _ "radians_per_tesla" _ _ _ H5) by done.
    apply param_set_same in H4 as (q & _ & ->). done.
Qed.

Lemma warn_unless_warns (ok : bool) (text : string) (tr tr' : list event) (u : ()) :
  warn_unless Warn ok text tr = (tr', Ok u) →
  ∃ ws, tr' = (tr ++ ws)%list ∧ Forall is_warning ws.
Proof.
  rewrite warn_unless_run. intros [= <-].
  eexists. split; [done|]. by destruct ok; repeat constructor.
Qed.

Lemma offset_plot_negative_drawn (B n : list R) (boffset : R)
    (peak_idxs : list (list nat)) (tr tr' : list event) :
  offset_plot_negative B n boffset peak_idxs tr = (tr', Ok ()) →
  ∃ group x y,
    last peak_idxs = Some group ∧
    take_indices B group = Ok x ∧ take_indices n group = Ok y ∧
    tr' = (tr ++ [Plot (map (fun x => x / 1e-3) B) (map (fun x => x / 1e-6) n) "";
                  Plot (map (fun x => x / 1e-3) x) (map (fun x => x / 1e-6) y) "";
                  Axvline (boffset / 1e-3)])%list.
Proof.
  unfold offset_plot_negative. intros Hrun.
  rewrite bind_emit, bind_lift in Hrun. unfold last_item in Hrun.
  destruct (last peak_idxs) as [group|]; [|done].
  rewrite bind_lift in Hrun. destruct (take_indices B _) as [x|] eqn:Hx; [|done].
  rewrite bind_lift in Hrun. destruct (take_indices n _) as [y|] eqn:Hy; [|done].
  rewrite bind_emit in Hrun. injection Hrun as <-.
  exists group, x, y. by rewrite <- !(assoc_L app).
Qed.

Lemma offset_plot_positive_drawn (B p : list R) (boffset : R)
    (peak_idxs : list (list nat)) (tr tr' : list event) :
  offset_plot_positive B p boffset peak_idxs tr = (tr', Ok ()) →
  ∃ group x y,
    head peak_idxs = Some group ∧
    take_indices B group = Ok x ∧ take_indices p group = Ok y ∧
    tr' = (tr ++ [Plot (map (fun x => x / 1e-3) B) (map (fun x => x / 1e-6) p) "";
                  Axvline (boffset / 1e-3);
                  Plot (map (fun x => x / 1e-3) x) (map (fun x => x / 1e-6) y) ""])%list.
Proof.
  unfold offset_plot_positive. intros Hrun.
  rewrite !bind_emit, bind_lift in Hrun. unfold first_item in Hrun.
  destruct (head peak_idxs) as [group|]; [|done].
  rewrite bind_lift in Hrun. destruct (take_indices B _) as [x|] eqn:Hx; [|done].
  rewrite bind_lift in Hrun. destruct (take_indices p _) as [y|] eqn:Hy; [|done].
  injection Hrun as <-.
  exists group, x, y. by rewrite <- !(assoc_L app).
Qed.

(** Curves, markers and vertical lines. *)
Definition is_line_plot (e : event) : Prop :=
  match e with
  | Plot _ _ _ | Axvline _ => True
  | _ => False
  end.

(** What lines 213-222 draw: with --both-branches the negative branch over
    the field, the peaks of its group (the last one) and the offset line;
    nothing otherwise. *)
Definition negative_drawing (B n : list R) (boffset : R)
    (peak_idxs : list (list nat)) (plots : list event) : Prop :=
  if args.(both_branches) then
    ∃ group x y,
      last peak_idxs = Some group ∧
      take_indices B group = Ok x ∧ take_indices n group = Ok y ∧
      plots = [Plot (map (fun x => x / 1e-3) B) (map (fun x => x / 1e-6) n) "";
               Plot (map (fun x => x / 1e-3) x) (map (fun x => x / 1e-6) y) "";
               Axvline (boffset / 1e-3)]
  else plots = [].

Lemma negative_drawing_lines (B n : list R) (boffset : R)
    (peak_idxs : list (list nat)) (plots : list event) :
  negative_drawing B n boffset peak_idxs plots → Forall is_line_plot plots.
Proof.
  unfold negative_drawing. destruct args.(both_branches).
  - intros (group & x & y & _ & _ & _ & ->). by repeat constructor.
  - intros ->. constructor.
Qed.

(** The events of the analysis before the fit, in order: [loaded] is the
    field as loaded, [B] the field after the sign convention. *)
Definition preliminary_events (OUTPATH OUTDIR : string) (loaded B : list R)
    (ibias dvdi : ndarray) (ic_p0 ic_n0 ic_p ic_n freqs abs_fft : list R)
    (cyc_per_T boffset : R) (peaks_x peaks_y : list R)
    (path_warning temp_warning convention negative_plots step_warning : list event)
    : list event :=
  [Print "Using config file"] ++ path_warning ++
  [Print ("All output will be saved to `" ++ OUTDIR ++ "`"); Mkdir OUTDIR] ++
  temp_warning ++
  [Plot2d (map (fun x => x / 1e-3) loaded) (arr_div_scalar ibias 1e-6) dvdi "raw data";
   Savefig (OUTPATH ++ "_raw-data.png");
   Plot (map (fun x => x / 1e-3) loaded) (map (fun x => x / 1e-6) ic_p0) "";
   Plot (map (fun x => x / 1e-3) loaded) (map (fun x => x / 1e-6) ic_n0) "";
   Savefig (OUTPATH ++ "_ic-extraction.png")] ++
  convention ++
  [EstimateBoffset B ic_p (if args.(both_branches) then Some ic_n else None);
   EstimateFrequency B ic_p;
   Plot (map (fun x => x / 1e3) freqs) abs_fft "";
   Axvline (cyc_per_T / 1e3);
   Savefig (OUTPATH ++ "_fft.png")] ++
  negative_plots ++
  [Plot (map (fun x => x / 1e-3) B) (map (fun x => x / 1e-6) ic_p) "";
   Axvline (boffset / 1e-3);
   Plot peaks_x peaks_y "";
   Savefig (OUTPATH ++ "_bfield-offset.png")] ++
  step_warning.

(** A run of the analysis that ends normally: what it read, what it
    computed from it, and the events it caused, in order. *)
Lemma preliminary_drawn (tr tr' : list event) (a : analysis) :
  preliminary tr = (tr', Ok a) →
  ∃ datapath fridge perp_axis amps f ch_field_perp raw ch_lockin ibias lockin threshold
    OUTDIR ic_p0 ic_n0 boffset peak_idxs cyc_per_T freqs abs_fft group px py
    path_warning temp_warning negative_plots step_warning,
    config !! "DATAPATH" = Some datapath ∧
    config !! "FRIDGE" = Some fridge ∧
    config !! "PERP_AXIS" = Some perp_axis ∧
    constants.lookup fridge perp_axis = Ok amps ∧
    LabberData (path_join (config_get config "LABBERDATA_DIR" get_data_dir) datapath)
      = Ok f ∧
    config !! "CH_FIELD_PERP" = Some ch_field_perp ∧
    get_data f ch_field_perp = Ok raw ∧
    config !! "CH_LOCKIN" = Some ch_lockin ∧
    get_data_x f ch_lockin = Ok (ibias, lockin) ∧
    config_getfloat float config "RESISTANCE_THRESHOLD" None = Ok threshold ∧
    extract_switching_current ibias (np_abs lockin) threshold = (ic_n0, ic_p0) ∧
    a.(bfield) = oriented_field fridge (map (fun x => x / amps) raw) ∧
    a.(ic_p) = oriented fridge ic_p0 ∧
    a.(ic_n) = oriented fridge ic_n0 ∧
    estimate_boffset a.(bfield) a.(ic_p)
      (if args.(both_branches) then Some a.(ic_n) else None) = (boffset, peak_idxs) ∧
    estimate_frequency a.(bfield) a.(ic_p) = (cyc_per_T, (freqs, abs_fft)) ∧
    (∃ p1 p2,
       a.(params) !! "transparency1" = Some p1 ∧ a.(params) !! "transparency2" = Some p2 ∧
       p1.(value) = Some 0.5 ∧ p1.(pmin) = None ∧ p1.(pmax) = Some 1 ∧
       p2.(value) = Some 0.5 ∧ p2.(pmin) = None ∧ p2.(pmax) = Some 1) ∧
    param_value a.(params) "bfield_offset" = Ok boffset ∧
    param_value a.(params) "radians_per_tesla" = Ok (2 * PI * cyc_per_T) ∧
    head peak_idxs = Some group ∧
    take_indices a.(bfield) group = Ok px ∧
    take_indices a.(ic_p) group = Ok py ∧
    negative_drawing a.(bfield) a.(ic_n) boffset peak_idxs negative_plots ∧
    Forall is_warning path_warning ∧ Forall is_warning temp_warning ∧
    Forall is_warning step_warning ∧
    tr' = (tr ++ preliminary_events a.(outpath) OUTDIR (map (fun x => x / amps) raw)
                   a.(bfield) ibias (np_abs lockin) ic_p0 ic_n0 a.(ic_p) a.(ic_n)
                   freqs abs_fft cyc_per_T boffset
                   (map (fun x => x / 1e-3) px) (map (fun x => x / 1e-6) py)
                   path_warning temp_warning (convention_warning fridge)
                   negative_plots step_warning)%list.
Proof.
  unfold preliminary. intros Hrun.
  rewrite bind_emit, bind_lift in Hrun. unfold config_getitem at 1 in Hrun.
  destruct (config !! "DATAPATH") as [datapath|] eqn:Hpath; [|done].
  rewrite bind_lift in Hrun. unfold config_getitem at 1 in Hrun.
  destruct (config !! "FRIDGE") as [fridge|] eqn:Hfridge; [|done].
  rewrite bind_lift in Hrun. unfold config_getitem at 1 in Hrun.
  destruct (config !! "PERP_AXIS") as [perp_axis|] eqn:Haxis; [|done].
  rewrite bind_lift in Hrun.
  destruct (constants.lookup fridge perp_axis) as [amps|] eqn:Hamps; [|done].
  apply bind_run in Hrun as (tr1 & u1 & Hw1 & Hrun).
  apply warn_unless_warns in Hw1 as (ws1 & -> & Hws1).
  rewrite bind_lift in Hrun. destruct (config_getitem config "WAFER") as [wafer|]; [|done].
  rewrite bind_lift in Hrun. destruct (config_getitem config "PIECE") as [piece|]; [|done].
  rewrite bind_lift in Hrun. destruct (config_getitem config "LAYOUT") as [layout|]; [|done].
  rewrite bind_lift in Hrun. destruct (config_getitem config "DEVICE") as [device|]; [|done].
  rewrite !bind_emit, bind_lift in Hrun.
  destruct (config_getitem config "COOLDOWN") as [cooldown|]; [|done].
  rewrite bind_lift in Hrun. destruct (config_getitem config "SCAN") as [scan|]; [|done].
  rewrite bind_lift in Hrun. destruct (LabberData _) as [f|] eqn:Hfile; [|done].
  rewrite bind_lift in Hrun. unfold config_getitem at 1 in Hrun.
  destruct (config !! "CH_FIELD_PERP") as [ch_field_perp|] eqn:Hperp; [|done].
  rewrite bind_lift in Hrun. destruct (get_data f ch_field_perp) as [raw|] eqn:Hraw; [|done].
  rewrite bind_lift in Hrun. unfold config_getitem at 1 in Hrun.
  destruct (config !! "CH_LOCKIN") as [ch_lockin|] eqn:Hlockin; [|done].
  rewrite bind_lift in Hrun.
  destruct (get_data_x f ch_lockin) as [[ibias lockin]|] eqn:Hx; [|done].
  rewrite bind_lift in Hrun.
  destruct (config_getitem config "CH_TEMP_MEAS") as [ch_temp|]; [|done].
  rewrite bind_lift in Hrun. destruct (get_data f ch_temp) as [temp_meas|]; [|done].
  rewrite bind_lift in Hrun.
  apply bind_run in Hrun as (tr2 & u2 & Hw2 & Hrun).
  apply warn_unless_warns in Hw2 as (ws2 & -> & Hws2).
  rewrite !bind_emit, bind_lift in Hrun.
  destruct (config_getfloat float config "RESISTANCE_THRESHOLD" None)
    as [threshold|] eqn:Hthreshold; [|done].
  destruct (extract_switching_current _ _ _) as [ic_n0 ic_p0] eqn:Hextract.
  rewrite !bind_emit, bind_lift in Hrun. unfold config_getitem at 1 in Hrun.
  rewrite Hfridge in Hrun.
  apply bind_run in Hrun as (tr3 & [[B p] n] & Hconv & Hrun).
  rewrite fridge_convention_run in Hconv. injection Hconv as <- <- <- <-.
  apply bind_run in Hrun
    as (tr4 & [[[[[ps boffset] peak_idxs] cyc_per_T] freqs] abs_fft] & Hguess & Hrun).
  apply initial_guess_run in Hguess as (-> & Hoff & Hfreq & Htrans & Hbo & Hrate).
  rewrite bind_emit, bind_lift in Hrun. destruct (amax (tail abs_fft)); [|done].
  rewrite !bind_emit, bind_lift in Hrun.
  destruct (round_period cyc_per_T); [|done].
  rewrite !bind_emit in Hrun.
  match type of Hrun with context [mbind _ _ ?t] => remember t as tr4' eqn:Htr4 end.
  apply bind_run in Hrun as (tr5 & u3 & Hneg & Hrun); destruct u3.
  apply bind_run in Hrun as (tr6 & u4 & Hpos & Hrun); destruct u4.
  apply offset_plot_positive_drawn in Hpos as (group & px & py & Hgroup & Hpx & Hpy & ->).
  rewrite bind_emit in Hrun.
  apply bind_run in Hrun as (tr7 & u5 & Hw4 & Hrun).
  apply warn_unless_warns in Hw4 as (ws4 & -> & Hws4). injection Hrun as <- <-. simpl.
  assert (∃ neg, tr5 = (tr4' ++ neg)%list ∧
                 negative_drawing (oriented_field fridge (map (fun x => x / amps) raw))
                   (oriented fridge ic_n0) boffset peak_idxs neg)
    as (neg & -> & Hnegplots).
  { unfold negative_drawing. destruct args.(both_branches).
    - apply offset_plot_negative_drawn in Hneg as (g & xn & yn & Hg & Hxn & Hyn & ->).
      eexists. split; [done|]. by exists g, xn, yn.
    - injection Hneg as <-. exists []. by rewrite (right_id_L [] app). }
  subst tr4'.
  eexists datapath, fridge, perp_axis, amps, f, ch_field_perp, raw, ch_lockin, ibias, lockin,
    threshold, _, ic_p0, ic_n0, boffset, peak_idxs, cyc_per_T, freqs, abs_fft, group, px, py,
    ws1, ws2, neg, ws4.
  do 26 (split; [done|]).
  unfold preliminary_events. rewrite <- !(assoc_L app). reflexivity.
Qed.

Lemma preliminary_run (tr tr' : list event) (a : analysis) :
  preliminary tr = (tr', Ok a) →
  ∃ fridge perp_axis amps f ch_field_perp raw OUTDIR ibias dvdi ic_p0 ic_n0
    boffset peak_idxs cyc_per_T freqs abs_fft peaks_x peaks_y
    path_warning temp_warning negative_plots step_warning,
    config !! "FRIDGE" = Some fridge ∧
    config !! "PERP_AXIS" = Some perp_axis ∧
    constants.lookup fridge perp_axis = Ok amps ∧
    config !! "CH_FIELD_PERP" = Some ch_field_perp ∧
    get_data f ch_field_perp = Ok raw ∧
    a.(bfield) = oriented_field fridge (map (fun x => x / amps) raw) ∧
    a.(ic_p) = oriented fridge ic_p0 ∧
    a.(ic_n) = oriented fridge ic_n0 ∧
    estimate_boffset a.(bfield) a.(ic_p)
      (if args.(both_branches) then Some a.(ic_n) else None) = (boffset, peak_idxs) ∧
    estimate_frequency a.(bfield) a.(ic_p) = (cyc_per_T, (freqs, abs_fft)) ∧
    (∃ p1 p2,
       a.(params) !! "transparency1" = Some p1 ∧ a.(params) !! "transparency2" = Some p2 ∧
       p1.(value) = Some 0.5 ∧ p1.(pmin) = None ∧ p1.(pmax) = Some 1 ∧
       p2.(value) = Some 0.5 ∧ p2.(pmin) = None ∧ p2.(pmax) = Some 1) ∧
    param_value a.(params) "bfield_offset" = Ok boffset ∧
    param_value a.(params) "radians_per_tesla" = Ok (2 * PI * cyc_per_T) ∧
    Forall is_warning path_warning ∧ Forall is_warning temp_warning ∧
    Forall is_warning step_warning ∧
    Forall is_line_plot negative_plots ∧
    tr' = (tr ++ preliminary_events a.(outpath) OUTDIR (map (fun x => x / amps) raw)
                   a.(bfield) ibias dvdi ic_p0 ic_n0 a.(ic_p) a.(ic_n) freqs abs_fft
                   cyc_per_T boffset peaks_x peaks_y
                   path_warning temp_warning (convention_warning fridge)
                   negative_plots step_warning)%list.
Proof.
  intros Hrun.
  apply preliminary_drawn in Hrun
    as (datapath & fridge & perp_axis & amps & f & ch & raw & ch_lockin & ibias & lockin
        & threshold & OUTDIR & ic_p0 & ic_n0 & boffset & peak_idxs & cyc & freqs & abs_fft
        & group & px & py & w1 & w2 & neg & w4
        & _ & Hfridge & Haxis & Hamps & _ & Hch & Hraw & _ & _ & _ & _ & Hfield & Hp & Hn
        & Hoff & Hfreq & Htrans & Hbo & Hrate & _ & _ & _ & Hneg & Hw1 & Hw2 & Hw4 & Htr).
  exists fridge, perp_axis, amps, f, ch, raw, OUTDIR, ibias, (np_abs lockin), ic_p0, ic_n0,
    boffset, peak_idxs, cyc, freqs, abs_fft,
    (map (fun x => x / 1e-3) px), (map (fun x => x / 1e-6) py), w1, w2, neg, w4.
  do 16 (split; [done|]).
  split; [by eapply negative_drawing_lines|]. done.
Qed.

(** *** The fit and the overlay *)

(** Events of the fit: the optimizer, confidence intervals and sampler, and
    the report, table, result files and CSV they feed. *)
Definition not_fit_output (e : event) : Prop :=
  match e with
  | ModelFit _ _ _ _ | ConfInterval _ | WriteText _ _ | SaveModelresult _
  | EmceeReport | ToCsv _ _ => False
  | _ => True
  end.

(** What the events that take the field array take: the raw-data map is
    drawn over [loaded] (in mT), the estimators, the fit, the model
    evaluation and the exported table take [B]. *)
Definition on_field (loaded B : list R) (e : event) : Prop :=
  match e with
  | Plot2d x _ _ _ => x = map (fun x => x / 1e-3) loaded
  | EstimateBoffset b _ _ | EstimateFrequency b _ | ModelFit _ _ _ b | ModelEval b => b = B
  | ToCsv _ columns => ("bfield", B) ∈ columns
  | _ => True
  end.

(** The field arrays handed to the two estimators, in order. *)
Definition estimator_fields (tr : list event) : list (list R) :=
  omap (fun e => match e with
                 | EstimateBoffset b _ _ | EstimateFrequency b _ => Some b
                 | _ => None
                 end) tr.

(** Finding an event in a trace written out. *)
Ltac in_trace :=
  lazymatch goal with
  | |- _ ∈ _ :: _ => first [apply list_elem_of_here | apply list_elem_of_further; in_trace]
  | |- _ ∈ (_ ++ _)%list => apply elem_of_app; first [left; in_trace | right; in_trace]
  end.

Ltac emits_step :=
  first
    [ apply emits_mret
    | apply emits_lift
    | apply emits_emit; first [exact I | reflexivity | by left]
    | apply emits_bind; [|intros ?]
    | match goal with
      | |- emits _ (match ?x with _ => _ end) => destruct x
      end ].

Lemma preliminary_no_fit_output : emits not_fit_output preliminary.
Proof.
  unfold preliminary, warn_unless, fridge_convention, initial_guess,
    offset_plot_negative, offset_plot_positive.
  repeat emits_step.
Qed.

Lemma overlay_dry_no_fit_output (a : analysis) : emits not_fit_output (overlay a None).
Proof. unfold overlay. repeat emits_step. Qed.

Lemma run_fit_on_field (loaded : list R) (a : analysis) :
  emits (on_field loaded a.(bfield)) (run_fit a).
Proof. unfold run_fit, run_emcee. repeat emits_step. Qed.

Lemma overlay_on_field (loaded : list R) (a : analysis) (fit : option model_result) :
  emits (on_field loaded a.(bfield)) (overlay a fit).
Proof. unfold overlay. repeat emits_step. Qed.

(** The curves of the initial guess: [model.eval] on the field with the
    initial-guess parameters, split in two with --both-branches. *)
Definition guess_curves (a : analysis) (init_p init_n : list R) : Prop :=
  if args.(both_branches) then
    split_halves (model_eval true a.(bfield) a.(params)) = Ok (init_p, init_n)
  else init_p = model_eval false a.(bfield) a.(params) ∧ init_n = [].

(** The events of the overlay in a dry run, in order: the data over the
    phase computed from [offset] and [rate] (with --both-branches the
    negative branch first), the guess curves with --plot-guess, and the
    figure saved. *)
Definition overlay_dry_events (a : analysis) (offset rate : R) (init_p init_n : list R)
    : list event :=
  let turns := map (fun p => p / (2 * PI))
                 (map (fun b => (b - offset) * rate) a.(bfield)) in
  (if args.(both_branches) then
     [Plot turns (map (fun x => x / 1e-6) a.(ic_n)) "data"; ModelEval a.(bfield)] ++
     (if args.(plot_guess)
      then [Plot turns (map (fun x => x / 1e-6) init_n) "guess"] else [])
   else [ModelEval a.(bfield)]) ++
  [Plot turns (map (fun x => x / 1e-6) a.(ic_p)) "data"] ++
  (if args.(plot_guess)
   then [Plot turns (map (fun x => x / 1e-6) init_p) "guess"] else []) ++
  [Savefig (a.(outpath) ++ "_fit.png")].

Lemma overlay_dry_drawn (a : analysis) (tr tr' : list event) :
  overlay a None tr = (tr', Ok ()) →
  ∃ offset rate init_p init_n,
    param_value a.(params) "bfield_offset" = Ok offset ∧
    param_value a.(params) "radians_per_tesla" = Ok rate ∧
    guess_curves a init_p init_n ∧
    tr' = (tr ++ overlay_dry_events a offset rate init_p init_n)%list.
Proof.
  unfold overlay, guess_curves, overlay_dry_events. intros Hrun.
  rewrite bind_lift in Hrun.
  destruct (param_value a.(params) "bfield_offset") as [offset|]; [|done].
  rewrite bind_lift in Hrun.
  destruct (param_value a.(params) "radians_per_tesla") as [rate|]; [|done].
  apply bind_run in Hrun as (tr1 & [[[best_p best_n] init_p] init_n] & Hbranch & Hrun).
  rewrite bind_emit, bind_mret in Hrun.
  apply bind_run in Hrun as (tr2 & u & Hguess & Hrun).
  rewrite bind_emit in Hrun. injection Hrun as <-.
  exists offset, rate, init_p.
  revert Hbranch Hguess. destruct args.(both_branches); intros Hbranch Hguess.
  - rewrite bind_emit, bind_mret, bind_emit, bind_lift in Hbranch.
    destruct (split_halves _) as [[ip inn]|] eqn:Hsplit; [|done].
    apply bind_run in Hbranch as (tr3 & u' & Hguess' & Hbranch).
    injection Hbranch as <- <- <- <- <-.
    exists inn. split; [done|]. split; [done|]. split; [done|].
    revert Hguess Hguess'. destruct args.(plot_guess); intros Hguess Hguess'.
    + injection Hguess as <-. injection Hguess' as <-. by rewrite <- !(assoc_L app).
    + injection Hguess as <-. injection Hguess' as <-. by rewrite <- !(assoc_L app).
  - rewrite bind_emit in Hbranch. injection Hbranch as <- <- <- <- <-.
    exists []. split; [done|]. split; [done|]. split; [done|].
    revert Hguess. destruct args.(plot_guess); intros Hguess.
    + injection Hguess as <-. by rewrite <- !(assoc_L app).
    + injection Hguess as <-. by rewrite <- !(assoc_L app).
Qed.

(** *** The current-phase relation at the transparency bound *)

Lemma cpr_radicand_pos (phase anomalous_phase transparency : R) :
  transparency < 1 → 0 < cpr_radicand phase anomalous_phase transparency.
Proof.
  intros Ht. unfold cpr_radicand.
  pose proof (SIN_bound ((phase - anomalous_phase) / 2)) as [Hlo Hhi].
  assert (0 <= sin ((phase - anomalous_phase) / 2) ^ 2 <= 1) as [H0 H1] by nra.
  destruct (Rle_dec transparency 0); nra.
Qed.

Lemma cpr_radicand_singular : cpr_radicand PI 0 1 = 0.
Proof.
  unfold cpr_radicand. replace ((PI - 0) / 2) with (PI / 2) by lra.
  rewrite sin_PI2. lra.
Qed.

(** *** The claims about the script *)

(** C5.  After the extraction: for the fridge "vector10" the field array
    is reversed and negated and both critical-current arrays are reversed;
    for "vector9" the three arrays are kept; for any other fridge a warning
    is issued, the three arrays are kept and the script goes on. *)
Theorem fridge_sign_convention
    (fridge : string) (bfield ic_p ic_n : list R) (tr : list event) :
  (fridge = "vector10" →
   fridge_convention fridge bfield ic_p ic_n tr =
     (tr, Ok (rev (map Ropp bfield), rev ic_p, rev ic_n))) ∧
  (fridge = "vector9" →
   fridge_convention fridge bfield ic_p ic_n tr = (tr, Ok (bfield, ic_p, ic_n))) ∧
  (fridge ≠ "vector10" → fridge ≠ "vector9" →
   fridge_convention fridge bfield ic_p ic_n tr =
     ((tr ++ [Warn ("I don't recognize fridge `" ++ fridge ++ "`")])%list,
      Ok (bfield, ic_p, ic_n))).
Proof.
  rewrite fridge_convention_run.
  unfold convention_warning, oriented_field, oriented.
  split; [|split].
  - intros ->. simpl. by rewrite (right_id_L [] app).
  - intros ->. simpl. by rewrite (right_id_L [] app).
  - intros H10 H9.
    apply String.eqb_neq in H10. apply String.eqb_neq in H9. by rewrite H10, H9.
Qed.

(** C6.  With --dry-run: however the run ends, no fit is run and no fit
    report, parameter table, serialized result or CSV is written.  A run
    that ends normally has caused exactly the events of the analysis, then
    those of the overlay, then shown the figures: the raw-data map of the
    loaded field, bias and |lock-in signal| is drawn and saved; the two extracted branches are drawn over it and
    saved; the spectrum of the frequency estimate and its line are drawn
    and saved; the positive branch, the offset line and the peaks of the
    first group (with --both-branches the negative branch, the peaks of
    its group and the offset line before them) are drawn and saved; and
    the overlay draws the data, and the guess with --plot-guess, over the
    phase computed from the initial-guess parameters, and is saved. *)
Theorem dry_run_outputs :
  args.(dry_run) = true →
  (∀ tr r, main [] = (tr, r) → Forall not_fit_output tr) ∧
  (∀ tr, main [] = (tr, Ok ()) →
     ∃ pre a fridge perp_axis amps f ch_field_perp raw ch_lockin ibias lockin threshold
       OUTDIR ic_p0 ic_n0 boffset peak_idxs cyc_per_T freqs abs_fft
       group px py path_warning temp_warning convention negative_plots step_warning
       offset rate init_p init_n,
       preliminary [] = (pre, Ok a) ∧
       config !! "FRIDGE" = Some fridge ∧
       config !! "PERP_AXIS" = Some perp_axis ∧
       constants.lookup fridge perp_axis = Ok amps ∧
       config !! "CH_FIELD_PERP" = Some ch_field_perp ∧
       get_data f ch_field_perp = Ok raw ∧
       config !! "CH_LOCKIN" = Some ch_lockin ∧
       get_data_x f ch_lockin = Ok (ibias, lockin) ∧
       config_getfloat float config "RESISTANCE_THRESHOLD" None = Ok threshold ∧
       extract_switching_current ibias (np_abs lockin) threshold = (ic_n0, ic_p0) ∧
       estimate_boffset a.(bfield) a.(ic_p)
         (if args.(both_branches) then Some a.(ic_n) else None) = (boffset, peak_idxs) ∧
       estimate_frequency a.(bfield) a.(ic_p) = (cyc_per_T, (freqs, abs_fft)) ∧
       head peak_idxs = Some group ∧
       take_indices a.(bfield) group = Ok px ∧
       take_indices a.(ic_p) group = Ok py ∧
       negative_drawing a.(bfield) a.(ic_n) boffset peak_idxs negative_plots ∧
       Forall is_warning path_warning ∧ Forall is_warning temp_warning ∧
       Forall is_warning convention ∧ Forall is_warning step_warning ∧
       param_value a.(params) "bfield_offset" = Ok offset ∧
       param_value a.(params) "radians_per_tesla" = Ok rate ∧
       guess_curves a init_p init_n ∧
       tr = (preliminary_events a.(outpath) OUTDIR (map (fun x => x / amps) raw)
               a.(bfield) ibias (np_abs lockin)
               ic_p0 ic_n0 a.(ic_p) a.(ic_n) freqs abs_fft cyc_per_T boffset
               (map (fun x => x / 1e-3) px) (map (fun x => x / 1e-6) py)
               path_warning temp_warning convention negative_plots step_warning ++
             overlay_dry_events a offset rate init_p init_n ++
             [Show])%list).
Proof.
  intros Hdry. split.
  - intros tr r Hmain.
    assert (emits not_fit_output main) as Hemits.
    { unfold main. rewrite Hdry. apply emits_bind; [apply preliminary_no_fit_output|].
      intros a. apply emits_bind_mret.
      apply emits_bind; [apply overlay_dry_no_fit_output|].
      intros ?. by apply emits_emit. }
    apply Hemits in Hmain as (evs & -> & Hevs). done.
  - intros tr Hmain. unfold main in Hmain. rewrite Hdry in Hmain.
    apply bind_run in Hmain as (pre & a & Hpre & Hmain).
    rewrite bind_mret in Hmain.
    apply bind_run in Hmain as (tr1 & u & Hoverlay & Hmain). destruct u.
    injection Hmain as <-.
    apply overlay_dry_drawn in Hoverlay
      as (offset & rate & init_p & init_n & Hoff & Hrate & Hguess & ->).
    pose proof Hpre as Hpre'.
    apply preliminary_drawn in Hpre'
      as (datapath & fridge & perp_axis & amps & f & ch & raw & ch_lockin & ibias & lockin
          & threshold & OUTDIR & ic_p0 & ic_n0 & boffset & peak_idxs & cyc & freqs & abs_fft
          & group & px & py & w1 & w2 & neg & w4
          & _ & Hfridge & Haxis & Hamps & _ & Hch & Hraw & Hlockin & Hx & Hthr & Hextract
          & _ & _ & _
          & Hboff & Hfreq & _ & _ & _ & Hgroup & Hpx & Hpy & Hneg & Hw1 & Hw2 & Hw4 & ->).
    exists ([] ++ preliminary_events a.(outpath) OUTDIR (map (fun x => x / amps) raw)
                    a.(bfield) ibias (np_abs lockin) ic_p0 ic_n0 a.(ic_p) a.(ic_n)
                    freqs abs_fft cyc boffset
                    (map (fun x => x / 1e-3) px) (map (fun x => x / 1e-6) py)
                    w1 w2 (convention_warning fridge) neg w4)%list,
      a, fridge, perp_axis, amps, f, ch, raw, ch_lockin, ibias, lockin, threshold,
      OUTDIR, ic_p0, ic_n0,
      boffset, peak_idxs, cyc, freqs, abs_fft, group, px, py, w1, w2,
      (convention_warning fridge), neg, w4, offset, rate, init_p, init_n.
    do 18 (split; [done|]). split.
    { unfold convention_warning.
      destruct (String.eqb fridge "vector10"), (String.eqb fridge "vector9");
        by repeat constructor. }
    do 4 (split; [done|]).
    rewrite (left_id_L [] app). by rewrite <- (assoc_L app).
Qed.

(** C7 (as the code has it).  The parameters handed to the fit bound both
    transparencies from above by 1, the bound included, and not from below:
    the values allowed are exactly those at most 1.  For every allowed
    value other than 1 the radicand of the current-phase relation is
    positive at every phase; at the allowed value 1 it vanishes where
    phase - anomalous_phase = π. *)
Theorem transparency_bounds (tr tr' : list event) (a : analysis) :
  preliminary tr = (tr', Ok a) →
  ∃ p1 p2,
    a.(params) !! "transparency1" = Some p1 ∧
    a.(params) !! "transparency2" = Some p2 ∧
    (∀ v, within_bounds p1 v ↔ v <= 1) ∧
    (∀ v, within_bounds p2 v ↔ v <= 1) ∧
    (∀ t phase anomalous_phase,
       within_bounds p1 t ∨ within_bounds p2 t → t ≠ 1 →
       0 < cpr_radicand phase anomalous_phase t) ∧
    cpr_radicand PI 0 1 = 0.
Proof.
  intros Hrun.
  apply preliminary_run in Hrun
    as (fridge & perp_axis & amps & f & ch & raw & OUTDIR & ibias & dvdi & ic_p0 & ic_n0
        & boffset & peak_idxs & cyc & freqs & abs_fft & px & py & w1 & w2 & neg & w4
        & _ & _ & _ & _ & _ & _ & _ & _ & _ & _ & Htrans & _).
  destruct Htrans as (p1 & p2 & Hp1 & Hp2 & _ & Hmin1 & Hmax1 & _ & Hmin2 & Hmax2).
  assert (∀ p v, p.(pmin) = None → p.(pmax) = Some 1 → within_bounds p v ↔ v <= 1)
    as Hbounds.
  { intros p v Hmin Hmax. unfold within_bounds. rewrite Hmin, Hmax. tauto. }
  exists p1, p2. repeat (split; [by auto|]). split; [|apply cpr_radicand_singular].
  intros t phase anomalous_phase Hin Hne. apply cpr_radicand_pos.
  assert (t <= 1) as Hle.
  { destruct Hin as [Hin|Hin]; [by apply (Hbounds p1) | by apply (Hbounds p2)]. }
  lra.
Qed.

(** C9 (as the code has it).  The field channel is divided by the
    amps-per-tesla factor of (FRIDGE, PERP_AXIS) once, when it is loaded.
    The raw-data map and the Ic-extraction overlay are drawn over that
    array.  From the sign convention on, the script works on that array
    reversed and negated when FRIDGE is "vector10", and on that array
    itself otherwise: the estimators, the fit, the model evaluation and the
    exported table all take it. *)
Theorem field_in_tesla (tr : list event) (a : analysis) :
  preliminary [] = (tr, Ok a) →
  ∃ fridge perp_axis amps f ch_field_perp raw,
    config !! "FRIDGE" = Some fridge ∧
    config !! "PERP_AXIS" = Some perp_axis ∧
    constants.lookup fridge perp_axis = Ok amps ∧
    config !! "CH_FIELD_PERP" = Some ch_field_perp ∧
    get_data f ch_field_perp = Ok raw ∧
    let loaded := map (fun x => x / amps) raw in
    a.(bfield) = (if String.eqb fridge "vector10" then rev (map Ropp loaded) else loaded) ∧
    Forall (on_field loaded a.(bfield)) tr ∧
    (∃ ic_p0 ic_n0,
       Plot (map (fun x => x / 1e-3) loaded) (map (fun x => x / 1e-6) ic_p0) "" ∈ tr ∧
       Plot (map (fun x => x / 1e-3) loaded) (map (fun x => x / 1e-6) ic_n0) "" ∈ tr) ∧
    Plot (map (fun x => x / 1e-3) a.(bfield)) (map (fun x => x / 1e-6) a.(ic_p)) "" ∈ tr ∧
    emits (on_field loaded a.(bfield)) (run_fit a) ∧
    (∀ fit, emits (on_field loaded a.(bfield)) (overlay a fit)).
Proof.
  intros Hrun.
  apply preliminary_run in Hrun
    as (fridge & perp_axis & amps & f & ch & raw & OUTDIR & ibias & dvdi & ic_p0 & ic_n0
        & boffset & peak_idxs & cyc & freqs & abs_fft & px & py & w1 & w2 & neg & w4
        & Hfridge & Haxis & Hamps & Hch & Hraw & Hfield & _ & _ & _ & _ & _ & _ & _
        & Hw1 & Hw2 & Hw4 & Hneg & ->).
  exists fridge, perp_axis, amps, f, ch, raw. do 5 (split; [done|]).
  assert (∀ l, Forall is_warning l →
               Forall (on_field (map (fun x => x / amps) raw) a.(bfield)) l) as Hwarn.
  { intros l Hl. eapply Forall_impl; [exact Hl|].
    intros [] Hw; first [exact I | destruct Hw]. }
  assert (∀ l, Forall is_line_plot l →
               Forall (on_field (map (fun x => x / amps) raw) a.(bfield)) l) as Hline.
  { intros l Hl. eapply Forall_impl; [exact Hl|].
    intros [] Hw; first [exact I | destruct Hw]. }
  unfold preliminary_events. cbn zeta.
  split; [done|]. split; [|split; [|split; [|split]]].
  - rewrite (left_id_L [] app).
    apply Forall_app. split; [by repeat constructor|].
    apply Forall_app. split; [by apply Hwarn|].
    apply Forall_app. split; [by repeat constructor|].
    apply Forall_app. split; [by apply Hwarn|].
    apply Forall_app. split; [by repeat constructor|].
    apply Forall_app. split.
    { apply Hwarn. unfold convention_warning.
      destruct (String.eqb fridge "vector10"), (String.eqb fridge "vector9");
        by repeat constructor. }
    apply Forall_app. split; [by repeat constructor|].
    apply Forall_app. split; [by apply Hline|].
    apply Forall_app. split; [by repeat constructor|]. by apply Hwarn.
  - exists ic_p0, ic_n0. rewrite (left_id_L [] app). split; in_trace.
  - rewrite (left_id_L [] app). in_trace.
  - apply run_fit_on_field.
  - apply overlay_on_field.
Qed.

(** *** Further properties of the script *)

(** X12.  A run that gets past the analysis has a FRIDGE that upper-cases
    to VECTOR9 or VECTOR10, since the conversion factor was found.  The
    sign convention compares the name as written: for a fridge spelled in
    another letter case than "vector9" or "vector10" the warning for an
    unrecognized fridge is issued, and the arrays handed on are left as
    they were: the field is the loaded channel over the factor, not
    reversed or negated, and the two branches are the ones the extractor
    returned. *)
Theorem unrecognized_fridge_is_case_variant (tr tr' : list event) (a : analysis) :
  preliminary tr = (tr', Ok a) →
  ∃ fridge perp_axis amps f ch_field_perp raw ch_lockin ibias lockin threshold,
    config !! "FRIDGE" = Some fridge ∧
    config !! "PERP_AXIS" = Some perp_axis ∧
    constants.lookup fridge perp_axis = Ok amps ∧
    config !! "CH_FIELD_PERP" = Some ch_field_perp ∧
    get_data f ch_field_perp = Ok raw ∧
    config !! "CH_LOCKIN" = Some ch_lockin ∧
    get_data_x f ch_lockin = Ok (ibias, lockin) ∧
    config_getfloat float config "RESISTANCE_THRESHOLD" None = Ok threshold ∧
    (upper fridge = "VECTOR9" ∨ upper fridge = "VECTOR10") ∧
    (fridge ≠ "vector10" → fridge ≠ "vector9" →
     Warn ("I don't recognize fridge `" ++ fridge ++ "`") ∈ tr' ∧
     a.(bfield) = map (fun x => x / amps) raw ∧
     (a.(ic_n), a.(ic_p)) = extract_switching_current ibias (np_abs lockin) threshold).
Proof.
  intros Hrun.
  apply preliminary_drawn in Hrun
    as (datapath & fridge & perp_axis & amps & f & ch & raw & ch_lockin & ibias & lockin
        & threshold & OUTDIR & ic_p0 & ic_n0 & boffset & peak_idxs & cyc & freqs & abs_fft
        & group & px & py & w1 & w2 & neg & w4
        & _ & Hfridge & Haxis & Hamps & _ & Hch & Hraw & Hlockin & Hx & Hthr & Hextract
        & Hfield & Hp & Hn & _ & _ & _ & _ & _ & _ & _ & _ & _ & _ & _ & _ & ->).
  exists fridge, perp_axis, amps, f, ch, raw, ch_lockin, ibias, lockin, threshold.
  do 8 (split; [done|]). split.
  - unfold constants.lookup, constants.getattr, constants.composite_key in Hamps.
    destruct (constants.namespace !! _) as [v|] eqn:Hv; [|done].
    apply constants.composite_bound in Hv. unfold constants.vector_entries in Hv.
    repeat (apply elem_of_cons in Hv as [Hv|Hv];
            [injection Hv as -> _ _; by auto|]).
    by apply elem_of_nil in Hv.
  - intros H10 H9.
    apply String.eqb_neq in H10. apply String.eqb_neq in H9.
    unfold oriented in Hp, Hn. unfold oriented_field in Hfield.
    rewrite H10 in Hp, Hn, Hfield.
    split; [|split; [done|]].
    + unfold preliminary_events, convention_warning. rewrite H10, H9. in_trace.
    + by rewrite Hp, Hn, Hextract.
Qed.

(** X13.  When the conversion factor of the configured fridge and axis
    cannot be found (a fridge without per-axis constants, such as
    "fourteen_tesla", or an unknown axis), the script stops with the
    [AttributeError] of the lookup right after its first message: no
    directory is made and nothing is plotted or written. *)
Theorem missing_factor_stops_before_output
    (datapath fridge perp_axis : string) (e : exn) (tr : list event) :
  config !! "DATAPATH" = Some datapath →
  config !! "FRIDGE" = Some fridge →
  config !! "PERP_AXIS" = Some perp_axis →
  constants.lookup fridge perp_axis = Raise e →
  e = AttributeError (constants.composite_key fridge perp_axis) ∧
  preliminary tr = ((tr ++ [Print "Using config file"])%list, Raise e).
Proof.
  intros Hpath Hfridge Haxis Hlookup. split.
  - unfold constants.lookup, constants.getattr in Hlookup.
    destruct (constants.namespace !! _); [done|]. by injection Hlookup as <-.
  - unfold preliminary. rewrite bind_emit, bind_lift. unfold config_getitem at 1.
    rewrite Hpath, bind_lift. unfold config_getitem at 1.
    rewrite Hfridge, bind_lift. unfold config_getitem at 1.
    rewrite Haxis, bind_lift. by rewrite Hlookup.
Qed.

Lemma rev_lookup_Some {A} (l : list A) (k : nat) (x : A) :
  rev l !! k = Some x ↔ l !! (length l - S k)%nat = Some x ∧ (k < length l)%nat.
Proof. rewrite rev_alt. apply reverse_lookup_Some. Qed.

(** X14.  The sign convention keeps the measured points together: the
    three arrays it hands on have the lengths of the arrays it was given,
    and every point (field, positive branch, negative branch) read at one
    index of the result is a point of the input at one index, with the
    sign of the field flipped for "vector10" and unchanged otherwise. *)
Theorem sign_convention_keeps_points
    (fridge : string) (B p n B' p' n' : list R) (tr tr' : list event) :
  length p = length B → length n = length B →
  fridge_convention fridge B p n tr = (tr', Ok (B', p', n')) →
  length B' = length B ∧ length p' = length B ∧ length n' = length B ∧
  ∀ k b x y,
    B' !! k = Some b → p' !! k = Some x → n' !! k = Some y →
    ∃ j, B !! j = Some (if String.eqb fridge "vector10" then - b else b) ∧
         p !! j = Some x ∧ n !! j = Some y.
Proof.
  intros Hp Hn. rewrite fridge_convention_run. intros [= _ <- <- <-].
  unfold oriented_field, oriented. destruct (String.eqb fridge "vector10").
  - rewrite !length_rev, length_map. repeat (split; [done|]).
    intros k b x y Hb Hx Hy.
    apply rev_lookup_Some in Hb as [Hb Hk], Hx as [Hx _], Hy as [Hy _].
    rewrite length_map in Hb, Hk.
    change (map Ropp B) with (Ropp <$> B) in Hb.
    rewrite list_lookup_fmap in Hb. apply fmap_Some in Hb as (b0 & Hb0 & ->).
    rewrite Hp in Hx. rewrite Hn in Hy.
    exists (length B - S k)%nat. by rewrite Ropp_involutive.
  - repeat (split; [done|]). intros k b x y Hb Hx Hy. by exists k.
Qed.

(** X15.  [np.split(a, 2)] undoes the flattening of the two branches: the
    concatenation of two arrays of the same length splits into them.  An
    array of odd length does not split and raises [ValueError]. *)
Theorem split_halves_of_branches :
  (∀ p n : list R, length p = length n → split_halves (p ++ n) = Ok (p, n)) ∧
  (∀ a : list R, Nat.even (length a) = false →
     split_halves a = Raise (ValueError "array split does not result in an equal division")).
Proof.
  split.
  - intros p n Hlen. unfold split_halves. rewrite length_app, <- Hlen.
    replace (length p + length p)%nat with (2 * length p)%nat by lia.
    rewrite Nat.even_mul. simpl Nat.even. cbn [orb].
    rewrite Nat.mul_comm, Nat.div_mul by done.
    by rewrite take_app_length, drop_app_length.
  - intros a Hodd. unfold split_halves. by rewrite Hodd.
Qed.

Lemma take_indices_Ok (a : list R) (idx : list nat) (xs : list R) :
  take_indices a idx = Ok xs → Forall (fun k => (k < length a)%nat) idx.
Proof.
  unfold take_indices. revert xs. induction idx as [|k idx IH]; intros xs; simpl.
  - constructor.
  - cbv [mbind result_bind rbind mret result_ret].
    destruct (a !! k) as [x|] eqn:Hk; [|done].
    destruct (mapM _ idx) as [ys|] eqn:Hrest; [|done].
    intros _. constructor; [by eapply lookup_lt_Some|]. by eapply IH.
Qed.

(** X16.  The offset plot reads the first group of peak indices.  When the
    estimator found no group it stops with [IndexError], after drawing the
    curve and the offset line and before the peaks; and when it ends
    normally the first group exists and each of its indices lies within
    both the field and the current array. *)
Theorem offset_plot_needs_valid_peaks
    (B p : list R) (boffset : R) (peak_idxs : list (list nat)) (tr : list event) :
  (peak_idxs = [] →
   ∃ msg,
     offset_plot_positive B p boffset peak_idxs tr =
       ((tr ++ [Plot (map (fun x => x / 1e-3) B) (map (fun x => x / 1e-6) p) "";
                Axvline (boffset / 1e-3)])%list,
        Raise (IndexError msg))) ∧
  (∀ tr', offset_plot_positive B p boffset peak_idxs tr = (tr', Ok ()) →
     ∃ peaks, head peak_idxs = Some peaks ∧
       Forall (fun k => (k < length B)%nat ∧ (k < length p)%nat) peaks).
Proof.
  unfold offset_plot_positive. split.
  - intros ->. rewrite !bind_emit, bind_lift. simpl.
    eexists. by rewrite <- !(assoc_L app).
  - intros tr' Hrun. rewrite !bind_emit, bind_lift in Hrun.
    unfold first_item in Hrun. destruct (head peak_idxs) as [peaks|]; [|done].
    rewrite bind_lift in Hrun.
    destruct (take_indices B peaks) as [x|] eqn:Hx; [|done].
    rewrite bind_lift in Hrun.
    destruct (take_indices p peaks) as [y|] eqn:Hy; [|done].
    exists peaks. split; [done|].
    apply take_indices_Ok in Hx, Hy. apply Forall_and. by split.
Qed.

(** A script only adds to the trace. *)
Definition any_event (e : event) : Prop := True.

Lemma run_fit_run (a : analysis) (result : model_result) (tr tr' : list event) :
  run_fit a tr = (tr', Ok result) →
  model_fit args.(both_branches) "leastsq" (fit_data a) (1 / a.(uncertainty))
    a.(bfield) a.(params) = Ok result ∧
  ∃ intervals sampling,
    tr' = (tr ++
           [Print "Optimizing fit...";
            ModelFit "leastsq" (fit_data a) (1 / a.(uncertainty)) a.(bfield);
            Print "...done.";
            Print (fit_report result);
            WriteText (a.(outpath) ++ "_fit-report.txt") (fit_report result);
            WriteText (a.(outpath) ++ "_fit-params.txt")
              (to_dataframe (result_params result))] ++
           intervals ++
           [SaveModelresult (a.(outpath) ++ "_model-result.json")] ++
           sampling)%list.
Proof.
  unfold run_fit. intros Hrun. rewrite !bind_emit, bind_lift in Hrun.
  destruct (model_fit _ _ _ _ _ _) as [res|] eqn:Hfit; [|done].
  rewrite !bind_emit in Hrun.
  apply bind_run in Hrun as (tr1 & u1 & Hci & Hrun).
  rewrite bind_emit in Hrun.
  apply bind_run in Hrun as (tr2 & u2 & Hem & Hrun).
  injection Hrun as <- <-. split; [done|].
  match type of Hci with
  | ?m _ = _ => assert (emits any_event m) as Hall1 by (repeat emits_step)
  end.
  apply Hall1 in Hci as (intervals & -> & _).
  match type of Hem with
  | ?m _ = _ =>
      assert (emits any_event m) as Hall2 by (unfold run_emcee; repeat emits_step)
  end.
  apply Hall2 in Hem as (sampling & -> & _).
  exists intervals, sampling. by rewrite <- !(assoc_L app).
Qed.

Lemma extends_refl (tr : list event) : ∃ evs, tr = (tr ++ evs)%list.
Proof. exists []. by rewrite (right_id_L [] app). Qed.

Lemma extends_app (tr X Y : list event) :
  (∃ evs, X = (tr ++ evs)%list) → ∃ evs, (X ++ Y)%list = (tr ++ evs)%list.
Proof. intros (evs & ->). exists (evs ++ Y)%list. by rewrite (assoc_L app). Qed.

Lemma overlay_fit_run (a : analysis) (result : model_result) (tr tr' : list event) :
  overlay a (Some result) tr = (tr', Ok ()) →
  ∃ offset rate evs fit_p init_p more,
    param_value (result_params result) "bfield_offset" = Ok offset ∧
    param_value (result_params result) "radians_per_tesla" = Ok rate ∧
    tr' = (tr ++ evs ++
           [Savefig (a.(outpath) ++ "_fit.png");
            ToCsv (a.(outpath) ++ "_fit.csv")
              ([("bfield", a.(bfield));
                ("phase", map (fun b => (b - offset) * rate) a.(bfield));
                ("ic_p", a.(ic_p)); ("fit_p", fit_p); ("init_p", init_p)] ++ more)])%list ∧
    if args.(both_branches) then
      ∃ fit_n init_n,
        split_halves (best_fit result) = Ok (fit_p, fit_n) ∧
        split_halves (model_eval true a.(bfield) a.(params)) = Ok (init_p, init_n) ∧
        more = [("ic_n", a.(ic_n)); ("fit_n", fit_n); ("init_n", init_n)]
    else
      fit_p = best_fit result ∧ init_p = model_eval false a.(bfield) a.(params) ∧
      more = [].
Proof.
  unfold overlay. intros Hrun.
  rewrite bind_lift in Hrun.
  destruct (param_value (result_params result) "bfield_offset") as [offset|]; [|done].
  rewrite bind_lift in Hrun.
  destruct (param_value (result_params result) "radians_per_tesla") as [rate|]; [|done].
  apply bind_run in Hrun as (tr1 & [[[best_p best_n] init_p] init_n] & Hbranch & Hrun).
  rewrite bind_emit in Hrun.
  apply bind_run in Hrun as (tr2 & u2 & Hfitplot & Hrun).
  cbv beta iota in Hfitplot. rewrite bind_lift in Hfitplot.
  destruct best_p as [fit_p|]; [|done]. injection Hfitplot as <-.
  apply bind_run in Hrun as (tr3 & u3 & Hguess & Hrun).
  match type of Hguess with
  | ?m _ = _ => assert (emits any_event m) as Hall by (repeat emits_step)
  end.
  apply Hall in Hguess as (guess & -> & _).
  rewrite bind_emit in Hrun. cbv beta iota in Hrun. rewrite bind_lift in Hrun.
  injection Hrun as <-.
  exists offset, rate.
  revert Hbranch. destruct args.(both_branches); intros Hbranch.
  - rewrite bind_emit in Hbranch.
    apply bind_run in Hbranch as (tr4 & [bp bn] & Hbest & Hbranch).
    cbv beta iota in Hbest. rewrite bind_lift in Hbest.
    destruct (split_halves (best_fit result)) as [[bp' bn']|] eqn:Hsplit; [|done].
    rewrite bind_emit in Hbest. injection Hbest as <- <- <-.
    rewrite bind_emit, bind_lift in Hbranch.
    destruct (split_halves (model_eval _ _ _)) as [[ip inn]|] eqn:Hinit; [|done].
    apply bind_run in Hbranch as (tr5 & u5 & Hg & Hbranch).
    match type of Hg with
    | ?m _ = _ => assert (emits any_event m) as Hall' by (repeat emits_step)
    end.
    apply Hall' in Hg as (guess' & -> & _).
    injection Hbranch as <- <- <- <- <-.
    match goal with
    | |- context [((?X ++ [Savefig _]) ++ [ToCsv _ _])%list] =>
        assert (∃ evs, X = (tr ++ evs)%list) as (evs & ->)
          by (repeat apply extends_app; apply extends_refl)
    end.
    exists evs, bp', ip, [("ic_n", a.(ic_n)); ("fit_n", bn'); ("init_n", inn)].
    split; [done|]. split; [done|]. split.
    + by rewrite <- !(assoc_L app).
    + by exists bn', inn.
  - rewrite bind_emit in Hbranch. injection Hbranch as <- <- <- <- <-.
    match goal with
    | |- context [((?X ++ [Savefig _]) ++ [ToCsv _ _])%list] =>
        assert (∃ evs, X = (tr ++ evs)%list) as (evs & ->)
          by (repeat apply extends_app; apply extends_refl)
    end.
    exists evs, (best_fit result), (model_eval false a.(bfield) a.(params)), [].
    split; [done|]. split; [done|]. split.
    + by rewrite <- !(assoc_L app).
    + done.
Qed.

(** X17.  Without --dry-run, a run that ends normally has fitted the
    positive branch (both branches, flattened, with --both-branches)
    against the field handed on by the analysis, with weights
    1/uncertainty and the initial-guess parameters; it has written the fit
    report, the parameter table and the serialized result, saved the
    overlay figure, and exported a CSV whose phase column is computed from
    the fitted offset and rate.  The CSV has the five columns bfield,
    phase, ic_p, fit_p, init_p, followed with --both-branches by ic_n,
    fit_n, init_n. *)
Theorem fit_run_outputs (tr : list event) :
  args.(dry_run) = false →
  main [] = (tr, Ok ()) →
  ∃ pre a result offset rate columns,
    preliminary [] = (pre, Ok a) ∧
    model_fit args.(both_branches) "leastsq" (fit_data a) (1 / a.(uncertainty))
      a.(bfield) a.(params) = Ok result ∧
    ModelFit "leastsq" (fit_data a) (1 / a.(uncertainty)) a.(bfield) ∈ tr ∧
    WriteText (a.(outpath) ++ "_fit-report.txt") (fit_report result) ∈ tr ∧
    WriteText (a.(outpath) ++ "_fit-params.txt") (to_dataframe (result_params result)) ∈ tr ∧
    SaveModelresult (a.(outpath) ++ "_model-result.json") ∈ tr ∧
    Savefig (a.(outpath) ++ "_fit.png") ∈ tr ∧
    param_value (result_params result) "bfield_offset" = Ok offset ∧
    param_value (result_params result) "radians_per_tesla" = Ok rate ∧
    ToCsv (a.(outpath) ++ "_fit.csv") columns ∈ tr ∧
    columns.*1 = (["bfield"; "phase"; "ic_p"; "fit_p"; "init_p"] ++
                  if args.(both_branches) then ["ic_n"; "fit_n"; "init_n"] else [])%list ∧
    ("bfield", a.(bfield)) ∈ columns ∧
    ("phase", map (fun b => (b - offset) * rate) a.(bfield)) ∈ columns ∧
    ("ic_p", a.(ic_p)) ∈ columns.
Proof.
  intros Hdry Hmain. unfold main in Hmain. rewrite Hdry in Hmain.
  apply bind_run in Hmain as (pre & a & Hpre & Hmain).
  apply bind_run in Hmain as (tr1 & fit & Hfit & Hmain).
  apply bind_run in Hfit as (tr0 & result & Hfit & Hret). injection Hret as <- <-.
  apply bind_run in Hmain as (tr2 & u & Hoverlay & Hmain). destruct u.
  injection Hmain as <-.
  apply run_fit_run in Hfit as (Hmodel & intervals & sampling & ->).
  apply overlay_fit_run in Hoverlay
    as (offset & rate & evs & fit_p & init_p & more & Hoff & Hrate & -> & Hcols).
  eexists pre, a, result, offset, rate, _.
  split; [done|]. split; [done|].
  do 5 (split; [in_trace|]). split; [done|]. split; [done|].
  split; [in_trace|]. split; [|split; [|split]].
  - destruct args.(both_branches).
    + by destruct Hcols as (fit_n & init_n & _ & _ & ->).
    + by destruct Hcols as (_ & _ & ->).
  - in_trace.
  - in_trace.
  - in_trace.
Qed.

(** The optional analyses: the optimizer runs with the least-squares
    method, the sampler only with --emcee, and confidence intervals only
    with --conf-interval, taking the sigmas given when there are any. *)
Definition on_request (e : event) : Prop :=
  match e with
  | ModelFit method _ _ _ =>
      method = "leastsq" ∨ (method = "emcee" ∧ args.(emcee) = true)
  | EmceeReport => args.(emcee) = true
  | ConfInterval sigmas =>
      ∃ given, args.(conf_interval) = Some given ∧
               sigmas = match given with [] => None | _ => Some given end
  | _ => True
  end.

Ltac on_request_step :=
  first
    [ apply emits_mret
    | apply emits_lift
    | apply emits_emit; first [exact I | done | by left | by right | by eexists]
    | apply emits_bind; [|intros ?] ].

Lemma emits_weaken {A} (P Q : event → Prop) (m : script event A) :
  (∀ e, P e → Q e) → emits P m → emits Q m.
Proof.
  intros HPQ Hm tr tr' r Hrun. apply Hm in Hrun as (evs & -> & Hevs).
  exists evs. split; [done|]. by eapply Forall_impl.
Qed.

Lemma run_fit_on_request (a : analysis) : emits on_request (run_fit a).
Proof.
  unfold run_fit, run_emcee.
  destruct args.(conf_interval) as [given|] eqn:Hci, args.(emcee) eqn:Hemcee;
    repeat on_request_step.
Qed.

Lemma overlay_on_request (a : analysis) (fit : option model_result) :
  emits on_request (overlay a fit).
Proof. unfold overlay. repeat emits_step. Qed.

(** X18.  However the run ends, what is optional was asked for: every fit
    is a least-squares fit or, with --emcee only, a sampling run; the
    report of the sampler appears only with --emcee; and confidence
    intervals are computed only with --conf-interval, with the sigmas of
    the command line when some are given and the defaults of the fit
    engine when the option has no value. *)
Theorem optional_analyses_on_request (tr : list event) (r : result ()) :
  main [] = (tr, r) → Forall on_request tr.
Proof.
  intros Hmain.
  assert (emits on_request main) as Hemits.
  { unfold main. apply emits_bind.
    - eapply emits_weaken; [|apply preliminary_no_fit_output]. by intros [].
    - intros a. apply emits_bind.
      + destruct args.(dry_run); [apply emits_mret|].
        apply emits_bind; [apply run_fit_on_request|]. intros ?. apply emits_mret.
      + intros fit. apply emits_bind; [apply overlay_on_request|].
        intros ?. by apply emits_emit. }
  by apply Hemits in Hmain as (evs & -> & Hevs).
Qed.

(** A conditional update of the parameter found under a name. *)
Definition set_if (b : bool) (f : parameter → parameter) (o : option parameter)
    : option parameter :=
  if b then f <$> o else o.

Lemma param_set_lookup (name k : string) (f : parameter → parameter)
    (ps ps' : parameters) :
  param_set name f ps = Ok ps' →
  ps' !! k = set_if (bool_decide (k = name)) f (ps !! k).
Proof.
  unfold param_set, set_if. destruct (ps !! name) as [p|] eqn:Hp; [|done].
  intros [= <-]. case_bool_decide as Hk.
  - subst k. by rewrite lookup_insert_eq, Hp.
  - by rewrite lookup_insert_ne.
Qed.

Lemma set_if_Some (b : bool) (f : parameter → parameter) (o : option parameter)
    (q : parameter) :
  set_if b f o = Some q → ∃ q0, o = Some q0 ∧ q = if b then f q0 else q0.
Proof.
  unfold set_if. destruct b.
  - intros Hq. apply fmap_Some in Hq as (q0 & -> & ->). by exists q0.
  - intros ->. by exists q.
Qed.

Lemma make_params_unset (k : string) (q : parameter) :
  make_params !! k = Some q →
  q = unset ∧
  k ∈ [ "transparency1"; "transparency2"; "switching_current1"; "switching_current2";
        "anom_phase1"; "anom_phase2"; "bfield_offset"; "radians_per_tesla";
        "temperature"; "gap"; "inductance" ].
Proof.
  intros Hq. apply elem_of_list_to_map_2, list_elem_of_fmap in Hq as (name & Hq & Hin).
  by injection Hq as -> ->.
Qed.

(** The parameters the script holds fixed. *)
Definition fixed_names : list string :=
  ["anom_phase1"; "anom_phase2"; "temperature"; "gap"].

(** X19.  In the parameters of the initial guess every parameter of the
    model has a value.  The anomalous phases, the temperature and the gap
    are held fixed; transparency2 is not varied either when
    EQUAL_TRANSPARENCIES is true, since it is then tied to transparency1 by
    a constraint expression; every other parameter varies.  No other
    parameter carries an expression. *)
Theorem initial_guess_parameters
    (B p n T : list R) (tr tr' : list event) (ps : parameters) (boffset cyc_per_T : R)
    (peak_idxs : list (list nat)) (freqs abs_fft : list R) (name : string) (q : parameter) :
  initial_guess B p n T tr = (tr', Ok (ps, boffset, peak_idxs, cyc_per_T, freqs, abs_fft)) →
  ps !! name = Some q →
  is_Some q.(value) ∧
  (q.(vary) = false ↔
   name ∈ fixed_names ∨
   (name = "transparency2" ∧
    config_getboolean boolean config "EQUAL_TRANSPARENCIES" = Ok (Some true))) ∧
  (q.(expr) = Some "transparency1" ↔
   name = "transparency2" ∧
   config_getboolean boolean config "EQUAL_TRANSPARENCIES" = Ok (Some true)) ∧
  (q.(expr) = None ∨ q.(expr) = Some "transparency1").
Proof.
  unfold initial_guess. intros Hrun Hq.
  rewrite bind_lift in Hrun.
  destruct (configure_transparencies make_params) as [ps0|] eqn:Htrans; [|done].
  assert (∀ k, ps0 !! k =
               set_if (bool_decide (k = "transparency2") &&
                       match config_getboolean boolean config "EQUAL_TRANSPARENCIES" with
                       | Ok (Some true) => true
                       | _ => false
                       end)
                 (with_expr "transparency1")
                 (set_if (bool_decide (k = "transparency2")) (with_value_max 0.5 1)
                    (set_if (bool_decide (k = "transparency1")) (with_value_max 0.5 1)
                       (make_params !! k)))) as Hlook0.
  { unfold configure_transparencies in Htrans.
    cbv [mbind result_bind rbind] in Htrans.
    destruct (param_set "transparency1" _ make_params) as [pa|] eqn:Ha; [|done].
    destruct (param_set "transparency2" _ pa) as [pb|] eqn:Hb; [|done].
    destruct (config_getboolean boolean config "EQUAL_TRANSPARENCIES")
      as [[[]|]|]; [| | |done].
    - simpl in Htrans. intros k.
      rewrite (param_set_lookup _ k _ _ _ Htrans), (param_set_lookup _ k _ _ _ Hb),
        (param_set_lookup _ k _ _ _ Ha).
      by rewrite andb_true_r.
    - simpl in Htrans. injection Htrans as <-. intros k.
      rewrite (param_set_lookup _ k _ _ _ Hb), (param_set_lookup _ k _ _ _ Ha).
      by rewrite andb_false_r.
    - simpl in Htrans. injection Htrans as <-. intros k.
      rewrite (param_set_lookup _ k _ _ _ Hb), (param_set_lookup _ k _ _ _ Ha).
      by rewrite andb_false_r. }
  rewrite bind_lift in Hrun. destruct (amax p) as [hi|]; [|done].
  rewrite bind_lift in Hrun. destruct (amin p) as [lo|]; [|done].
  rewrite bind_lift in Hrun.
  destruct (param_set "switching_current1" _ ps0) as [ps1|] eqn:H1; [|done].
  rewrite bind_lift in Hrun.
  destruct (param_set "switching_current2" _ ps1) as [ps2|] eqn:H2; [|done].
  rewrite bind_emit in Hrun.
  destruct (estimate_boffset B p _) as [boffset' peak_idxs'].
  rewrite bind_lift in Hrun.
  destruct (param_set "bfield_offset" _ ps2) as [ps3|] eqn:H3; [|done].
  rewrite bind_emit in Hrun.
  destruct (estimate_frequency B p) as [cyc' [freqs' abs_fft']].
  rewrite bind_lift in Hrun.
  destruct (param_set "radians_per_tesla" _ ps3) as [ps4|] eqn:H4; [|done].
  rewrite bind_lift in Hrun.
  destruct (param_set "anom_phase1" _ ps4) as [ps5|] eqn:H5; [|done].
  rewrite bind_lift in Hrun.
  destruct (param_set "anom_phase2" _ ps5) as [ps6|] eqn:H6; [|done].
  rewrite bind_lift in Hrun.
  destruct (param_set "temperature" _ ps6) as [ps7|] eqn:H7; [|done].
  rewrite bind_lift in Hrun.
  destruct (param_set "gap" _ ps7) as [ps8|] eqn:H8; [|done].
  rewrite bind_lift in Hrun.
  destruct (param_set "inductance" _ ps8) as [ps9|] eqn:H9; [|done].
  injection Hrun as _ <- _ _ _ _ _.
  rewrite (param_set_lookup _ name _ _ _ H9), (param_set_lookup _ name _ _ _ H8),
    (param_set_lookup _ name _ _ _ H7), (param_set_lookup _ name _ _ _ H6),
    (param_set_lookup _ name _ _ _ H5), (param_set_lookup _ name _ _ _ H4),
    (param_set_lookup _ name _ _ _ H3), (param_set_lookup _ name _ _ _ H2),
    (param_set_lookup _ name _ _ _ H1), Hlook0 in Hq.
  clear - Hq.
  apply set_if_Some in Hq as (q11 & Hq & E12).
  apply set_if_Some in Hq as (q10 & Hq & E11).
  apply set_if_Some in Hq as (q9 & Hq & E10).
  apply set_if_Some in Hq as (q8 & Hq & E9).
  apply set_if_Some in Hq as (q7 & Hq & E8).
  apply set_if_Some in Hq as (q6 & Hq & E7).
  apply set_if_Some in Hq as (q5 & Hq & E6).
  apply set_if_Some in Hq as (q4 & Hq & E5).
  apply set_if_Some in Hq as (q3 & Hq & E4).
  apply set_if_Some in Hq as (q2 & Hq & E3).
  apply set_if_Some in Hq as (q1 & Hq & E2).
  apply set_if_Some in Hq as (q0 & Hq & E1).
  apply make_params_unset in Hq as [-> Hname].
  revert E3.
  destruct (config_getboolean boolean config "EQUAL_TRANSPARENCIES") as [[[]|]|];
    intros E3.
  all: repeat (apply elem_of_cons in Hname as [->|Hname];
               [ repeat match goal with
                        | E : _ = (if bool_decide _ && _ then _ else _) |- _ =>
                            first [ rewrite bool_decide_eq_true_2 in E by done
                                  | rewrite bool_decide_eq_false_2 in E by done ];
                            simpl andb in E
                        | E : _ = (if bool_decide _ then _ else _) |- _ =>
                            first [ rewrite bool_decide_eq_true_2 in E by done
                                  | rewrite bool_decide_eq_false_2 in E by done ]
                        end;
                 subst;
                 cbv beta iota delta [with_value with_value_fixed with_value_max with_expr
                                      unset value vary expr fixed_names];
                 split; [by eexists|];
                 split;
                 [ split;
                   [ intros Hl;
                     first [ discriminate Hl
                           | solve [left; repeat first [ apply list_elem_of_here
                                                       | apply list_elem_of_further ]]
                           | by right ]
                   | intros Hr;
                     first [ done
                           | destruct Hr as [Hr|[Hr1 Hr2]];
                             [ repeat (apply elem_of_cons in Hr as [Hr|Hr];
                                       [discriminate Hr|]);
                               by apply elem_of_nil in Hr
                             | first [discriminate Hr1 | discriminate Hr2] ] ] ]
                 | ];
                 split;
                 [ split;
                   [ intros Hl; first [discriminate Hl | done]
                   | intros [Hr1 Hr2];
                     first [done | discriminate Hr1 | discriminate Hr2] ]
                 | first [by left | by right] ]
               | ]).
  all: by apply elem_of_nil in Hname.
Qed.

End script.

Arguments Print {ndarray}.
Arguments Warn {ndarray}.
Arguments Mkdir {ndarray}.
Arguments Plot2d {ndarray}.
Arguments Plot {ndarray}.
Arguments Axvline {ndarray}.
Arguments Savefig {ndarray}.
Arguments EstimateBoffset {ndarray}.
Arguments EstimateFrequency {ndarray}.
Arguments ModelFit {ndarray}.
Arguments ModelEval {ndarray}.
Arguments ConfInterval {ndarray}.
Arguments WriteText {ndarray}.
Arguments SaveModelresult {ndarray}.
Arguments EmceeReport {ndarray}.
Arguments ToCsv {ndarray}.
Arguments Show {ndarray}.
Arguments not_fit_output {ndarray}.
Arguments on_field {ndarray}.
Arguments estimator_fields {ndarray}.
Arguments on_request {ndarray}.

(** *** Runs on a stand-in library

    2-D arrays are [()], the field channel reads 0 A and 1 A, the two
    extracted branches have two points each, the estimators answer offset
    0, one peak at index 0 and one cycle per tesla. *)

Definition stub_config : config_section :=
  list_to_map
    [ ("DATAPATH", "scan.hdf5"); ("FRIDGE", "vector10"); ("PERP_AXIS", "x");
      ("WAFER", "W1"); ("PIECE", "P2"); ("LAYOUT", "L3"); ("DEVICE", "D4");
      ("COOLDOWN", "CD5"); ("SCAN", "S6");
      ("CH_FIELD_PERP", "Magnet - Field X"); ("CH_LOCKIN", "Lockin - Value");
      ("CH_TEMP_MEAS", "Fridge - Temperature") ].

Definition dry_args : arguments :=
  {| both_branches := false; dry_run := true; plot_guess := true;
     conf_interval := None; emcee := false; verbose := false |}.

Abbreviation stub_preliminary args config :=
  (preliminary (fun _ => Ok 1) (fun _ => Ok false) "fit_squid_oscillations.py"
    (fun a b => a ++ "/" ++ b) () (fun a => a) (fun a => a) (fun _ => 1) (fun _ _ => true)
    (fun a _ => a) "/data/vector10" string Ok (fun _ _ => Ok [0; 1])
    (fun _ _ => Ok ((), ())) (fun _ _ => false) (fun _ _ _ => ([-1; -2], [1; 2]))
    (fun _ _ _ => (0, [[0%nat]])) (fun _ _ => (1, ([0; 1], [1; 2])))
    (fun _ => Ok 1%Z) args config).

Abbreviation stub_main args config :=
  (main (fun _ => Ok 1) (fun _ => Ok false) "fit_squid_oscillations.py"
    (fun a b => a ++ "/" ++ b) () (fun a => a) (fun a => a) (fun _ => 1) (fun _ _ => true)
    (fun a _ => a) "/data/vector10" string Ok (fun _ _ => Ok [0; 1])
    (fun _ _ => Ok ((), ())) (fun _ _ => false) (fun _ _ _ => ([-1; -2], [1; 2]))
    (fun _ _ _ => (0, [[0%nat]])) (fun _ _ => (1, ([0; 1], [1; 2])))
    (fun _ => Ok 1%Z)
    () (fun _ => make_params) (fun _ => []) (fun _ _ _ _ _ _ => Ok ()) (fun _ _ _ => [1; 2])
    (fun _ => "report") (fun _ => "intervals") (fun _ => "table") args config).

(** The sign convention on the three kinds of fridge name. *)
Lemma fridge_sign_convention_witness :
  fridge_convention () "vector10" [1; 2] [3; 4] [5; 6] []
    = ([], Ok (rev (map Ropp [1; 2]), rev [3; 4], rev [5; 6])) ∧
  fridge_convention () "vector9" [1; 2] [3; 4] [5; 6] []
    = ([], Ok ([1; 2], [3; 4], [5; 6])) ∧
  fridge_convention () "fourteen_tesla" [1; 2] [3; 4] [5; 6] []
    = ([Warn "I don't recognize fridge `fourteen_tesla`"], Ok ([1; 2], [3; 4], [5; 6])).
Proof.
  split; [|split].
  - by apply (fridge_sign_convention () "vector10" [1; 2] [3; 4] [5; 6] []).
  - by apply (fridge_sign_convention () "vector9" [1; 2] [3; 4] [5; 6] []).
  - by apply (fridge_sign_convention () "fourteen_tesla" [1; 2] [3; 4] [5; 6] []).
Defined.

(** The field the stand-in run loads, in tesla. *)
Definition stub_loaded : list R :=
  map (fun x => x / constants.VECTOR10_AMPS_PER_TESLA_X) [0; 1].

(** The value of a result known to be [Ok]. *)
Definition value_of {A} (otherwise : A) (r : result A) : A :=
  match r with
  | Ok a => a
  | Raise _ => otherwise
  end.

Definition no_analysis : analysis :=
  {| outpath := ""; stamp := ""; bfield := []; ic_p := []; ic_n := [];
     params := ∅; uncertainty := 0 |}.

(** The trace and the analysis of the stand-in run. *)
Definition stub_trace : list (event ()) := (stub_preliminary dry_args stub_config []).1.

Definition stub_analysis : analysis :=
  value_of no_analysis (stub_preliminary dry_args stub_config []).2.

Lemma stub_preliminary_run :
  stub_preliminary dry_args stub_config [] = (stub_trace, Ok stub_analysis).
Proof. vm_compute. reflexivity. Qed.

(** Finding an event in a trace written out. *)
Ltac find_event :=
  lazymatch goal with
  | |- _ ∈ _ :: _ => first [apply list_elem_of_here | apply list_elem_of_further; find_event]
  | |- _ ∈ (_ ++ _)%list => apply elem_of_app; first [left; find_event | right; find_event]
  end.

(** The dry run on the stand-in library ends normally; nothing of the fit
    is run or written; the peaks of the first group are drawn, and the
    offset figure and the overlay figure are saved. *)
Lemma dry_run_outputs_witness :
  ∃ tr pre a px py,
    stub_main dry_args stub_config [] = (tr, Ok ()) ∧
    stub_preliminary dry_args stub_config [] = (pre, Ok a) ∧
    Forall not_fit_output tr ∧
    take_indices a.(bfield) [0%nat] = Ok px ∧
    take_indices a.(ic_p) [0%nat] = Ok py ∧
    Plot (map (fun x => x / 1e-3) px) (map (fun x => x / 1e-6) py) "" ∈ tr ∧
    Savefig (a.(outpath) ++ "_bfield-offset.png") ∈ tr ∧
    Savefig (a.(outpath) ++ "_fit.png") ∈ tr.
Proof.
  assert (stub_main dry_args stub_config []
          = ((stub_main dry_args stub_config []).1, Ok ())) as Hmain.
  { vm_compute. reflexivity. }
  destruct (dry_run_outputs (fun _ => Ok 1) (fun _ => Ok false)
    "fit_squid_oscillations.py"
    (fun a b => a ++ "/" ++ b) () (fun a => a) (fun a => a) (fun _ => 1) (fun _ _ => true)
    (fun a _ => a) "/data/vector10" string Ok (fun _ _ => Ok [0; 1])
    (fun _ _ => Ok ((), ())) (fun _ _ => false) (fun _ _ _ => ([-1; -2], [1; 2]))
    (fun _ _ _ => (0, [[0%nat]])) (fun _ _ => (1, ([0; 1], [1; 2])))
    (fun _ => Ok 1%Z)
    () (fun _ => make_params) (fun _ => []) (fun _ _ _ _ _ _ => Ok ()) (fun _ _ _ => [1; 2])
    (fun _ => "report") (fun _ => "intervals") (fun _ => "table") dry_args stub_config
    eq_refl) as [Hnone Hplots].
  destruct (Hplots _ Hmain)
    as (pre & a & fridge & perp_axis & amps & f & ch & raw & ch_lockin & ibias & lockin
        & threshold & OUTDIR & ic_p0 & ic_n0 & boffset & peak_idxs & cyc & freqs & abs_fft
        & group & px & py & w1 & w2 & w3 & neg & w4 & offset & rate & init_p & init_n
        & Hpre & _ & _ & _ & _ & _ & _ & _ & _ & _
        & Hboff & _ & Hgroup & Hpx & Hpy & _ & _ & _ & _ & _ & _ & _ & _ & Htr).
  injection Hboff as _ <-. injection Hgroup as <-.
  exists (stub_main dry_args stub_config []).1, pre, a, px, py.
  split; [exact Hmain|]. split; [exact Hpre|]. split; [exact (Hnone _ _ Hmain)|].
  split; [exact Hpx|]. split; [exact Hpy|].
  rewrite Htr. unfold preliminary_events, overlay_dry_events.
  split; [find_event|]. split; find_event.
Defined.

(** The bounds theorem on the parameters of the stand-in run. *)
Lemma transparency_bounds_witness :
  ∃ tr a,
    stub_preliminary dry_args stub_config [] = (tr, Ok a) ∧
    ∃ p1 p2,
      a.(params) !! "transparency1" = Some p1 ∧
      a.(params) !! "transparency2" = Some p2 ∧
      (∀ v, within_bounds p1 v ↔ v <= 1) ∧
      (∀ v, within_bounds p2 v ↔ v <= 1).
Proof.
  exists stub_trace, stub_analysis. split; [exact stub_preliminary_run|].
  destruct (transparency_bounds (fun _ => Ok 1) (fun _ => Ok false)
    "fit_squid_oscillations.py"
    (fun a b => a ++ "/" ++ b) () (fun a => a) (fun a => a) (fun _ => 1) (fun _ _ => true)
    (fun a _ => a) "/data/vector10" string Ok (fun _ _ => Ok [0; 1])
    (fun _ _ => Ok ((), ())) (fun _ _ => false) (fun _ _ _ => ([-1; -2], [1; 2]))
    (fun _ _ _ => (0, [[0%nat]])) (fun _ _ => (1, ([0; 1], [1; 2])))
    (fun _ => Ok 1%Z)
    () (fun _ _ _ _ _ _ => Ok ()) (fun _ _ _ => [1; 2]) dry_args stub_config
    [] stub_trace stub_analysis stub_preliminary_run)
    as (p1 & p2 & Hp1 & Hp2 & Hb1 & Hb2 & _).
  exists p1, p2. exact (conj Hp1 (conj Hp2 (conj Hb1 Hb2))).
Defined.

(** The bound of the fit configuration admits the transparency 1, and
    there the radicand of the current-phase relation, hence its
    denominator, vanishes at phase - anomalous_phase = π. *)
Lemma transparency_one_admitted :
  ∃ ps p1 p2,
    configure_transparencies (fun _ => Ok false) stub_config make_params = Ok ps ∧
    ps !! "transparency1" = Some p1 ∧ ps !! "transparency2" = Some p2 ∧
    p1.(pmax) = Some 1 ∧ p2.(pmax) = Some 1 ∧
    within_bounds p1 1 ∧ within_bounds p2 1 ∧
    cpr_radicand PI 0 1 = 0 ∧
    R_sqrt.sqrt (cpr_radicand PI 0 1) = 0.
Proof.
  assert (configure_transparencies (fun _ => Ok false) stub_config make_params
          = Ok (value_of ∅ (configure_transparencies (fun _ => Ok false) stub_config
                               make_params))) as Hps.
  { vm_compute. reflexivity. }
  pose proof (configure_transparencies_bounds _ _ _ Hps)
    as (p1 & p2 & Hp1 & Hp2 & _ & Hmin1 & Hmax1 & _ & Hmin2 & Hmax2).
  eexists _, p1, p2.
  split; [exact Hps|]. split; [exact Hp1|]. split; [exact Hp2|].
  split; [exact Hmax1|]. split; [exact Hmax2|].
  split; [|split; [|split]].
  - unfold within_bounds. rewrite Hmin1, Hmax1. split; [exact I|lra].
  - unfold within_bounds. rewrite Hmin2, Hmax2. split; [exact I|lra].
  - apply cpr_radicand_singular.
  - rewrite cpr_radicand_singular. apply sqrt_0.
Qed.

(** The field theorem on the stand-in run, whose fridge is vector10. *)
Lemma field_in_tesla_witness :
  ∃ tr a,
    stub_preliminary dry_args stub_config [] = (tr, Ok a) ∧
    ∃ fridge perp_axis amps raw,
      stub_config !! "FRIDGE" = Some fridge ∧
      stub_config !! "PERP_AXIS" = Some perp_axis ∧
      constants.lookup fridge perp_axis = Ok amps ∧
      a.(bfield) = (if String.eqb fridge "vector10"
                    then rev (map Ropp (map (fun x => x / amps) raw))
                    else map (fun x => x / amps) raw) ∧
      Forall (on_field (map (fun x => x / amps) raw) a.(bfield)) tr.
Proof.
  exists stub_trace, stub_analysis. split; [exact stub_preliminary_run|].
  destruct (field_in_tesla (fun _ => Ok 1) (fun _ => Ok false)
    "fit_squid_oscillations.py"
    (fun a b => a ++ "/" ++ b) () (fun a => a) (fun a => a) (fun _ => 1) (fun _ _ => true)
    (fun a _ => a) "/data/vector10" string Ok (fun _ _ => Ok [0; 1])
    (fun _ _ => Ok ((), ())) (fun _ _ => false) (fun _ _ _ => ([-1; -2], [1; 2]))
    (fun _ _ _ => (0, [[0%nat]])) (fun _ _ => (1, ([0; 1], [1; 2])))
    (fun _ => Ok 1%Z)
    () (fun _ => make_params) (fun _ => []) (fun _ _ _ _ _ _ => Ok ()) (fun _ _ _ => [1; 2])
    (fun _ => "report") (fun _ => "intervals") (fun _ => "table") dry_args stub_config
    stub_trace stub_analysis stub_preliminary_run)
    as (fridge & perp_axis & amps & f & ch & raw & Hfridge & Haxis & Hamps & _ & _
        & Hfield & Hall & _).
  exists fridge, perp_axis, amps, raw.
  exact (conj Hfridge (conj Haxis (conj Hamps (conj Hfield Hall)))).
Defined.

(** With FRIDGE = vector10 the estimators do not get the field as loaded:
    loaded is [0 T, 1/35.927 T], they are handed [-1/35.927 T, -0 T]. *)
Lemma vector10_field_not_as_loaded :
  ∃ tr a,
    stub_preliminary dry_args stub_config [] = (tr, Ok a) ∧
    estimator_fields tr
      = [map (fun x => x * -1) (rev stub_loaded); map (fun x => x * -1) (rev stub_loaded)] ∧
    map (fun x => x * -1) (rev stub_loaded) ≠ stub_loaded.
Proof.
  exists stub_trace, stub_analysis. split; [exact stub_preliminary_run|].
  split.
  - vm_compute. reflexivity.
  - unfold stub_loaded, constants.VECTOR10_AMPS_PER_TESLA_X. simpl.
    intros [= H0 H1]. lra.
Qed.

(** *** The further properties on the stand-in library *)

(** The stand-in section with the fridge in capitals, and with the
    single-axis magnet. *)
Definition capitals_config : config_section := <["FRIDGE" := "VECTOR10"]> stub_config.

Definition single_axis_config : config_section :=
  <["FRIDGE" := "fourteen_tesla"]> stub_config.

Lemma capitals_preliminary_run :
  stub_preliminary dry_args capitals_config [] =
    ((stub_preliminary dry_args capitals_config []).1,
     Ok (value_of no_analysis (stub_preliminary dry_args capitals_config []).2)).
Proof. vm_compute. reflexivity. Qed.

Lemma capitals_factor :
  constants.lookup "VECTOR10" "x" = Ok constants.VECTOR10_AMPS_PER_TESLA_X.
Proof. vm_compute. reflexivity. Qed.

Lemma capitals_fridge : capitals_config !! "FRIDGE" = Some "VECTOR10".
Proof. vm_compute. reflexivity. Qed.

Lemma capitals_axis : capitals_config !! "PERP_AXIS" = Some "x".
Proof. vm_compute. reflexivity. Qed.

(** With FRIDGE = VECTOR10 the factor of vector10 is found, the warning is
    issued, and the field handed on is the loaded one, not flipped. *)
Lemma unrecognized_fridge_is_case_variant_witness :
  upper "VECTOR10" = "VECTOR10" ∧
  Warn "I don't recognize fridge `VECTOR10`"
    ∈ (stub_preliminary dry_args capitals_config []).1 ∧
  (value_of no_analysis (stub_preliminary dry_args capitals_config []).2).(bfield)
    = stub_loaded.
Proof.
  destruct (unrecognized_fridge_is_case_variant (fun _ => Ok 1) (fun _ => Ok false)
    "fit_squid_oscillations.py"
    (fun a b => a ++ "/" ++ b) () (fun a => a) (fun a => a) (fun _ => 1) (fun _ _ => true)
    (fun a _ => a) "/data/vector10" string Ok (fun _ _ => Ok [0; 1])
    (fun _ _ => Ok ((), ())) (fun _ _ => false) (fun _ _ _ => ([-1; -2], [1; 2]))
    (fun _ _ _ => (0, [[0%nat]])) (fun _ _ => (1, ([0; 1], [1; 2])))
    (fun _ => Ok 1%Z)
    dry_args capitals_config [] _ _ capitals_preliminary_run)
    as (fridge & perp_axis & amps & f & ch & raw & ch_lockin & ibias & lockin & threshold
        & Hfridge & Haxis & Hamps & _ & Hraw & _ & _ & _ & _ & Hwarn).
  rewrite capitals_fridge in Hfridge. injection Hfridge as <-.
  rewrite capitals_axis in Haxis. injection Haxis as <-.
  rewrite capitals_factor in Hamps. injection Hamps as <-.
  injection Hraw as <-.
  destruct (Hwarn ltac:(discriminate) ltac:(discriminate)) as (Hw & Hfield & _).
  split; [reflexivity|]. split; [exact Hw | exact Hfield].
Defined.

Lemma missing_factor_stops_before_output_witness :
  stub_preliminary dry_args single_axis_config [] =
    ([Print "Using config file"],
     Raise (AttributeError "FOURTEEN_TESLA_AMPS_PER_TESLA_X")).
Proof.
  refine (proj2 (missing_factor_stops_before_output (fun _ => Ok 1) (fun _ => Ok false)
    "fit_squid_oscillations.py"
    (fun a b => a ++ "/" ++ b) () (fun a => a) (fun a => a) (fun _ => 1) (fun _ _ => true)
    (fun a _ => a) "/data/vector10" string Ok (fun _ _ => Ok [0; 1])
    (fun _ _ => Ok ((), ())) (fun _ _ => false) (fun _ _ _ => ([-1; -2], [1; 2]))
    (fun _ _ _ => (0, [[0%nat]])) (fun _ _ => (1, ([0; 1], [1; 2])))
    (fun _ => Ok 1%Z)
    dry_args single_axis_config "scan.hdf5" "fourteen_tesla" "x"
    (AttributeError "FOURTEEN_TESLA_AMPS_PER_TESLA_X") [] _ _ _ _));
    vm_compute; reflexivity.
Defined.

Lemma sign_convention_keeps_points_witness :
  length (map (fun x => x * -1) (rev [1; 2])) = length [1; 2] ∧
  ∃ j, [1; 2] !! j = Some (- (2 * -1)) ∧ [3; 4] !! j = Some 4 ∧ [5; 6] !! j = Some 6.
Proof.
  destruct (sign_convention_keeps_points () "vector10" [1; 2] [3; 4] [5; 6]
              (map (fun x => x * -1) (rev [1; 2])) (rev [3; 4]) (rev [5; 6]) [] []
              eq_refl eq_refl eq_refl) as (Hlen & _ & _ & Hpoints).
  split; [exact Hlen|].
  exact (Hpoints 0%nat (2 * -1) 4 6 eq_refl eq_refl eq_refl).
Defined.

Lemma split_halves_of_branches_witness :
  split_halves ([1; 2] ++ [3; 4]) = Ok ([1; 2], [3; 4]) ∧
  split_halves [1; 2; 3] =
    Raise (ValueError "array split does not result in an equal division").
Proof.
  split.
  - exact (proj1 split_halves_of_branches [1; 2] [3; 4] eq_refl).
  - exact (proj2 split_halves_of_branches [1; 2; 3] eq_refl).
Defined.

Lemma offset_plot_needs_valid_peaks_witness :
  ∃ msg,
    offset_plot_positive () [1] [2] 0 [] [] =
      ([Plot (map (fun x => x / 1e-3) [1]) (map (fun x => x / 1e-6) [2]) "";
        Axvline (0 / 1e-3)],
       Raise (IndexError msg)).
Proof. exact (proj1 (offset_plot_needs_valid_peaks () [1] [2] 0 [] []) eq_refl). Defined.

(** A run with the fit: the stand-in fit engine answers with a result
    whose parameters hold an offset of 0 and a rate of 1, and whose best
    fit has two points. *)
Definition wet_args : arguments :=
  {| both_branches := false; dry_run := false; plot_guess := true;
     conf_interval := Some []; emcee := false; verbose := false |}.

Definition fitted_params : parameters :=
  <["bfield_offset" := with_value 0 unset]> (<["radians_per_tesla" := with_value 1 unset]> ∅).

Abbreviation fit_main args config :=
  (main (fun _ => Ok 1) (fun _ => Ok false) "fit_squid_oscillations.py"
    (fun a b => a ++ "/" ++ b) () (fun a => a) (fun a => a) (fun _ => 1) (fun _ _ => true)
    (fun a _ => a) "/data/vector10" string Ok (fun _ _ => Ok [0; 1])
    (fun _ _ => Ok ((), ())) (fun _ _ => false) (fun _ _ _ => ([-1; -2], [1; 2]))
    (fun _ _ _ => (0, [[0%nat]])) (fun _ _ => (1, ([0; 1], [1; 2])))
    (fun _ => Ok 1%Z)
    () (fun _ => fitted_params) (fun _ => [1; 2]) (fun _ _ _ _ _ _ => Ok ())
    (fun _ _ _ => [1; 2])
    (fun _ => "report") (fun _ => "intervals") (fun _ => "table") args config).

Lemma fit_main_run :
  fit_main wet_args stub_config [] = ((fit_main wet_args stub_config []).1, Ok ()).
Proof. vm_compute. reflexivity. Qed.

Lemma fit_run_outputs_witness :
  ∃ a columns,
    WriteText (a.(outpath) ++ "_fit-report.txt") "report"
      ∈ (fit_main wet_args stub_config []).1 ∧
    ToCsv (a.(outpath) ++ "_fit.csv") columns ∈ (fit_main wet_args stub_config []).1 ∧
    columns.*1 = ["bfield"; "phase"; "ic_p"; "fit_p"; "init_p"].
Proof.
  destruct (fit_run_outputs (fun _ => Ok 1) (fun _ => Ok false)
    "fit_squid_oscillations.py"
    (fun a b => a ++ "/" ++ b) () (fun a => a) (fun a => a) (fun _ => 1) (fun _ _ => true)
    (fun a _ => a) "/data/vector10" string Ok (fun _ _ => Ok [0; 1])
    (fun _ _ => Ok ((), ())) (fun _ _ => false) (fun _ _ _ => ([-1; -2], [1; 2]))
    (fun _ _ _ => (0, [[0%nat]])) (fun _ _ => (1, ([0; 1], [1; 2])))
    (fun _ => Ok 1%Z)
    () (fun _ => fitted_params) (fun _ => [1; 2]) (fun _ _ _ _ _ _ => Ok ())
    (fun _ _ _ => [1; 2])
    (fun _ => "report") (fun _ => "intervals") (fun _ => "table") wet_args stub_config
    _ eq_refl fit_main_run)
    as (pre & a & result & offset & rate & columns & _ & _ & _ & Hreport & _ & _ & _
        & _ & _ & Hcsv & Hnames & _).
  exists a, columns. exact (conj Hreport (conj Hcsv Hnames)).
Defined.

Lemma optional_analyses_on_request_witness :
  Forall (on_request wet_args) (fit_main wet_args stub_config []).1.
Proof.
  exact (optional_analyses_on_request (fun _ => Ok 1) (fun _ => Ok false)
    "fit_squid_oscillations.py"
    (fun a b => a ++ "/" ++ b) () (fun a => a) (fun a => a) (fun _ => 1) (fun _ _ => true)
    (fun a _ => a) "/data/vector10" string Ok (fun _ _ => Ok [0; 1])
    (fun _ _ => Ok ((), ())) (fun _ _ => false) (fun _ _ _ => ([-1; -2], [1; 2]))
    (fun _ _ _ => (0, [[0%nat]])) (fun _ _ => (1, ([0; 1], [1; 2])))
    (fun _ => Ok 1%Z)
    () (fun _ => fitted_params) (fun _ => [1; 2]) (fun _ _ _ _ _ _ => Ok ())
    (fun _ _ _ => [1; 2])
    (fun _ => "report") (fun _ => "intervals") (fun _ => "table") wet_args stub_config
    _ _ fit_main_run).
Defined.

(** The initial guess of the stand-in run, with EQUAL_TRANSPARENCIES
    true. *)
Definition equal_config : config_section :=
  <["EQUAL_TRANSPARENCIES" := "true"]> stub_config.

Abbreviation stub_guess :=
  (initial_guess (fun _ => Ok true) () (fun _ _ _ => (0, [[0%nat]]))
     (fun _ _ => (1, ([0; 1], [1; 2]))) dry_args equal_config
     [0; 1] [1; 2] [-1; -2] [1] []).

Definition stub_guess_params : parameters :=
  (value_of (∅, 0, [], 0, [], []) stub_guess.2).1.1.1.1.1.

Lemma stub_guess_run :
  stub_guess = (stub_guess.1, Ok (stub_guess_params, 0, [[0%nat]], 1, [0; 1], [1; 2])).
Proof. vm_compute. reflexivity. Qed.

Lemma stub_guess_tied :
  stub_guess_params !! "transparency2"
    = Some (default unset (stub_guess_params !! "transparency2")).
Proof. vm_compute. reflexivity. Qed.

Lemma stub_guess_equal :
  config_getboolean (fun _ => Ok true) equal_config "EQUAL_TRANSPARENCIES" = Ok (Some true).
Proof. vm_compute. reflexivity. Qed.

(** With EQUAL_TRANSPARENCIES true, transparency2 has a value, is not
    varied and carries the expression. *)
Lemma initial_guess_parameters_witness :
  is_Some (default unset (stub_guess_params !! "transparency2")).(value) ∧
  (default unset (stub_guess_params !! "transparency2")).(vary) = false ∧
  (default unset (stub_guess_params !! "transparency2")).(expr) = Some "transparency1".
Proof.
  destruct (initial_guess_parameters (fun _ => Ok true) () (fun _ _ _ => (0, [[0%nat]]))
              (fun _ _ => (1, ([0; 1], [1; 2]))) dry_args equal_config
              [0; 1] [1; 2] [-1; -2] [1] [] _ _ _ _ _ _ _ "transparency2" _
              stub_guess_run stub_guess_tied) as (Hvalue & Hvary & Hexpr & _).
  split; [exact Hvalue|]. split.
  - apply Hvary. right. exact (conj eq_refl stub_guess_equal).
  - apply Hexpr. exact (conj eq_refl stub_guess_equal).
Defined.

End fit_squid_oscillations.
